(** * nginx-mgr: the mutation transaction and the restore protocol

    A shallow embedding of the Go sources that decide how a configuration
    unit is created, edited, deleted and rolled back ([main.go],
    [internal/service/site_svc.go], the stream service, and
    [internal/service/system_svc.go]).

    Layout of the development:
    - [GoStrings], [Filepath]: the functions of Go's [strings], [strconv]
      and [path/filepath] packages that the services call;
    - [prog]: service code is written once, as a tree of operating-system
      calls ([os.ReadFile], [os.Symlink], [exec.Command] ...) whose
      answers come from the environment;
    - [run]: runs a program against any environment and records the calls
      it made, in order, with their success;
    - [FS]: an environment whose file calls act on a finite map from paths
      to nodes (regular file, symbolic link, directory), and the same in
      a system that turns some calls down;
    - the services and the HTTP handlers, named after the source;
    - the vocabulary of the properties (what a run may call, what a call
      sequence copies, what a path leads to) and the stores and
      environments used as examples ([Scenario]);
    - the properties: the library functions on examples, [run] and the
      call sequences, paths, the file tree, and then one part for each
      of create, delete, edit, reload and restore;
    - further properties of the services: the stages of [Restore] and its
      rollback, [Backup] and [selectLatestBackup], what the status of a
      response tells, reading sites and streams back, and raw writes,
      restores and deletes on the file tree. *)

From stdpp Require Import gmap strings list pretty.
From Stdlib Require Import ZArith Ascii String.

Open Scope string_scope.
Open Scope Z_scope.

(** ** Go's [strings] and [strconv] *)

Module GoStrings.

Definition byte (n : nat) : ascii := ascii_of_nat n.

Fixpoint of_bytes (l : list nat) : string :=
  match l with
  | [] => ""
  | n :: l' => String (byte n) (of_bytes l')
  end.

Fixpoint srev_onto (s acc : string) : string :=
  match s with
  | "" => acc
  | String a s' => srev_onto s' (String a acc)
  end.

Definition srev (s : string) : string := srev_onto s "".

(** [cut_prefix p s] is [Some rest] when [s = p ++ rest]. *)
Fixpoint cut_prefix (p s : string) : option string :=
  match p with
  | "" => Some s
  | String a p' =>
      match s with
      | "" => None
      | String b s' => if Ascii.eqb a b then cut_prefix p' s' else None
      end
  end.

Definition HasPrefix (s p : string) : bool :=
  match cut_prefix p s with Some _ => true | None => false end.

Definition TrimPrefix (s p : string) : string :=
  match cut_prefix p s with Some r => r | None => s end.

Definition HasSuffix (s p : string) : bool :=
  HasPrefix (srev s) (srev p).

Definition TrimSuffix (s p : string) : string :=
  match cut_prefix (srev p) (srev s) with
  | Some r => srev r
  | None => s
  end.

(** The runes for which [unicode.IsSpace] holds, in UTF-8: the ASCII
    ones, U+0085, U+00A0, U+1680, U+2000..U+200A, U+2028, U+2029, U+202F,
    U+205F and U+3000. *)
Definition space_runes : list string :=
  map of_bytes
    [ [9%nat]; [10%nat]; [11%nat]; [12%nat]; [13%nat]; [32%nat];
      [194; 133]%nat; [194; 160]%nat; [225; 154; 128]%nat;
      [226; 128; 128]%nat; [226; 128; 129]%nat; [226; 128; 130]%nat;
      [226; 128; 131]%nat; [226; 128; 132]%nat; [226; 128; 133]%nat;
      [226; 128; 134]%nat; [226; 128; 135]%nat; [226; 128; 136]%nat;
      [226; 128; 137]%nat; [226; 128; 138]%nat; [226; 128; 168]%nat;
      [226; 128; 169]%nat; [226; 128; 175]%nat; [226; 129; 159]%nat;
      [227; 128; 128]%nat ].

(** Drops one leading rune of [runes] from [s], if there is one. *)
Fixpoint cut_any (runes : list string) (s : string) : option string :=
  match runes with
  | [] => None
  | r :: rs =>
      match cut_prefix r s with
      | Some rest => Some rest
      | None => cut_any rs s
      end
  end.

Fixpoint trim_left (fuel : nat) (runes : list string) (s : string) : string :=
  match fuel with
  | O => s
  | S fuel' =>
      match cut_any runes s with
      | Some rest => trim_left fuel' runes rest
      | None => s
      end
  end.

(** [strings.TrimSpace]: leading white space goes first, then trailing
    white space, rune by rune. *)
Definition TrimSpace (s : string) : string :=
  let l := trim_left (String.length s) space_runes s in
  srev (trim_left (String.length l) (map srev space_runes) (srev l)).

(** [strings.Split(s, sep)] for a separator of one byte. *)
Fixpoint Split (s : string) (sep : ascii) : list string :=
  match s with
  | "" => [""]
  | String a s' =>
      if Ascii.eqb a sep then "" :: Split s' sep
      else match Split s' sep with
           | x :: xs => String a x :: xs
           | [] => [String a ""]
           end
  end.

(** [strings.Join(elems, sep)]. *)
Fixpoint Join (elems : list string) (sep : string) : string :=
  match elems with
  | [] => ""
  | [x] => x
  | x :: xs => x ++ sep ++ Join xs sep
  end.

Definition digit (a : ascii) : option Z :=
  let n := Z.of_nat (nat_of_ascii a) in
  if (48 <=? n) && (n <=? 57) then Some (n - 48) else None.

Fixpoint digits (s : string) (acc : Z) : option Z :=
  match s with
  | "" => Some acc
  | String a s' =>
      match digit a with
      | Some d => digits s' (acc * 10 + d)
      | None => None
      end
  end.

Inductive NumErr := ErrSyntax | ErrRange.

(** [strconv.Atoi] on a 64-bit platform: an optional sign, at least one
    decimal digit, nothing else; the value must fit [int]. *)
Definition Atoi (s : string) : NumErr + Z :=
  let '(neg, body) :=
    match s with
    | String a s' =>
        if Ascii.eqb a "-" then (true, s')
        else if Ascii.eqb a "+" then (false, s')
        else (false, s)
    | "" => (false, s)
    end in
  match body with
  | "" => inl ErrSyntax
  | _ =>
      match digits body 0 with
      | None => inl ErrSyntax
      | Some n =>
          let v := if neg then - n else n in
          if (- 2 ^ 63 <=? v) && (v <=? 2 ^ 63 - 1) then inr v
          else inl ErrRange
      end
  end.

(** [strings.Index]: the offset of the first occurrence of [substr] in
    [s], or -1 when there is none. *)
Fixpoint index (s substr : string) : option nat :=
  match cut_prefix substr s with
  | Some _ => Some O
  | None =>
      match s with
      | "" => None
      | String _ s' => option_map S (index s' substr)
      end
  end.

Definition Index (s substr : string) : Z :=
  match index s substr with
  | Some n => Z.of_nat n
  | None => -1
  end.

Definition Contains (s substr : string) : bool := 0 <=? Index s substr.

(** The slices [s[i:]] and [s[:j]], for offsets within [s]. *)
Fixpoint drop_bytes (n : nat) (s : string) : string :=
  match n, s with
  | S n', String _ s' => drop_bytes n' s'
  | _, _ => s
  end.

Fixpoint take_bytes (n : nat) (s : string) : string :=
  match n, s with
  | S n', String a s' => String a (take_bytes n' s')
  | _, _ => ""
  end.

Definition slice_from (s : string) (i : Z) : string := drop_bytes (Z.to_nat i) s.
Definition slice_to (s : string) (j : Z) : string := take_bytes (Z.to_nat j) s.

Definition len (s : string) : Z := Z.of_nat (String.length s).

(** [strings.SplitN(s, sep, 2)] for a separator that is not empty: [s]
    cut at the first separator, or [s] alone. *)
Definition SplitN2 (s sep : string) : list string :=
  let m := Index s sep in
  if m <? 0 then [s]
  else [slice_to s m; slice_from s (m + len sep)].

End GoStrings.

(** ** Go's [fmt.Sscanf] with the format [%d] *)

Module Fmt.
Import GoStrings.

Definition newline : string := String "010"%char "".

(** White space before the number is skipped; a newline there ends the
    scan with an error. *)
Fixpoint SkipSpace (fuel : nat) (s : string) : option string :=
  match fuel with
  | O => Some s
  | S fuel' =>
      match cut_prefix newline s with
      | Some _ => None
      | None =>
          match cut_any space_runes s with
          | Some rest => SkipSpace fuel' rest
          | None => Some s
          end
      end
  end.

Definition is_sign (a : ascii) : bool := Ascii.eqb a "+" || Ascii.eqb a "-".

Definition is_digit (a : ascii) : bool :=
  match digit a with
  | Some _ => true
  | None => false
  end.

(** The longest prefix of [s] made of bytes that [f] accepts. *)
Fixpoint accepted (f : ascii -> bool) (s : string) : string :=
  match s with
  | String a s' => if f a then String a (accepted f s') else ""
  | "" => ""
  end.

(** [fmt.Sscanf(s, "%d", &n)] with [n] an [int], on a 64-bit platform:
    the number stored in [n], or [None] when the scan fails and [n] keeps
    its value.  After the white space come an optional sign and the
    longest run of decimal digits, at least one; [strconv.ParseInt] in
    base 10 must accept them, so a number that does not fit makes the
    scan fail.  What follows the number is not looked at. *)
Definition Sscanf_d (s : string) : option Z :=
  match SkipSpace (String.length s) s with
  | None => None
  | Some s1 =>
      let '(sign, s2) :=
        match s1 with
        | String a r => if is_sign a then (String a "", r) else ("", s1)
        | "" => ("", s1)
        end in
      match accepted is_digit s2 with
      | "" => None
      | tok =>
          match Atoi (sign ++ tok) with
          | inr n => Some n
          | inl _ => None
          end
      end
  end.

End Fmt.

(** ** Go's [path/filepath] on a Unix system *)

Module Filepath.
Import GoStrings.

Definition slash : ascii := "/".

(** One step of [Clean]'s scan.  [out] holds the elements written so far,
    last one first; the first [dd] of them (the oldest) are [..] elements
    of a relative path, which a later [..] cannot remove. *)
Definition clean_step (rooted : bool) (st : list string * nat) (c : string)
  : list string * nat :=
  let '(out, dd) := st in
  if String.eqb c "" then st
  else if String.eqb c "." then st
  else if String.eqb c ".." then
    if (dd <? List.length out)%nat then (List.tl out, dd)
    else if rooted then st
    else (".." :: out, S dd)
  else (c :: out, dd).

Definition clean_elems (rooted : bool) (cs : list string) : list string :=
  rev (fst (fold_left (clean_step rooted) cs ([], O))).

Definition is_rooted (p : string) : bool :=
  match p with
  | String a _ => Ascii.eqb a slash
  | "" => false
  end.

Definition Clean (p : string) : string :=
  if String.eqb p "" then "."
  else
    let rooted := is_rooted p in
    let body := GoStrings.Join (clean_elems rooted (Split p slash)) "/" in
    let out := if rooted then "/" ++ body else body in
    if String.eqb out "" then "." else out.

(** [filepath.Join]: empty leading elements are skipped, the rest is
    joined with a separator and cleaned; no element gives the empty
    string. *)
Fixpoint Join (elem : list string) : string :=
  match elem with
  | [] => ""
  | e :: rest =>
      if String.eqb e "" then Join rest
      else Clean (GoStrings.Join elem "/")
  end.

(** The text of [p] up to and including its last separator. *)
Fixpoint upto_last_slash (p : string) : string :=
  match p with
  | "" => ""
  | String a p' =>
      let r := upto_last_slash p' in
      if String.eqb r "" then
        (if Ascii.eqb a slash then String a "" else "")
      else String a r
  end.

Definition Dir (p : string) : string := Clean (upto_last_slash p).

End Filepath.

(** ** Errors and the calls a service makes to its environment *)

Inductive errno :=
  ENOENT | EEXIST | EISDIR | ENOTDIR | ENOTEMPTY | ELOOP | EINVAL | EIO | EACCES | EPERM.

(** Go [error] values: a failed system call, a command that did not exit
    with status 0, a [strconv] error, a template error, and [fmt.Errorf]
    with its format and its arguments: strings only ([Errorf]), one error
    ([Errorw]), two errors ([Errorw2]), strings and then an error
    ([Errorsw]). *)
Inductive error :=
| PathError (e : errno)
| ExitError
| NumError (e : GoStrings.NumErr)
| TemplateError
| Errorf (format : string) (args : list string)
| Errorw (format : string) (e : error)
| Errorw2 (format : string) (e1 e2 : error)
| Errorsw (format : string) (args : list string) (e : error).

Inductive result (A : Type) : Type :=
| Ok (a : A)
| Err (e : error).
Arguments Ok {A} a.
Arguments Err {A} e.

Record FileInfo := { IsDir : bool; IsSymlink : bool }.

(** An entry of [os.ReadDir]: its name, whether it is a directory, and the
    modification time that [entry.Info()] reports, or its error. *)
Record DirEntry := { Name : string; EntryIsDir : bool; Info : result Z }.

(** The environment's token for a file opened by [os.Create]. *)
Definition handle := list string.

Inductive op :=
| ReadFile (name : string)
| WriteFile (name data : string)
| Create (name : string)
| Fwrite (f : handle) (data : string)
| Remove (name : string)
| RemoveAll (path : string)
| Symlink (oldname newname : string)
| MkdirAll (path : string)
| Stat (name : string)
| Lstat (name : string)
| ReadDir (name : string)
| MkdirTemp (dir pattern : string)
| Now
| Exec (name : string) (args : list string).

Definition reply (o : op) : Type :=
  match o with
  | ReadFile _ => result string
  | Create _ => result handle
  | WriteFile _ _ | Fwrite _ _ | Remove _ | RemoveAll _
  | Symlink _ _ | MkdirAll _ => option error
  | Stat _ | Lstat _ => result FileInfo
  | ReadDir _ => result (list DirEntry)
  | MkdirTemp _ _ => result string
  | Now => Z
  | Exec _ _ => (string * option error)%type
  end.

Definition is_Ok {A} (r : result A) : bool :=
  match r with Ok _ => true | Err _ => false end.

Definition is_nil (e : option error) : bool :=
  match e with None => true | Some _ => false end.

(** Whether the call went through. *)
Definition succeeded (o : op) : reply o -> bool :=
  match o return reply o -> bool with
  | ReadFile _ => is_Ok
  | Create _ => is_Ok
  | WriteFile _ _ => is_nil
  | Fwrite _ _ => is_nil
  | Remove _ => is_nil
  | RemoveAll _ => is_nil
  | Symlink _ _ => is_nil
  | MkdirAll _ => is_nil
  | Stat _ => is_Ok
  | Lstat _ => is_Ok
  | ReadDir _ => is_Ok
  | MkdirTemp _ _ => is_Ok
  | Now => fun _ => true
  | Exec _ _ => fun r => is_nil (snd r)
  end.

Global Instance errno_eq_dec : EqDecision errno.
Proof. solve_decision. Defined.

Global Instance op_eq_dec : EqDecision op.
Proof. solve_decision. Defined.

(** A program: it returns, or makes a call and goes on with the answer. *)
Inductive prog (R : Type) : Type :=
| Ret (r : R)
| Vis (o : op) (k : reply o -> prog R).
Arguments Ret {R} r.
Arguments Vis {R} o k.

Fixpoint bind {A B : Type} (p : prog A) (f : A -> prog B) : prog B :=
  match p with
  | Ret a => f a
  | Vis o k => Vis o (fun x => bind (k x) f)
  end.

(** In programs, [x ← p; k] is [bind p (fun x => k)], with [p] read first. *)
Declare Scope prog_scope.
Delimit Scope prog_scope with prog.
Bind Scope prog_scope with prog.
Notation "x ← y ; z" := (bind y (fun x => z))
  (at level 20, y at level 100, z at level 200, only parsing) : prog_scope.
Open Scope prog_scope.

Definition call (o : op) : prog (reply o) := Vis o Ret.

(** One recorded call. *)
Record event := Event { ev_op : op; ev_ok : bool }.

Global Instance event_eq_dec : EqDecision event.
Proof. solve_decision. Defined.

(** An environment with states [S] answers every call. *)
Definition handler (S : Type) : Type := forall o : op, S -> reply o * S.

Fixpoint run {S R : Type} (h : handler S) (p : prog R) (s : S)
  : R * S * list event :=
  match p with
  | Ret r => (r, s, [])
  | Vis o k =>
      let '(x, s1) := h o s in
      let '(r, s2, tr) := run h (k x) s1 in
      (r, s2, Event o (succeeded o x) :: tr)
  end.

Definition value_of {S R} (x : R * S * list event) : R := fst (fst x).
Definition state_of {S R} (x : R * S * list event) : S := snd (fst x).
Definition trace_of {S R} (x : R * S * list event) : list event := snd x.

(** The package-level functions of [os] that the services use, and the
    write through an open file, as calls. *)
Definition os_ReadFile (name : string) : prog (result string) :=
  call (ReadFile name).
Definition os_WriteFile (name data : string) : prog (option error) :=
  call (WriteFile name data).
Definition os_Create (name : string) : prog (result handle) :=
  call (Create name).
Definition file_Write (f : handle) (data : string) : prog (option error) :=
  call (Fwrite f data).
Definition os_Remove (name : string) : prog (option error) :=
  call (Remove name).
Definition os_RemoveAll (path : string) : prog (option error) :=
  call (RemoveAll path).
Definition os_Symlink (oldname newname : string) : prog (option error) :=
  call (Symlink oldname newname).
Definition os_MkdirAll (path : string) : prog (option error) :=
  call (MkdirAll path).
Definition os_Stat (name : string) : prog (result FileInfo) :=
  call (Stat name).
Definition os_Lstat (name : string) : prog (result FileInfo) :=
  call (Lstat name).
Definition os_ReadDir (name : string) : prog (result (list DirEntry)) :=
  call (ReadDir name).
Definition os_MkdirTemp (dir pattern : string) : prog (result string) :=
  call (MkdirTemp dir pattern).
Definition time_Now_Unix : prog Z := call Now.

(** [executor.ExecuteSimple]: run the command, wait, return its combined
    output and its error. *)
Definition ExecuteSimple (name : string) (args : list string)
  : prog (string * option error) := call (Exec name args).

(** [os.IsNotExist]. *)
Definition os_IsNotExist (e : error) : bool :=
  match e with PathError ENOENT => true | _ => false end.

(** ** An environment with a file tree

    The tree maps a path, given by its elements below the root, to a
    regular file with its text, a symbolic link with its target, or a
    directory.  In [handle_op] a call fails only for the shape of the
    tree (missing, already there, a directory, not empty, too many
    links); [handle_op_denying] adds the calls that the system turns
    down for another reason (permissions, attributes, a file system that
    is read-only or full).  A link is followed in last position only:
    the tree is the picture of a file system for the paths whose
    directories are directories of the tree and not links to one, and
    the properties that depend on it say so of the directories they use.
    Relative paths are taken from the root.  Calls that the tree cannot
    answer (commands, directory listings with their times, temporary
    names, the clock) are answered by [ext], which sees how many such
    calls came before and the tree. *)

Module FS.

Inductive node :=
| File (body : string)
| Link (target : string)
| Dir.

Global Instance node_eq_dec : EqDecision node.
Proof. solve_decision. Defined.

Abbreviation tree := (gmap (list string) node).

Definition key (name : string) : list string :=
  Filepath.clean_elems true (GoStrings.Split name Filepath.slash).

Definition parent (k : list string) : list string := removelast k.

(** The root is a directory, always. *)
Definition node_at (t : tree) (k : list string) : option node :=
  match k with
  | [] => Some Dir
  | _ => t !! k
  end.

Definition is_dir (t : tree) (k : list string) : bool :=
  match node_at t k with
  | Some Dir => true
  | _ => false
  end.

Definition has_children (t : tree) (k : list string) : bool :=
  negb (bool_decide (map_Forall (fun q (_ : node) => q = [] \/ parent q <> k) t)).

(** The error for a path that leads to nothing, as the walk from the
    root finds it: "not a directory" when the first element on the way
    that is not a directory is a regular file, "no such file"
    otherwise. *)
Fixpoint missing_from (t : tree) (done rest : list string) : errno :=
  match rest with
  | [] => ENOENT
  | c :: rest' =>
      match rest' with
      | [] => ENOENT
      | _ :: _ =>
          match node_at t (done ++ [c]) with
          | Some Dir => missing_from t (done ++ [c]) rest'
          | Some (File _) => ENOTDIR
          | _ => ENOENT
          end
      end
  end.

Definition missing (t : tree) (k : list string) : error :=
  PathError (missing_from t [] k).

Definition max_links : nat := 40.

(** Follows links in last position; [None] after too many. *)
Fixpoint resolve (t : tree) (fuel : nat) (k : list string) : option (list string) :=
  match node_at t k with
  | Some (Link target) =>
      match fuel with
      | O => None
      | S fuel' => resolve t fuel' (key target)
      end
  | _ => Some k
  end.

Definition stat (t : tree) (k : list string) : result FileInfo :=
  match resolve t max_links k with
  | None => Err (PathError ELOOP)
  | Some q =>
      match node_at t q with
      | Some Dir => Ok {| IsDir := true; IsSymlink := false |}
      | Some _ => Ok {| IsDir := false; IsSymlink := false |}
      | None => Err (missing t q)
      end
  end.

Definition lstat (t : tree) (k : list string) : result FileInfo :=
  match node_at t k with
  | Some Dir => Ok {| IsDir := true; IsSymlink := false |}
  | Some (Link _) => Ok {| IsDir := false; IsSymlink := true |}
  | Some (File _) => Ok {| IsDir := false; IsSymlink := false |}
  | None => Err (missing t k)
  end.

Definition read_file (t : tree) (k : list string) : result string :=
  match resolve t max_links k with
  | None => Err (PathError ELOOP)
  | Some q =>
      match node_at t q with
      | Some (File body) => Ok body
      | Some _ => Err (PathError EISDIR)
      | None => Err (missing t q)
      end
  end.

(** Open for writing, create if missing, truncate: the file that [k]
    leads to, and the tree with that file holding [data]. *)
Definition open_trunc (t : tree) (k : list string) (data : string)
  : result (list string) * tree :=
  match resolve t max_links k with
  | None => (Err (PathError ELOOP), t)
  | Some q =>
      match node_at t q with
      | Some (File _) => (Ok q, <[q := File data]> t)
      | Some _ => (Err (PathError EISDIR), t)
      | None =>
          if is_dir t (parent q) then (Ok q, <[q := File data]> t)
          else (Err (missing t q), t)
      end
  end.

Definition write_file (t : tree) (k : list string) (data : string)
  : option error * tree :=
  match open_trunc t k data with
  | (Ok _, t') => (None, t')
  | (Err e, t') => (Some e, t')
  end.

Definition create (t : tree) (k : list string) : result handle * tree :=
  open_trunc t k "".

(** Writing through an open file appends to it; a file unlinked in the
    meantime takes the bytes with it. *)
Definition fwrite (t : tree) (f : handle) (data : string) : option error * tree :=
  match node_at t f with
  | Some (File body) => (None, <[f := File (body ++ data)]> t)
  | _ => (None, t)
  end.

Definition remove (t : tree) (k : list string) : option error * tree :=
  match k with
  | [] => (Some (PathError EINVAL), t)
  | _ =>
      match t !! k with
      | None => (Some (missing t k), t)
      | Some Dir =>
          if has_children t k then (Some (PathError ENOTEMPTY), t)
          else (None, delete k t)
      | Some _ => (None, delete k t)
      end
  end.

Definition below (k q : list string) : bool :=
  bool_decide (k `prefix_of` q).

Definition remove_all (t : tree) (k : list string) : option error * tree :=
  match k with
  | [] => (Some (PathError EINVAL), t)
  | _ => (None, filter (fun kv => below k (fst kv) = false) t)
  end.

Definition symlink (t : tree) (oldname : string) (k : list string)
  : option error * tree :=
  match node_at t k with
  | Some _ => (Some (PathError EEXIST), t)
  | None =>
      if is_dir t (parent k) then (None, <[k := Link oldname]> t)
      else (Some (missing t k), t)
  end.

Definition mkdir (t : tree) (k : list string) : option error * tree :=
  match node_at t k with
  | Some _ => (Some (PathError EEXIST), t)
  | None =>
      if is_dir t (parent k) then (None, <[k := Dir]> t)
      else (Some (missing t k), t)
  end.

(** [os.MkdirAll], on the path written last element first: a path that
    [os.Stat] finds is fine when it is a directory and an error
    otherwise; else the parent is made first, then the directory. *)
Fixpoint mkdir_all (t : tree) (rk : list string) : option error * tree :=
  match stat t (rev rk) with
  | Ok info =>
      if IsDir info then (None, t) else (Some (PathError ENOTDIR), t)
  | Err _ =>
      match rk with
      | [] => (None, t)
      | _ :: rk' =>
          match mkdir_all t rk' with
          | (Some e, t') => (Some e, t')
          | (None, t') => mkdir t' (rev rk)
          end
      end
  end.

Record world := World { files : tree; clock : nat }.

Definition outside : Type := nat -> tree -> forall o : op, reply o.

Definition on_files {A} (w : world) (r : A * tree) : A * world :=
  (fst r, World (snd r) (clock w)).

Definition ask (ext : outside) (w : world) (o : op) : reply o * world :=
  (ext (clock w) (files w) o, World (files w) (S (clock w))).

Definition handle_op (ext : outside) : handler world :=
  fun o w =>
    match o return reply o * world with
    | ReadFile name => (read_file (files w) (key name), w)
    | WriteFile name data => on_files w (write_file (files w) (key name) data)
    | Create name => on_files w (create (files w) (key name))
    | Fwrite f data => on_files w (fwrite (files w) f data)
    | Remove name => on_files w (remove (files w) (key name))
    | RemoveAll path => on_files w (remove_all (files w) (key path))
    | Symlink oldname newname => on_files w (symlink (files w) oldname (key newname))
    | MkdirAll path => on_files w (mkdir_all (files w) (rev (key path)))
    | Stat name => (stat (files w) (key name), w)
    | Lstat name => (lstat (files w) (key name), w)
    | ReadDir name => ask ext w (ReadDir name)
    | MkdirTemp dir pattern => ask ext w (MkdirTemp dir pattern)
    | Now => ask ext w Now
    | Exec name args => ask ext w (Exec name args)
    end.

(** The answer to a call that the system turns down with the error [e],
    for the calls that the tree answers. *)
Definition turned_down (e : errno) (o : op) : option (reply o) :=
  match o return option (reply o) with
  | ReadFile _ => Some (Err (PathError e))
  | Create _ => Some (Err (PathError e))
  | WriteFile _ _ | Fwrite _ _ | Remove _ | RemoveAll _
  | Symlink _ _ | MkdirAll _ => Some (Some (PathError e))
  | Stat _ | Lstat _ => Some (Err (PathError e))
  | ReadDir _ | MkdirTemp _ _ | Now | Exec _ _ => None
  end.

(** The file tree in a system that turns some calls down: [deny] tells,
    for the world as it is, which ones and with what error.  A call that
    is turned down changes nothing. *)
Definition handle_op_denying (deny : world -> op -> option errno) (ext : outside)
  : handler world :=
  fun o w =>
    match deny w o with
    | Some e =>
        match turned_down e o with
        | Some x => (x, w)
        | None => handle_op ext o w
        end
    | None => handle_op ext o w
    end.

End FS.

(** ** [internal/model] *)

Module model.

Definition NginxConfDir : string := "/etc/nginx".
Definition NginxSbinPath : string := "/usr/sbin/nginx".

Record SiteConfig := {
  Domain : string;
  Type_ : string;          (* proxy, static, lb, redirect *)
  BackendIP : string;
  BackendPort : Z;
  Backends : list string;
  TargetURL : string
}.

Record StreamConfig := {
  StreamName : string;     (* the field [Name] *)
  ListenPort : Z;
  Target : string
}.

End model.

(** The embedded template files are not part of the sources at hand, so
    the services take them as a parameter: whether a template file parses,
    and what executing it on a configuration writes before it returns its
    error, if any. *)
Record Templates := {
  ParseFS : string -> option error;
  ExecuteSite : string -> model.SiteConfig -> string * option error;
  ExecuteStream : model.StreamConfig -> string * option error
}.

(** ** [internal/service]: sites *)

Module SiteService.
Import model.

Section WithTemplates.
Variable T : Templates.

Definition ConfDir : string := NginxConfDir.

Definition availablePath (domain : string) : string :=
  Filepath.Join [ConfDir; "sites-available"; domain].

Definition enabledPath (domain : string) : string :=
  Filepath.Join [ConfDir; "sites-enabled"; domain].

(** The [switch] on [config.Type]: the template to use; a static site
    gets its content directory here, whatever [os.MkdirAll] returns. *)
Definition pickTemplate (config : SiteConfig) : prog (result string) :=
  let t := Type_ config in
  if String.eqb t "proxy" then Ret (Ok "proxy.tmpl")
  else if String.eqb t "static" then
    _ ← os_MkdirAll (Filepath.Join ["/var/www/html"; Domain config]);
    Ret (Ok "static.tmpl")
  else if String.eqb t "lb" then Ret (Ok "lb.tmpl")
  else if String.eqb t "redirect" then Ret (Ok "redirect.tmpl")
  else Ret (Err (Errorf "不支持的站点类型: %s" [t])).

Definition CreateSite (config : SiteConfig) : prog (option error) :=
  picked ← pickTemplate config;
  match picked with
  | Err e => Ret (Some e)
  | Ok tmplName =>
      match ParseFS T ("templates/" ++ tmplName) with
      | Some e => Ret (Some e)
      | None =>
          let availablePath := availablePath (Domain config) in
          created ← os_Create availablePath;
          match created with
          | Err e => Ret (Some e)
          | Ok f =>
              let '(text, failed) := ExecuteSite T tmplName config in
              written ← file_Write f text;
              match written, failed with
              | Some e, _ => Ret (Some e)
              | None, Some e => Ret (Some e)
              | None, None =>
                  (* enable the site by default; drop a link already there *)
                  let enabledPath := enabledPath (Domain config) in
                  _ ← os_Remove enabledPath;
                  os_Symlink availablePath enabledPath
              end
          end
      end
  end.

Definition DeleteSite (domain : string) : prog (option error) :=
  let enabledPath := enabledPath domain in
  let availablePath := availablePath domain in
  _ ← os_Remove enabledPath;
  os_Remove availablePath.

Definition ReadSiteRaw (domain : string) : prog (result string) :=
  os_ReadFile (availablePath domain).

Definition WriteSiteRaw (domain content : string) : prog (option error) :=
  os_WriteFile (availablePath domain) content.

Definition RestoreSiteRaw (domain content : string) : prog (option error) :=
  let availablePath := availablePath domain in
  made ← os_MkdirAll (Filepath.Dir availablePath);
  match made with
  | Some e => Ret (Some e)
  | None =>
      written ← os_WriteFile availablePath content;
      match written with
      | Some e => Ret (Some e)
      | None =>
          let enabledPath := enabledPath domain in
          _ ← os_Remove enabledPath;
          os_Symlink availablePath enabledPath
      end
  end.

End WithTemplates.

(** *** Reading a site back: [GetSite] and its parsers *)

Definition line_feed : ascii := "010"%char.

(** The loop of [extractSiteType]: the first line that is a comment with
    a [site_type:] marker gives the type. *)
Fixpoint firstSiteType (lines : list string) : string :=
  match lines with
  | [] => ""
  | line :: rest =>
      let trim := GoStrings.TrimSpace line in
      if GoStrings.HasPrefix trim "#" && GoStrings.Contains trim "site_type:" then
        match GoStrings.SplitN2 trim "site_type:" with
        | [_; after] => GoStrings.TrimSpace after
        | _ => firstSiteType rest
        end
      else firstSiteType rest
  end.

Definition extractSiteType (content : string) : string :=
  firstSiteType (GoStrings.Split content line_feed).

Definition withType (config : SiteConfig) (t : string) : SiteConfig :=
  {| Domain := Domain config; Type_ := t; BackendIP := BackendIP config;
     BackendPort := BackendPort config; Backends := Backends config;
     TargetURL := TargetURL config |}.

Definition withBackends (config : SiteConfig) (l : list string) : SiteConfig :=
  {| Domain := Domain config; Type_ := Type_ config; BackendIP := BackendIP config;
     BackendPort := BackendPort config; Backends := l;
     TargetURL := TargetURL config |}.

Definition withBackendIP (config : SiteConfig) (ip : string) : SiteConfig :=
  {| Domain := Domain config; Type_ := Type_ config; BackendIP := ip;
     BackendPort := BackendPort config; Backends := Backends config;
     TargetURL := TargetURL config |}.

Definition withBackendPort (config : SiteConfig) (port : Z) : SiteConfig :=
  {| Domain := Domain config; Type_ := Type_ config; BackendIP := BackendIP config;
     BackendPort := port; Backends := Backends config;
     TargetURL := TargetURL config |}.

Definition withTargetURL (config : SiteConfig) (url : string) : SiteConfig :=
  {| Domain := Domain config; Type_ := Type_ config; BackendIP := BackendIP config;
     BackendPort := BackendPort config; Backends := Backends config;
     TargetURL := url |}.

(** The loop of [parseLoadBalancers]: the address of each line
    [server ADDRESS;] is appended, unless it is empty. *)
Fixpoint serverLines (lines : list string) (backends : list string) : list string :=
  match lines with
  | [] => backends
  | line :: rest =>
      let trim := GoStrings.TrimSpace line in
      if GoStrings.HasPrefix trim "server " && GoStrings.HasSuffix trim ";" then
        let addr := GoStrings.TrimSuffix (GoStrings.TrimPrefix trim "server ") ";" in
        if negb (String.eqb addr "")
        then serverLines rest (backends ++ [addr])%list
        else serverLines rest backends
      else serverLines rest backends
  end.

Definition parseLoadBalancers (content : string) (config : SiteConfig) : SiteConfig :=
  withBackends config (serverLines (GoStrings.Split content line_feed) []).

Definition parseProxyBackend (content : string) (config : SiteConfig) : SiteConfig :=
  let idx := GoStrings.Index content "proxy_pass http://" in
  if idx =? -1 then config
  else
    let part := GoStrings.slice_from content (idx + GoStrings.len "proxy_pass http://") in
    let endIdx := GoStrings.Index part ";" in
    if endIdx =? -1 then config
    else
      let addr := GoStrings.slice_to part endIdx in
      let parts := GoStrings.Split addr ":" in
      let config :=
        match parts with
        | ip :: _ => withBackendIP config ip
        | [] => config
        end in
      match parts with
      | _ :: port :: _ =>
          match Fmt.Sscanf_d port with
          | Some n => withBackendPort config n
          | None => config
          end
      | _ => config
      end.

Definition parseRedirectTarget (content : string) (config : SiteConfig) : SiteConfig :=
  let idx := GoStrings.Index content "return 301 " in
  if idx =? -1 then config
  else
    let part := GoStrings.slice_from content (idx + GoStrings.len "return 301 ") in
    let endIdx := GoStrings.Index part ";" in
    if endIdx =? -1 then config
    else withTargetURL config (GoStrings.slice_to part endIdx).

(** What [GetSite] makes of the text of a site: the type that a
    [site_type:] marker names, or else the type that the directives of the
    text point to, with the fields that go with the type. *)
Definition siteFrom (domain content : string) : SiteConfig :=
  let config :=
    {| Domain := domain; Type_ := ""; BackendIP := ""; BackendPort := 0;
       Backends := []; TargetURL := "" |} in
  let t := extractSiteType content in
  if negb (String.eqb t "") then
    let config := withType config t in
    if String.eqb t "lb" then parseLoadBalancers content config
    else if String.eqb t "proxy" then parseProxyBackend content config
    else if String.eqb t "redirect" then parseRedirectTarget content config
    else withType config "static"
  else if GoStrings.Contains content "proxy_pass" then
    if GoStrings.Contains content "upstream"
    then parseLoadBalancers content (withType config "lb")
    else parseProxyBackend content (withType config "proxy")
  else if GoStrings.Contains content "return 301"
  then parseRedirectTarget content (withType config "redirect")
  else withType config "static".

Definition GetSite (domain : string) : prog (result SiteConfig) :=
  content ← ReadSiteRaw domain;
  match content with
  | Err err => Ret (Err err)
  | Ok content => Ret (Ok (siteFrom domain content))
  end.

Definition ListSites : prog (result (list string)) :=
  files ← os_ReadDir (Filepath.Join [ConfDir; "sites-available"]);
  match files with
  | Err err => Ret (Err err)
  | Ok files => Ret (Ok (map Name files))
  end.

(** The loop of [ListSiteConfigs]. *)
Fixpoint getSites (domains : list string) (configs : list SiteConfig)
  : prog (result (list SiteConfig)) :=
  match domains with
  | [] => Ret (Ok configs)
  | domain :: rest =>
      cfg ← GetSite domain;
      match cfg with
      | Err err => Ret (Err err)
      | Ok cfg => getSites rest (configs ++ [cfg])%list
      end
  end.

Definition ListSiteConfigs : prog (result (list SiteConfig)) :=
  domains ← ListSites;
  match domains with
  | Err err => Ret (Err err)
  | Ok domains => getSites domains []
  end.

End SiteService.

(** ** [internal/service]: streams *)

Module StreamService.
Import model GoStrings.

Section WithTemplates.
Variable T : Templates.

Definition ConfDir : string := NginxConfDir.

Definition availablePath (name : string) : string :=
  Filepath.Join [ConfDir; "streams-available"; name].

Definition enabledPath (name : string) : string :=
  Filepath.Join [ConfDir; "streams-enabled"; name].

Definition CreateStream (config : StreamConfig) : prog (option error) :=
  match ParseFS T "templates/stream.tmpl" with
  | Some e => Ret (Some e)
  | None =>
      let availablePath := availablePath (StreamName config) in
      created ← os_Create availablePath;
      match created with
      | Err e => Ret (Some e)
      | Ok f =>
          let '(text, failed) := ExecuteStream T config in
          written ← file_Write f text;
          match written, failed with
          | Some e, _ => Ret (Some e)
          | None, Some e => Ret (Some e)
          | None, None =>
              let enabledPath := enabledPath (StreamName config) in
              _ ← os_Remove enabledPath;
              os_Symlink availablePath enabledPath
          end
      end
  end.

Definition DeleteStream (name : string) : prog (option error) :=
  let enabledPath := enabledPath name in
  let availablePath := availablePath name in
  _ ← os_Remove enabledPath;
  os_Remove availablePath.

(** The loop of [GetStream] over the lines of the file: [listen] and
    [server] lines set the port and the target, the last one wins; a
    port that is not a number ends the scan with an error. *)
Fixpoint scanLines (lines : list string) (cfg : StreamConfig) : result StreamConfig :=
  match lines with
  | [] => Ok cfg
  | line :: rest =>
      let line := TrimSpace line in
      if HasPrefix line "listen " then
        let value := TrimSuffix (TrimPrefix line "listen ") ";" in
        match Atoi value with
        | inl e => Err (Errorw "解析端口失败: %w" (NumError e))
        | inr port =>
            scanLines rest
              {| StreamName := StreamName cfg; ListenPort := port; Target := Target cfg |}
        end
      else if HasPrefix line "server " && HasSuffix line ";" then
        let value := TrimSuffix (TrimPrefix line "server ") ";" in
        scanLines rest
          {| StreamName := StreamName cfg; ListenPort := ListenPort cfg; Target := value |}
      else scanLines rest cfg
  end.

Definition GetStream (name : string) : prog (result StreamConfig) :=
  content ← os_ReadFile (availablePath name);
  match content with
  | Err e => Ret (Err e)
  | Ok content =>
      let cfg := {| StreamName := name; ListenPort := 0; Target := "" |} in
      Ret (scanLines (Split content "010"%char) cfg)
  end.

Definition ReadStreamRaw (name : string) : prog (result string) :=
  os_ReadFile (availablePath name).

Definition WriteStreamRaw (name content : string) : prog (option error) :=
  let path := availablePath name in
  made ← os_MkdirAll (Filepath.Dir path);
  match made with
  | Some e => Ret (Some e)
  | None =>
      written ← os_WriteFile path content;
      match written with
      | Some e => Ret (Some e)
      | None =>
          let enabled := enabledPath name in
          info ← os_Lstat enabled;
          match info with
          | Ok info =>
              if negb (IsSymlink info) then
                _ ← os_Remove enabled;
                os_Symlink path enabled
              else Ret None
          | Err e =>
              if os_IsNotExist e then os_Symlink path enabled
              else Ret (Some e)
          end
      end
  end.

End WithTemplates.

Definition ListStreams : prog (result (list string)) :=
  files ← os_ReadDir (Filepath.Join [ConfDir; "streams-available"]);
  match files with
  | Err err => Ret (Err err)
  | Ok files => Ret (Ok (map Name files))
  end.

(** The loop of [ListStreamConfigs]. *)
Fixpoint getStreams (names : list string) (configs : list StreamConfig)
  : prog (result (list StreamConfig)) :=
  match names with
  | [] => Ret (Ok configs)
  | name :: rest =>
      cfg ← GetStream name;
      match cfg with
      | Err err => Ret (Err err)
      | Ok cfg => getStreams rest (configs ++ [cfg])%list
      end
  end.

Definition ListStreamConfigs : prog (result (list StreamConfig)) :=
  names ← ListStreams;
  match names with
  | Err err => Ret (Err err)
  | Ok names => getStreams names []
  end.

End StreamService.

(** ** [internal/service]: the system service *)

Module SystemService.
Import model GoStrings.

(** Test the configuration, then reload. *)
Definition Reload : prog (option error) :=
  out ← ExecuteSimple NginxSbinPath ["-t"];
  match snd out with
  | Some err => Ret (Some (Errorw "Nginx 配置测试失败: %v" err))
  | None =>
      out ← ExecuteSimple "systemctl" ["reload"; "nginx"];
      Ret (snd out)
  end.

Definition dirExists (path : string) : prog bool :=
  if String.eqb path "" then Ret false
  else
    info ← os_Stat path;
    match info with
    | Err _ => Ret false
    | Ok info => Ret (IsDir info)
    end.

Record copyTask := { src : string; dest : string }.

(** Go's [append] of one element. *)
Definition append {A} (l : list A) (x : A) : list A := (l ++ [x])%list.

(** The loop of [applyExtractedArchive] over its tasks. *)
Fixpoint copyAll (tasks : list copyTask) : prog (option error) :=
  match tasks with
  | [] => Ret None
  | task :: rest =>
      made ← os_MkdirAll (dest task);
      match made with
      | Some err => Ret (Some (Errorsw "创建目录失败 %s: %w" [dest task] err))
      | None =>
          let srcArg := Filepath.Clean (src task) ++ "/" ++ "." in
          let destArg := Filepath.Clean (dest task) ++ "/" in
          out ← ExecuteSimple "cp" ["-a"; srcArg; destArg];
          match snd out with
          | Some err =>
              Ret (Some (Errorsw "复制 %s 至 %s 失败: %w" [src task; dest task] err))
          | None => copyAll rest
          end
      end
  end.

Definition applyExtractedArchive (root : string) : prog (option error) :=
  let tasks : list copyTask := [] in
  let etcDir := Filepath.Join [root; "etc"; "nginx"] in
  let varDir := Filepath.Join [root; "var"; "www"; "html"] in
  let altNginxDir := Filepath.Join [root; "nginx"] in
  hasEtc ← dirExists etcDir;
  let tasks :=
    if hasEtc then append tasks {| src := etcDir; dest := NginxConfDir |} else tasks in
  hasVar ← dirExists varDir;
  let tasks :=
    if hasVar then append tasks {| src := varDir; dest := "/var/www/html" |} else tasks in
  hasAlt ← dirExists altNginxDir;
  useAlt ← (if hasAlt then hasEtc' ← dirExists etcDir; Ret (negb hasEtc')
            else Ret false);
  let tasks :=
    if useAlt then append tasks {| src := altNginxDir; dest := NginxConfDir |} else tasks in
  let tasks :=
    if (List.length tasks =? 0)%nat
    then append tasks {| src := root; dest := NginxConfDir |} else tasks in
  copyAll tasks.

(** The zero [time.Time], in seconds from the Unix epoch. *)
Definition zeroTime : Z := -62135596800.

(** The body of the loop of [selectLatestBackup]. *)
Definition considerEntry (dir : string) (st : string * Z) (entry : DirEntry)
  : string * Z :=
  let '(selected, latestTime) := st in
  if EntryIsDir entry then st
  else
    let name := Name entry in
    if negb (HasSuffix name ".tar.gz") then st
    else
      match Info entry with
      | Err _ => st
      | Ok modTime =>
          if String.eqb selected "" || (latestTime <? modTime)
          then (Filepath.Join [dir; name], modTime)
          else st
      end.

Definition latestOf (dir : string) (entries : list DirEntry) : result string :=
  let '(selected, _) := fold_left (considerEntry dir) entries ("", zeroTime) in
  if String.eqb selected ""
  then Err (Errorf "未发现可用的备份文件 (目录: %s)" [dir])
  else Ok selected.

Definition selectLatestBackup (dir : string) : prog (result string) :=
  entries ← os_ReadDir dir;
  match entries with
  | Err err => Ret (Err (Errorw "读取备份目录失败: %w" err))
  | Ok entries => Ret (latestOf dir entries)
  end.

Definition restoreFromBackup (backupFile : string) : prog (option error) :=
  if String.eqb (TrimSpace backupFile) "" then
    Ret (Some (Errorf "未找到可用的原始备份文件" []))
  else
    info ← os_Stat backupFile;
    match info with
    | Err err => Ret (Some err)
    | Ok _ =>
        _ ← ExecuteSimple "systemctl" ["stop"; "nginx"];
        _ ← ExecuteSimple "pkill" ["-9"; "nginx"];
        out ← ExecuteSimple "tar" ["-xzf"; backupFile; "-C"; "/"];
        match snd out with
        | Some err => Ret (Some err)
        | None =>
            out ← ExecuteSimple "systemctl" ["start"; "nginx"];
            match snd out with
            | Some err => Ret (Some err)
            | None => Ret None
            end
        end
    end.

(** What [Restore] does when a stage after the snapshot fails with
    [err]: restore from the snapshot and report [err], with the error
    of that restore when it fails too.  [what] is the text that
    starts both messages. *)
Definition rollBack (currentBackup what : string) (err : error) : prog (option error) :=
  rollbackErr ← restoreFromBackup currentBackup;
  match rollbackErr with
  | Some rollbackErr =>
      Ret (Some (Errorw2 (what ++ ": %v；尝试恢复原配置时出错: %v") err rollbackErr))
  | None => Ret (Some (Errorw (what ++ ": %w") err))
  end.

(** [Restore] from the extraction on; the temporary directory exists. *)
Definition restoreInto (cleanPath currentBackup tmpDir : string) : prog (option error) :=
  out ← ExecuteSimple "tar" ["-xzf"; cleanPath; "-C"; tmpDir];
  match snd out with
  | Some err => rollBack currentBackup "解压备份失败" err
  | None =>
      err ← applyExtractedArchive tmpDir;
      match err with
      | Some err => rollBack currentBackup "恢复失败" err
      | None =>
          out ← ExecuteSimple NginxSbinPath ["-t"];
          match snd out with
          | Some err => rollBack currentBackup "配置验证失败" err
          | None =>
              out ← ExecuteSimple "systemctl" ["start"; "nginx"];
              match snd out with
              | Some err => rollBack currentBackup "启动 Nginx 失败" err
              | None => Ret None
              end
          end
      end
  end.

(** [Restore] from the stop of the service on; the snapshot exists.  The
    deferred [os.RemoveAll(tmpDir)] runs when the rest has returned. *)
Definition restoreWithSnapshot (cleanPath currentBackup : string) : prog (option error) :=
  out ← ExecuteSimple "systemctl" ["stop"; "nginx"];
  _ ← (if is_nil (snd out) then Ret ("", None)
       else ExecuteSimple "pkill" ["-9"; "nginx"]);
  tmpDir ← os_MkdirTemp "" "nginx_restore";
  match tmpDir with
  | Err err =>
      _ ← restoreFromBackup currentBackup;
      Ret (Some (Errorw "创建临时目录失败: %w" err))
  | Ok tmpDir =>
      r ← restoreInto cleanPath currentBackup tmpDir;
      _ ← os_RemoveAll tmpDir;
      Ret r
  end.

Definition verifyArgs (cleanPath : string) : list string := ["-tzf"; cleanPath].

Definition snapshotArgs (currentBackup : string) : list string :=
  ["-czf"; currentBackup; "-C"; "/"; "etc/nginx"; "var/www/html"].

(** [Restore] from the check of the archive on.  The deferred
    [os.Remove(currentBackup)] runs when the rest has returned. *)
Definition restoreArchive (cleanPath : string) : prog (option error) :=
  out ← ExecuteSimple "tar" (verifyArgs cleanPath);
  match snd out with
  | Some err => Ret (Some (Errorw "备份文件校验失败: %w" err))
  | None =>
      now ← time_Now_Unix;
      let currentBackup := "/tmp/nginx_pre_restore_" ++ pretty now ++ ".tar.gz" in
      out ← ExecuteSimple "tar" (snapshotArgs currentBackup);
      match snd out with
      | Some err => Ret (Some (Errorw "当前配置备份失败: %w" err))
      | None =>
          r ← restoreWithSnapshot cleanPath currentBackup;
          _ ← os_Remove currentBackup;
          Ret r
      end
  end.

(** The start of [Restore]: the path of the archive, the latest one of
    the directory when the path is a directory. *)
Definition resolveArchive (backupPath : string) : prog (result string) :=
  let backupPath := TrimSpace backupPath in
  if String.eqb backupPath "" then Ret (Err (Errorf "备份文件路径不能为空" []))
  else
    let cleanPath := Filepath.Clean backupPath in
    info ← os_Stat cleanPath;
    match info with
    | Err err =>
        if os_IsNotExist err
        then Ret (Err (Errorf "备份文件不存在: %s" [cleanPath]))
        else Ret (Err (Errorw "检查备份文件失败: %w" err))
    | Ok info =>
        if IsDir info then
          selected ← selectLatestBackup cleanPath;
          match selected with
          | Err err => Ret (Err err)
          | Ok selected =>
              info ← os_Stat selected;
              match info with
              | Err err => Ret (Err (Errorw "读取备份文件失败: %w" err))
              | Ok _ => Ret (Ok selected)
              end
          end
        else Ret (Ok cleanPath)
    end.

Definition Restore (backupPath : string) : prog (option error) :=
  cleanPath ← resolveArchive backupPath;
  match cleanPath with
  | Err err => Ret (Some err)
  | Ok cleanPath => restoreArchive cleanPath
  end.

(** [Backup].  [stamp] is [time.Time.Format] with the layout
    [20060102_150405], in the zone of the machine, of the time read. *)
Definition Backup (stamp : Z -> string) : prog (result string) :=
  let backupDir := "/root/nginx_backups" in
  _ ← os_MkdirAll backupDir;
  now ← time_Now_Unix;
  let filename := "nginx_conf_" ++ stamp now ++ ".tar.gz" in
  let path := Filepath.Join [backupDir; filename] in
  (* the archive holds /etc/nginx and /var/www/html *)
  out ← ExecuteSimple "tar" ["-czf"; path; "-C"; "/"; "etc/nginx"; "var/www/html"];
  match snd out with
  | Some err => Ret (Err err)
  | None => Ret (Ok path)
  end.

Definition Stop : prog (option error) :=
  out ← ExecuteSimple "systemctl" ["stop"; "nginx"];
  Ret (snd out).

End SystemService.

(** ** [main.go]: the handlers of the mutation routes

    A handler gets the route parameter and what [c.ShouldBindJSON] made of
    the request body, and returns the status and the JSON object it
    sends. *)

Inductive jval :=
| JString (s : string)
| JBool (b : bool)
| JError (e : error).   (* [err.Error()] *)

Record Response := { Status : Z; Body : list (string * jval) }.

Module main.
Import model.

Definition c_JSON (code : Z) (h : list (string * jval)) : Response :=
  {| Status := code; Body := h |}.

Definition StatusOK : Z := 200.
Definition StatusCreated : Z := 201.
Definition StatusBadRequest : Z := 400.
Definition StatusNotFound : Z := 404.
Definition StatusInternalServerError : Z := 500.

Definition failure (code : Z) (err : error) : Response :=
  c_JSON code [("error", JError err)].

Definition rolledBack (err : error) : Response :=
  c_JSON StatusInternalServerError [("error", JError err); ("rolled_back", JBool true)].

Definition message (code : Z) (m : string) : Response :=
  c_JSON code [("message", JString m)].

Section WithTemplates.
Variable T : Templates.

Definition POST_sites (bound : result SiteConfig) : prog Response :=
  match bound with
  | Err err => Ret (failure StatusBadRequest err)
  | Ok config =>
      err ← SiteService.CreateSite T config;
      match err with
      | Some err => Ret (failure StatusInternalServerError err)
      | None =>
          err ← SystemService.Reload;
          match err with
          | Some err =>
              _ ← SiteService.DeleteSite (Domain config);
              _ ← SystemService.Reload;
              Ret (rolledBack err)
          | None => Ret (message StatusCreated "站点创建成功")
          end
      end
  end.

Definition withDomain (config : SiteConfig) (domain : string) : SiteConfig :=
  {| Domain := domain; Type_ := Type_ config; BackendIP := BackendIP config;
     BackendPort := BackendPort config; Backends := Backends config;
     TargetURL := TargetURL config |}.

Definition PUT_sites_domain (domain : string) (bound : result SiteConfig)
  : prog Response :=
  match bound with
  | Err err => Ret (failure StatusBadRequest err)
  | Ok config =>
      if negb (String.eqb (Domain config) "") && negb (String.eqb (Domain config) domain)
      then Ret (c_JSON StatusBadRequest [("error", JString "域名与请求路径不匹配")])
      else
        let config :=
          if String.eqb (Domain config) "" then withDomain config domain else config in
        prevContent ← SiteService.ReadSiteRaw domain;
        match prevContent with
        | Err err => Ret (failure StatusNotFound err)
        | Ok prevContent =>
            err ← SiteService.CreateSite T config;
            match err with
            | Some err => Ret (failure StatusInternalServerError err)
            | None =>
                err ← SystemService.Reload;
                match err with
                | Some err =>
                    _ ← SiteService.WriteSiteRaw domain prevContent;
                    _ ← SystemService.Reload;
                    Ret (rolledBack err)
                | None => Ret (message StatusOK "站点更新成功")
                end
            end
        end
  end.

Definition PUT_sites_domain_raw (domain : string) (bound : result string)
  : prog Response :=
  match bound with
  | Err err => Ret (failure StatusBadRequest err)
  | Ok content =>
      prevContent ← SiteService.ReadSiteRaw domain;
      match prevContent with
      | Err err => Ret (failure StatusNotFound err)
      | Ok prevContent =>
          err ← SiteService.WriteSiteRaw domain content;
          match err with
          | Some err => Ret (failure StatusInternalServerError err)
          | None =>
              err ← SystemService.Reload;
              match err with
              | Some err =>
                  _ ← SiteService.WriteSiteRaw domain prevContent;
                  _ ← SystemService.Reload;
                  Ret (rolledBack err)
              | None => Ret (message StatusOK "配置已更新并重载")
              end
          end
      end
  end.

Definition DELETE_sites_domain (domain : string) : prog Response :=
  prevContent ← SiteService.ReadSiteRaw domain;
  match prevContent with
  | Err err => Ret (failure StatusNotFound err)
  | Ok prevContent =>
      err ← SiteService.DeleteSite domain;
      match err with
      | Some err => Ret (failure StatusInternalServerError err)
      | None =>
          err ← SystemService.Reload;
          match err with
          | Some err =>
              restoreErr ← SiteService.RestoreSiteRaw domain prevContent;
              _ ← (if is_nil restoreErr then SystemService.Reload else Ret None);
              Ret (rolledBack err)
          | None => Ret (message StatusOK "站点已删除")
          end
      end
  end.

Definition POST_streams (bound : result StreamConfig) : prog Response :=
  match bound with
  | Err err => Ret (failure StatusBadRequest err)
  | Ok config =>
      err ← StreamService.CreateStream T config;
      match err with
      | Some err => Ret (failure StatusInternalServerError err)
      | None =>
          err ← SystemService.Reload;
          match err with
          | Some err =>
              _ ← StreamService.DeleteStream (StreamName config);
              _ ← SystemService.Reload;
              Ret (rolledBack err)
          | None => Ret (message StatusCreated "转发规则创建成功")
          end
      end
  end.

Definition withName (config : StreamConfig) (name : string) : StreamConfig :=
  {| StreamName := name; ListenPort := ListenPort config; Target := Target config |}.

Definition PUT_streams_name (name : string) (bound : result StreamConfig)
  : prog Response :=
  backup ← StreamService.GetStream name;
  match backup with
  | Err err => Ret (failure StatusNotFound err)
  | Ok backup =>
      match bound with
      | Err err => Ret (failure StatusBadRequest err)
      | Ok config =>
          if negb (String.eqb (StreamName config) "")
             && negb (String.eqb (StreamName config) name)
          then Ret (c_JSON StatusBadRequest [("error", JString "名称与请求路径不匹配")])
          else
            let config :=
              if String.eqb (StreamName config) "" then withName config name
              else config in
            err ← StreamService.CreateStream T config;
            match err with
            | Some err => Ret (failure StatusInternalServerError err)
            | None =>
                err ← SystemService.Reload;
                match err with
                | Some err =>
                    _ ← StreamService.CreateStream T backup;
                    _ ← SystemService.Reload;
                    Ret (rolledBack err)
                | None => Ret (message StatusOK "转发规则已更新")
                end
            end
      end
  end.

Definition DELETE_streams_name (name : string) : prog Response :=
  backup ← StreamService.GetStream name;
  match backup with
  | Err err => Ret (failure StatusNotFound err)
  | Ok backup =>
      err ← StreamService.DeleteStream name;
      match err with
      | Some err => Ret (failure StatusInternalServerError err)
      | None =>
          err ← SystemService.Reload;
          match err with
          | Some err =>
              _ ← StreamService.CreateStream T backup;
              _ ← SystemService.Reload;
              Ret (rolledBack err)
          | None => Ret (message StatusOK "转发规则已删除")
          end
      end
  end.

Definition PUT_streams_name_raw (name : string) (bound : result string)
  : prog Response :=
  prevContent ← StreamService.ReadStreamRaw name;
  match prevContent with
  | Err err => Ret (failure StatusNotFound err)
  | Ok prevContent =>
      match bound with
      | Err err => Ret (failure StatusBadRequest err)
      | Ok content =>
          err ← StreamService.WriteStreamRaw name content;
          match err with
          | Some err => Ret (failure StatusInternalServerError err)
          | None =>
              err ← SystemService.Reload;
              match err with
              | Some err =>
                  _ ← StreamService.WriteStreamRaw name prevContent;
                  _ ← SystemService.Reload;
                  Ret (rolledBack err)
              | None => Ret (message StatusOK "转发配置已更新")
              end
          end
      end
  end.

End WithTemplates.

Definition POST_system_reload : prog Response :=
  err ← SystemService.Reload;
  match err with
  | Some err => Ret (failure StatusInternalServerError err)
  | None => Ret (message StatusOK "Nginx 已重载")
  end.

Definition POST_system_restore (bound : result string) : prog Response :=
  match bound with
  | Err err => Ret (failure StatusBadRequest err)
  | Ok path =>
      err ← SystemService.Restore path;
      match err with
      | Some err => Ret (failure StatusInternalServerError err)
      | None => Ret (message StatusOK "恢复成功")
      end
  end.

(** The mutation routes that [main] registers, with what a request to
    each carries. *)
Inductive request :=
| PostSites (bound : result SiteConfig)
| PutSite (domain : string) (bound : result SiteConfig)
| PutSiteRaw (domain : string) (bound : result string)
| DeleteSite (domain : string)
| PostStreams (bound : result StreamConfig)
| PutStream (name : string) (bound : result StreamConfig)
| DeleteStream (name : string)
| PutStreamRaw (name : string) (bound : result string).

Definition serve (T : Templates) (r : request) : prog Response :=
  match r with
  | PostSites bound => POST_sites T bound
  | PutSite domain bound => PUT_sites_domain T domain bound
  | PutSiteRaw domain bound => PUT_sites_domain_raw domain bound
  | DeleteSite domain => DELETE_sites_domain domain
  | PostStreams bound => POST_streams T bound
  | PutStream name bound => PUT_streams_name T name bound
  | DeleteStream name => DELETE_streams_name T name
  | PutStreamRaw name bound => PUT_streams_name_raw name bound
  end.

(** The value of the [rolled_back] field of a response, if it has one. *)
Fixpoint field (name : string) (h : list (string * jval)) : option jval :=
  match h with
  | [] => None
  | (k, v) :: h' => if String.eqb k name then Some v else field name h'
  end.

Definition rolled_back (r : Response) : option jval := field "rolled_back" (Body r).

End main.

(** * Vocabulary of the properties *)

(** [every P p]: each call the program can make satisfies [P]. *)
Fixpoint every {R} (P : op -> Prop) (p : prog R) : Prop :=
  match p with
  | Ret _ => True
  | Vis o k => P o /\ forall x, every P (k x)
  end.

Definition test_cmd : op := Exec model.NginxSbinPath ["-t"].
Definition reload_cmd : op := Exec "systemctl" ["reload"; "nginx"].

(** [guarded passed tr]: in [tr], each reload command comes right after a
    configuration test that passed; [passed] tells whether such a test
    came right before [tr]. *)
Fixpoint guarded (passed : bool) (tr : list event) : Prop :=
  match tr with
  | [] => True
  | e :: tr' =>
      (ev_op e = reload_cmd -> passed = true)
      /\ guarded (bool_decide (ev_op e = test_cmd) && ev_ok e) tr'
  end.

(** The same, for all the runs of a program. *)
Fixpoint safe {R} (passed : bool) (p : prog R) : Prop :=
  match p with
  | Ret _ => True
  | Vis o k =>
      (o = reload_cmd -> passed = true)
      /\ forall x, safe (bool_decide (o = test_cmd) && succeeded o x) (k x)
  end.

Definition no_exec (o : op) : Prop :=
  match o with
  | Exec _ _ => False
  | _ => True
  end.

Definition is_tar (flag : string) (o : op) : bool :=
  match o with
  | Exec name (f :: _) => String.eqb name "tar" && String.eqb f flag
  | _ => false
  end.

(** The check of the archive, [tar -tzf]; the snapshot, [tar -czf]. *)
Definition is_verify : op -> bool := is_tar "-tzf".
Definition is_snapshot : op -> bool := is_tar "-czf".

(** Calls that only look at the file system. *)
Definition read_only (o : op) : Prop :=
  match o with
  | Stat _ | ReadDir _ => True
  | _ => False
  end.

(** Calls that are neither the check of the archive nor the snapshot. *)
Definition later_op (o : op) : Prop :=
  is_verify o = false /\ is_snapshot o = false.

(** An entry that the scan takes into account, with its time: not a
    directory, a name that ends in [.tar.gz], and file information that
    could be read. *)
Definition recognized (e : DirEntry) (t : Z) : Prop :=
  EntryIsDir e = false /\ GoStrings.HasSuffix (Name e) ".tar.gz" = true /\ Info e = Ok t.

(** What the calls that change the tree can return, and the tree they
    leave. *)
Module FSCases.
Import FS.

Inductive opened (t : tree) (k : list string) (data : string)
  : result (list string) * tree -> Prop :=
| opened_ok q :
    resolve t max_links k = Some q -> q <> [] ->
    (node_at t q = None \/ exists body, node_at t q = Some (File body)) ->
    opened t k data (Ok q, <[q := File data]> t)
| opened_err e : opened t k data (Err e, t).

Inductive removed (t : tree) (k : list string) : option error * tree -> Prop :=
| removed_ok n : k <> [] -> node_at t k = Some n -> removed t k (None, delete k t)
| removed_err e :
    (forall body, node_at t k <> Some (File body)) ->
    (forall target, node_at t k <> Some (Link target)) ->
    removed t k (Some e, t).

Inductive linked (t : tree) (oldname : string) (k : list string)
  : option error * tree -> Prop :=
| linked_ok :
    k <> [] -> node_at t k = None -> is_dir t (parent k) = true ->
    linked t oldname k (None, <[k := Link oldname]> t)
| linked_err e :
    (is_Some (node_at t k) \/ is_dir t (parent k) = false) ->
    linked t oldname k (Some e, t).

(** Walking [rest] from [done], every element met is a directory of the
    tree. *)
Fixpoint dirs_from (t : tree) (done rest : list string) : bool :=
  match rest with
  | [] => true
  | c :: rest' => is_dir t (done ++ [c]) && dirs_from t (done ++ [c]) rest'
  end.

(** [real_dir t k]: [k] is a directory of the tree that is reached from
    the root through directories of the tree, with no link and no file
    on the way.  For the paths in such a directory the tree is the
    picture of a file system. *)
Definition real_dir (t : tree) (k : list string) : bool := dirs_from t [] k.

(** [grown t t']: [t'] is [t] with directories added where there was
    nothing. *)
Definition grown (t t' : tree) : Prop :=
  forall q, node_at t' q = node_at t q
            \/ (node_at t q = None /\ node_at t' q = Some Dir).

End FSCases.

(** The value a program returns and the state it leaves, in the
    environment with a file tree. *)
Definition after {R} (ext : FS.outside) (p : prog R) (w : FS.world) : R * FS.world :=
  let r := run (FS.handle_op ext) p w in (value_of r, state_of r).

(** The same in whatever environment on worlds. *)
Definition after_in {R} (h : handler FS.world) (p : prog R) (w : FS.world) : R * FS.world :=
  let r := run h p w in (value_of r, state_of r).

(** The state of an environment after the calls of [tr], made from [s]. *)
Definition state_after {S : Type} (h : handler S) (s : S) (tr : list event) : S :=
  fold_left (fun s e => snd (h (ev_op e) s)) tr s.

Definition is_exec (o : op) : bool :=
  match o with
  | Exec _ _ => true
  | _ => false
  end.

(** The commands among the calls of a run. *)
Definition execs (tr : list event) : list event :=
  List.filter (fun e => is_exec (ev_op e)) tr.

(** Whether the first commit attempt of a run failed: the first command
    of a mutation is the configuration test and, when it passes, the
    second one is the reload. *)
Definition commit_failed (tr : list event) : bool :=
  match execs tr with
  | [] => false
  | test :: rest =>
      if ev_ok test then
        match rest with
        | [] => false
        | reload :: _ => negb (ev_ok reload)
        end
      else true
  end.

(** ** The policy of the Applying stage, as the code has it *)

(** Whether [path] is a directory of the tree, as [dirExists] finds out. *)
Definition has_dir (t : FS.tree) (path : string) : bool :=
  if String.eqb path "" then false
  else match FS.stat t (FS.key path) with
       | Ok info => IsDir info
       | Err _ => false
       end.

(** The copies that [applyExtractedArchive] plans for the archive
    extracted at [root], where [isDir] tells which paths are
    directories: the configuration subtree [etc/nginx] into the
    configuration root; the content subtree [var/www/html] into the
    content root; a top-level [nginx] directory into the configuration
    root when there is no [etc/nginx]; and the whole of [root] into the
    configuration root when none of the three is there. *)
Definition plan_for (isDir : string -> bool) (root : string)
  : list SystemService.copyTask :=
  let etcDir := Filepath.Join [root; "etc"; "nginx"] in
  let varDir := Filepath.Join [root; "var"; "www"; "html"] in
  let altNginxDir := Filepath.Join [root; "nginx"] in
  let found :=
    ((if isDir etcDir
      then [{| SystemService.src := etcDir; SystemService.dest := model.NginxConfDir |}]
      else [])
     ++ (if isDir varDir
         then [{| SystemService.src := varDir; SystemService.dest := "/var/www/html" |}]
         else [])
     ++ (if isDir altNginxDir && negb (isDir etcDir)
         then [{| SystemService.src := altNginxDir; SystemService.dest := model.NginxConfDir |}]
         else []))%list in
  match found with
  | [] => [{| SystemService.src := root; SystemService.dest := model.NginxConfDir |}]
  | _ => found
  end.

(** The plan on a file tree. *)
Definition planned (t : FS.tree) (root : string) : list SystemService.copyTask :=
  plan_for (has_dir t) root.

(** What [dirExists] answers for [path] in the state [s] of an
    environment. *)
Definition found {S : Type} (h : handler S) (s : S) (path : string) : bool :=
  value_of (run h (SystemService.dirExists path) s).

(** The copy command for a task. *)
Definition cp_of (task : SystemService.copyTask) : op :=
  Exec "cp" ["-a"; Filepath.Clean (SystemService.src task) ++ "/" ++ ".";
             Filepath.Clean (SystemService.dest task) ++ "/"].

Definition is_cp (o : op) : bool :=
  match o with
  | Exec name _ => String.eqb name "cp"
  | _ => false
  end.

(** The copy commands among the calls of a run, in order. *)
Definition copies (tr : list event) : list op :=
  map ev_op (List.filter (fun e => is_cp (ev_op e)) tr).

(** The calls that carry out a plan: for each task in turn, make the
    destination, then copy into it. *)
Definition steps_of (tasks : list SystemService.copyTask) : list op :=
  flat_map (fun task => [MkdirAll (SystemService.dest task); cp_of task]) tasks.

Definition is_stat (o : op) : bool :=
  match o with
  | Stat _ => true
  | _ => false
  end.

(** The calls of a run that do something, as opposed to [os.Stat], which
    looks. *)
Definition acts (tr : list event) : list event :=
  List.filter (fun e => negb (is_stat (ev_op e))) tr.

(** A call that went through. *)
Definition went_through (o : op) : event := Event o true.

(** [stopped_in steps tr]: [tr] is the calls of [steps] in order, each of
    which went through, up to one of them that failed, and nothing after
    that one. *)
Definition stopped_in (steps : list op) (tr : list event) : Prop :=
  exists done o rest,
    steps = (done ++ o :: rest)%list
    /\ tr = (map went_through done ++ [Event o false])%list.

(** * Scenarios

    Concrete trees, environments and requests on which the properties are
    exercised. *)

Module Scenario.
Import FS model.

Definition nl : string := String "010"%char "".

(** Answers of an outside world in which every command fails and
    nothing else works either. *)
Definition refuse (o : op) : reply o :=
  match o return reply o with
  | ReadFile _ => Err (PathError EIO)
  | Create _ => Err (PathError EIO)
  | WriteFile _ _ | Fwrite _ _ | Remove _ | RemoveAll _
  | Symlink _ _ | MkdirAll _ => Some (PathError EIO)
  | Stat _ | Lstat _ => Err (PathError EIO)
  | ReadDir _ => Err (PathError EIO)
  | MkdirTemp _ _ => Err (PathError EIO)
  | Now => 0
  | Exec _ _ => ("", Some ExitError)
  end.

(** Answers of a world in which every call works: files are regular
    files, directories are empty, the clock shows a fixed time. *)
Definition accept (o : op) : reply o :=
  match o return reply o with
  | ReadFile _ => Ok ""
  | Create name => Ok (key name)
  | WriteFile _ _ | Fwrite _ _ | Remove _ | RemoveAll _
  | Symlink _ _ | MkdirAll _ => None
  | Stat _ | Lstat _ => Ok {| IsDir := false; IsSymlink := false |}
  | ReadDir _ => Ok []
  | MkdirTemp _ _ => Ok "/tmp/nginx_restore2860712345"
  | Now => 1761850000
  | Exec _ _ => ("", None)
  end.

(** The same world, except that the check of an archive fails. *)
Definition corrupt (o : op) : reply o :=
  match o return reply o with
  | Exec name args =>
      if is_verify (Exec name args)
      then ("gzip: stdin: unexpected end of file", Some ExitError)
      else accept (Exec name args)
  | o => accept o
  end.

(** An environment that gives the same answers all along and counts the
    calls. *)
Definition always (answer : forall o, reply o) : handler nat :=
  fun o n => (answer o, S n).

(** With the file tree: every command fails; every command works. *)
Definition failing : outside := fun _ _ o => refuse o.
Definition passing : outside := fun _ _ o => accept o.

(** A system that turns no call down, and one whose directories take new
    entries and give none up (the append-only attribute): every removal
    is turned down. *)
Definition permissive : world -> op -> option errno := fun _ _ => None.
Definition append_only : world -> op -> option errno :=
  fun _ o =>
    match o with
    | Remove _ | RemoveAll _ => Some EPERM
    | _ => None
    end.

Definition etc_nginx : list (list string * node) :=
  [ (["etc"], Dir); (["etc"; "nginx"], Dir);
    (["etc"; "nginx"; "sites-available"], Dir);
    (["etc"; "nginx"; "streams-available"], Dir);
    (["etc"; "nginx"; "streams-enabled"], Dir) ].

Definition site_body : string :=
  "server {" ++ nl ++ "    listen 80;" ++ nl ++ "    server_name a.example.com;" ++ nl
  ++ "    location / { proxy_pass http://10.0.0.5:8080; }" ++ nl ++ "}" ++ nl.

(** A store with the site [a.example.com], enabled. *)
Definition enabled_store : tree :=
  list_to_map
    (etc_nginx ++
     [ (["etc"; "nginx"; "sites-enabled"], Dir);
       (["etc"; "nginx"; "sites-available"; "a.example.com"], File site_body);
       (["etc"; "nginx"; "sites-enabled"; "a.example.com"],
        Link "/etc/nginx/sites-available/a.example.com") ])%list.

(** The same store with the site disabled: no activation link. *)
Definition disabled_store : tree :=
  list_to_map
    (etc_nginx ++
     [ (["etc"; "nginx"; "sites-enabled"], Dir);
       (["etc"; "nginx"; "sites-available"; "a.example.com"], File site_body) ])%list.

(** A store in which the directory of the activation links is missing. *)
Definition store_without_enabled_dir : tree :=
  list_to_map
    (etc_nginx ++
     [ (["etc"; "nginx"; "sites-available"; "a.example.com"], File site_body) ])%list.

Definition new_site : SiteConfig :=
  {| Domain := "b.example.com"; Type_ := "static"; BackendIP := ""; BackendPort := 0;
     Backends := []; TargetURL := "" |}.

Definition ftp_site : SiteConfig :=
  {| Domain := "b.example.com"; Type_ := "ftp"; BackendIP := ""; BackendPort := 0;
     Backends := []; TargetURL := "" |}.

(** Example templates: a fixed text for sites, and for a stream an
    upstream with its server and a server that listens. *)
Definition templates : Templates :=
  {| ParseFS := fun _ => None;
     ExecuteSite := fun _ config =>
       ("server { server_name " ++ Domain config ++ "; }" ++ nl, None);
     ExecuteStream := fun config =>
       ("upstream " ++ StreamName config ++ " {" ++ nl
        ++ "    server " ++ Target config ++ ";" ++ nl ++ "}" ++ nl
        ++ "server {" ++ nl
        ++ "    listen " ++ pretty (ListenPort config) ++ ";" ++ nl
        ++ "    proxy_pass " ++ StreamName config ++ ";" ++ nl ++ "}" ++ nl, None) |}.

(** Two texts of the stream [relay] that differ in a comment only. *)
Definition relay_rest : string :=
  "upstream relay {" ++ nl ++ "    server 10.0.0.5:53;" ++ nl ++ "}" ++ nl
  ++ "server {" ++ nl ++ "    listen 5353;" ++ nl ++ "    proxy_pass relay;" ++ nl
  ++ "}" ++ nl.
Definition relay_body_1 : string := "# tuned by hand: keep" ++ nl ++ relay_rest.
Definition relay_body_2 : string := "# generated" ++ nl ++ relay_rest.

Definition relay_store (body : string) : tree :=
  list_to_map
    (etc_nginx ++
     [ (["etc"; "nginx"; "streams-available"; "relay"], File body);
       (["etc"; "nginx"; "streams-enabled"; "relay"],
        Link "/etc/nginx/streams-available/relay") ])%list.

Definition relay_update : StreamConfig :=
  {| StreamName := "relay"; ListenPort := 5354; Target := "10.0.0.6:53" |}.

(** What [GetStream] reads from either text. *)
Definition relay_backup : StreamConfig :=
  {| StreamName := "relay"; ListenPort := 5353; Target := "10.0.0.5:53" |}.

(** An archive extracted with a top-level [nginx] directory only. *)
Definition extracted_root : string := "/tmp/nginx_restore2860712345".
Definition alt_only_tree : tree :=
  list_to_map
    (etc_nginx ++
     [ (["tmp"], Dir); (["tmp"; "nginx_restore2860712345"], Dir);
       (["tmp"; "nginx_restore2860712345"; "nginx"], Dir);
       (["tmp"; "nginx_restore2860712345"; "nginx"; "nginx.conf"], File "events {}") ])%list.

(** Directory listings for [selectLatestBackup]. *)
Definition archive (name : string) (t : Z) : DirEntry :=
  {| Name := name; EntryIsDir := false; Info := Ok t |}.

Definition backups_dir : string := "/root/nginx_backups".

Definition three_archives : list DirEntry :=
  [ archive "nginx_conf_a.tar.gz" 100;
    {| Name := "nginx_conf_b.tar.gz"; EntryIsDir := true; Info := Ok 900 |};
    archive "nginx_conf_c.tar.gz" 300;
    archive "nginx_conf_d.tar.gz" 200;
    archive "notes.txt" 950 ].

Definition tied_archives : list DirEntry :=
  [ archive "nginx_conf_a.tar.gz" 500; archive "nginx_conf_b.tar.gz" 500 ].

End Scenario.

(** The common end of [CreateSite] and [CreateStream]: create the
    available copy, write the text the template printed, return the error
    of the template if it had one, and else replace the activation
    link. *)
Definition publish (availablePath enabledPath text : string) (failed : option error)
  : prog (option error) :=
  created ← os_Create availablePath;
  match created with
  | Err e => Ret (Some e)
  | Ok f =>
      written ← file_Write f text;
      match written, failed with
      | Some e, _ => Ret (Some e)
      | None, Some e => Ret (Some e)
      | None, None =>
          _ ← os_Remove enabledPath;
          os_Symlink availablePath enabledPath
      end
  end.

(** [DeleteSite] and [DeleteStream]: remove the link, then the available
    copy. *)
Definition unpublish (availablePath enabledPath : string) : prog (option error) :=
  _ ← os_Remove enabledPath;
  os_Remove availablePath.

(** ** Path elements *)

Fixpoint no_slash (s : string) : Prop :=
  match s with
  | "" => True
  | String a s' => a <> Filepath.slash /\ no_slash s'
  end.

(** A path element that [Clean] keeps in a rooted path. *)
Definition plain (c : string) : Prop :=
  c <> "" /\ c <> "." /\ c <> ".." /\ no_slash c.


(** ** The commands of a restore *)

Definition stop_cmd : op := Exec "systemctl" ["stop"; "nginx"].
Definition kill_cmd : op := Exec "pkill" ["-9"; "nginx"].
Definition start_cmd : op := Exec "systemctl" ["start"; "nginx"].

(** [tar -xzf archive -C dir]. *)
Definition extract_cmd (archive dir : string) : op :=
  Exec "tar" ["-xzf"; archive; "-C"; dir].

(** The calls of the deferred clean-up: [os.Remove], [os.RemoveAll]. *)
Definition is_cleanup (o : op) : Prop :=
  match o with
  | Remove _ | RemoveAll _ => True
  | _ => False
  end.

Definition not_mkdirtemp (o : op) : Prop :=
  match o with
  | MkdirTemp _ _ => False
  | _ => True
  end.

(** ** Responses *)

Definition is_read (o : op) : Prop :=
  match o with
  | ReadFile _ => True
  | _ => False
  end.

(** ** Reading units back *)

Definition supported_types : list string := ["proxy"; "static"; "lb"; "redirect"].

(** A line that [GetStream] takes for the port, with a port that
    [strconv.Atoi] refuses. *)
Definition bad_listen (line : string) : Prop :=
  let l := GoStrings.TrimSpace line in
  GoStrings.HasPrefix l "listen " = true
  /\ exists e,
       GoStrings.Atoi (GoStrings.TrimSuffix (GoStrings.TrimPrefix l "listen ") ";") = inl e.

(** * More scenarios *)

Module Cases.
Import FS model Scenario.

(** Every call works, except that the service does not start. *)
Definition unstartable (o : op) : reply o :=
  match o return reply o with
  | Exec name args =>
      if bool_decide (Exec name args = start_cmd)
      then ("Job for nginx.service failed.", Some ExitError)
      else accept (Exec name args)
  | o => accept o
  end.

(** Every call works, and the directory of the archives lists
    [three_archives]. *)
Definition with_archives (o : op) : reply o :=
  match o return reply o with
  | ReadDir _ => Ok three_archives
  | o => accept o
  end.

Definition lb_body : string :=
  "# site_type: lb" ++ nl ++ "upstream pool {" ++ nl
  ++ "    server 10.0.0.5:8080;" ++ nl ++ "    server 10.0.0.6:8080;" ++ nl ++ "}" ++ nl
  ++ "server { location / { proxy_pass http://pool; } }" ++ nl.

(** Every call works; the store lists two sites, and every file read
    holds [lb_body]. *)
Definition with_sites (o : op) : reply o :=
  match o return reply o with
  | ReadDir _ =>
      Ok [ {| Name := "a.example.com"; EntryIsDir := false; Info := Ok 1 |};
           {| Name := "b.example.com"; EntryIsDir := false; Info := Ok 2 |} ]
  | ReadFile _ => Ok lb_body
  | o => accept o
  end.

(** A stream over UDP, as written by hand. *)
Definition udp_body : string :=
  "upstream dns {" ++ nl ++ "    server 10.0.0.5:53;" ++ nl ++ "}" ++ nl
  ++ "server {" ++ nl ++ "    listen 53 udp;" ++ nl ++ "    proxy_pass dns;" ++ nl ++ "}" ++ nl.

Definition with_udp_stream (o : op) : reply o :=
  match o return reply o with
  | ReadFile _ => Ok udp_body
  | o => accept o
  end.

(** Every call works; the store lists the stream [relay], and every file
    read holds [relay_body_1]. *)
Definition with_streams (o : op) : reply o :=
  match o return reply o with
  | ReadDir _ => Ok [ {| Name := "relay"; EntryIsDir := false; Info := Ok 1 |} ]
  | ReadFile _ => Ok relay_body_1
  | o => accept o
  end.

(** A store in which the link of the site is there and the available
    copy is not. *)
Definition dangling_store : tree :=
  list_to_map
    (etc_nginx ++
     [ (["etc"; "nginx"; "sites-enabled"], Dir);
       (["etc"; "nginx"; "sites-enabled"; "a.example.com"],
        Link "/etc/nginx/sites-available/a.example.com") ])%list.

(** A store in which the stream [relay] is enabled through a link that
    points somewhere else. *)
Definition relinked_store : tree :=
  list_to_map
    (etc_nginx ++
     [ (["etc"; "nginx"; "streams-available"; "relay"], File relay_body_1);
       (["etc"; "nginx"; "streams-enabled"; "relay"], Link "/srv/streams/relay") ])%list.

Definition proxy_site : SiteConfig :=
  {| Domain := "a.example.com"; Type_ := "proxy"; BackendIP := "10.0.0.7";
     BackendPort := 8081; Backends := []; TargetURL := "" |}.

(** A store with its directories and no unit. *)
Definition empty_store : tree := list_to_map etc_nginx.

(** Templates of which the one for streams stops half way. *)
Definition broken_templates : Templates :=
  {| ParseFS := fun _ => None;
     ExecuteSite := ExecuteSite templates;
     ExecuteStream := fun config =>
       ("upstream " ++ StreamName config ++ " {" ++ nl, Some TemplateError) |}.

End Cases.

(** ** What a request removes; what a copy needs *)

(** No directory tree is removed, and [os.Remove] is called on the given
    paths only. *)
Definition removes_only (paths : list string) (o : op) : Prop :=
  match o with
  | RemoveAll _ => False
  | Remove p => p ∈ paths
  | _ => True
  end.

(** The destination of a copy command, as [applyExtractedArchive] writes
    it for the directory [d]. *)
Definition copies_into (o : op) (d : string) : Prop :=
  exists source, o = Exec "cp" ["-a"; source; Filepath.Clean d ++ "/"].

(** The directory that the call [o] has just made, if it is a call of
    [os.MkdirAll] that worked. *)
Definition made_by (o : op) (ok : bool) : option string :=
  match o with
  | MkdirAll d => if ok then Some d else None
  | _ => None
  end.

(** [prepared made tr]: in [tr], each copy command comes right after a
    call of [os.MkdirAll] on its destination that worked; [made] is the
    directory made right before [tr], if any. *)
Fixpoint prepared (made : option string) (tr : list event) : Prop :=
  match tr with
  | [] => True
  | e :: tr' =>
      (is_cp (ev_op e) = true -> exists d, made = Some d /\ copies_into (ev_op e) d)
      /\ prepared (made_by (ev_op e) (ev_ok e)) tr'
  end.

(** The same, for all the runs of a program. *)
Fixpoint prepares {R} (made : option string) (p : prog R) : Prop :=
  match p with
  | Ret _ => True
  | Vis o k =>
      (is_cp o = true -> exists d, made = Some d /\ copies_into o d)
      /\ forall x, prepares (made_by o (succeeded o x)) (k x)
  end.

(** A line that names a backend: once trimmed, [server ADDRESS;]. *)
Definition server_line (line addr : string) : Prop :=
  GoStrings.TrimSpace line = "server " ++ addr ++ ";".
(** * Properties *)

(** ** The Go library functions on examples *)

Example TrimSpace_ex :
  GoStrings.TrimSpace (GoStrings.of_bytes [32; 9; 194; 160; 97; 32; 98; 226; 128; 137; 10]%nat)
  = "a b".
Proof. reflexivity. Qed.

Example Split_ex : GoStrings.Split ("a" ++ "/" ++ "/b/") "/" = ["a"; ""; "b"; ""].
Proof. reflexivity. Qed.

Example Atoi_ex :
  GoStrings.Atoi "8080" = inr 8080 /\ GoStrings.Atoi "-7" = inr (-7) /\
  GoStrings.Atoi "80a" = inl GoStrings.ErrSyntax /\ GoStrings.Atoi "+" = inl GoStrings.ErrSyntax /\
  GoStrings.Atoi "9223372036854775808" = inl GoStrings.ErrRange.
Proof. repeat split; reflexivity. Qed.

Example Clean_ex :
  Filepath.Clean "/etc//nginx/./sites-available/../x" = "/etc/nginx/x" /\
  Filepath.Clean "../../a/../../b" = "../../../b" /\
  Filepath.Clean "/../.." = "/" /\ Filepath.Clean "a/.." = "." /\
  Filepath.Join ["/etc/nginx"; "sites-available"; "a.example.com"]
    = "/etc/nginx/sites-available/a.example.com" /\
  Filepath.Join [""; ""; "x"; ""] = "x" /\
  Filepath.Dir "/etc/nginx/sites-available/a" = "/etc/nginx/sites-available" /\
  Filepath.Dir "a" = "." /\ Filepath.Dir "/a" = "/".
Proof. repeat split; reflexivity. Qed.


(** ** Running programs *)

Section Running.
Context {S : Type} (h : handler S).

(** A program in sequence runs its first part, then the rest from the
    state the first part left; the calls add up in that order. *)
Lemma run_bind {A B} (p : prog A) (f : A -> prog B) (s : S) :
  run h (bind p f) s =
    let '(a, s1, tr1) := run h p s in
    let '(b, s2, tr2) := run h (f a) s1 in
    (b, s2, (tr1 ++ tr2)%list).
Proof.
  revert s. induction p as [a | o k IH]; intros s; simpl.
  - destruct (run h (f a) s) as [[b s2] tr2]. reflexivity.
  - destruct (h o s) as [x s1]. rewrite IH.
    destruct (run h (k x) s1) as [[a s2] tr1].
    destruct (run h (f a) s2) as [[b s3] tr2]. reflexivity.
Qed.

Lemma run_call (o : op) (s : S) :
  run h (call o) s = (fst (h o s), snd (h o s), [Event o (succeeded o (fst (h o s)))]).
Proof. unfold call. simpl. destruct (h o s) as [x s1]. reflexivity. Qed.


Lemma every_bind {A B} (P : op -> Prop) (p : prog A) (f : A -> prog B) :
  every P p -> (forall a, every P (f a)) -> every P (bind p f).
Proof.
  intros Hp Hf. induction p as [a | o k IH]; simpl in *.
  - apply Hf.
  - destruct Hp as [Ho Hk]. split; [exact Ho |]. intros x. apply IH, Hk.
Qed.

Lemma every_trace {R} (P : op -> Prop) (p : prog R) (s : S) :
  every P p -> Forall (fun e => P (ev_op e)) (trace_of (run h p s)).
Proof.
  revert s. induction p as [a | o k IH]; intros s Hp; simpl.
  - constructor.
  - destruct Hp as [Ho Hk]. destruct (h o s) as [x s1].
    specialize (IH x s1 (Hk x)).
    destruct (run h (k x) s1) as [[r s2] tr]. simpl in *.
    constructor; [exact Ho | exact IH].
Qed.

(** The state a run ends in is the state after its calls. *)
Lemma run_state_after {R} (p : prog R) (s : S) :
  state_of (run h p s) = state_after h s (trace_of (run h p s)).
Proof.
  revert s. induction p as [r | o k IH]; intros s; [reflexivity |].
  cbn [run]. specialize (IH (fst (h o s)) (snd (h o s))).
  destruct (h o s) as [x s1] eqn:Hstep. cbn [fst snd] in IH.
  destruct (run h (k x) s1) as [[r s2] tr].
  unfold state_of, trace_of in *. cbn [fst snd] in *.
  unfold state_after. cbn [fold_left ev_op]. rewrite Hstep. exact IH.
Qed.

Lemma state_after_app (s : S) (tr1 tr2 : list event) :
  state_after h s (tr1 ++ tr2) = state_after h (state_after h s tr1) tr2.
Proof. apply fold_left_app. Qed.

End Running.

Ltac every_step :=
  first
    [ exact I
    | apply every_bind
    | match goal with
      | |- every _ (match ?x with _ => _ end) => destruct x
      | |- every _ (if ?x then _ else _) => destruct x
      | |- every _ (let '(_, _) := ?x in _) => destruct x
      | |- every _ (call _) => split; [| intros; exact I]
      | |- every _ (Vis _ _) => split; [| intros]
      | |- _ /\ _ => split
      | |- forall _, _ => intros
      end
    | progress simpl ].

(** ** C9: a site of an unknown type is refused before any call *)

Section UnknownType.
Import model.
Variable T : Templates.

Lemma pickTemplate_unknown (config : SiteConfig) :
  Type_ config ∉ ["proxy"; "static"; "lb"; "redirect"] ->
  SiteService.pickTemplate config
  = Ret (Err (Errorf "不支持的站点类型: %s" [Type_ config])).
Proof.
  intros Hnot. unfold SiteService.pickTemplate.
  repeat match goal with
  | |- context [String.eqb ?a ?b] =>
      destruct (String.eqb_spec a b) as [Heq | _];
      [ exfalso; apply Hnot; rewrite Heq; set_solver | ]
  end.
  reflexivity.
Qed.

(** C9.  [CreateSite] on a configuration whose type is none of proxy,
    static, lb, redirect returns the error "unsupported site type" and
    makes no call at all: whatever the environment, no file is created
    or written, no link is removed or made, no directory is made, and
    the environment is left in the state it was in. *)
Theorem CreateSite_unknown_type_no_effect
  (config : SiteConfig) {S : Type} (h : handler S) (s : S) :
  Type_ config ∉ ["proxy"; "static"; "lb"; "redirect"] ->
  run h (SiteService.CreateSite T config) s
  = (Some (Errorf "不支持的站点类型: %s" [Type_ config]), s, []).
Proof.
  intros Hnot. unfold SiteService.CreateSite.
  rewrite pickTemplate_unknown by exact Hnot. reflexivity.
Qed.

End UnknownType.

(** ** C8: no reload without a configuration test that passed just before *)





Section Guarded.
Context {S : Type} (h : handler S).

Lemma safe_weaken {R} (b : bool) (p : prog R) : safe false p -> safe b p.
Proof.
  destruct p as [r | o k]; simpl; [trivial |].
  intros [Ho Hk]. split; [| exact Hk].
  intros Heq. specialize (Ho Heq). discriminate.
Qed.

Lemma safe_bind {A B} (b : bool) (p : prog A) (f : A -> prog B) :
  safe b p -> (forall a, safe false (f a)) -> safe b (bind p f).
Proof.
  revert b. induction p as [a | o k IH]; intros b Hp Hf; simpl in *.
  - apply safe_weaken, Hf.
  - destruct Hp as [Ho Hk]. split; [exact Ho |].
    intros x. apply IH; [apply Hk | exact Hf].
Qed.

Lemma quiet_safe {R} (b : bool) (p : prog R) : every no_exec p -> safe b p.
Proof.
  revert b. induction p as [r | o k IH]; intros b Hp; simpl in *; [trivial |].
  destruct Hp as [Ho Hk]. split.
  - intros ->. destruct Ho.
  - intros x. apply IH, Hk.
Qed.

Lemma safe_trace {R} (b : bool) (p : prog R) (s : S) :
  safe b p -> guarded b (trace_of (run h p s)).
Proof.
  revert b s. induction p as [r | o k IH]; intros b s Hp; simpl; [trivial |].
  destruct Hp as [Ho Hk]. destruct (h o s) as [x s1].
  specialize (IH x _ s1 (Hk x)).
  destruct (run h (k x) s1) as [[r s2] tr]. simpl in *. split; assumption.
Qed.

End Guarded.

Lemma Reload_safe : safe false SystemService.Reload.
Proof.
  unfold SystemService.Reload, ExecuteSimple, call. simpl.
  split; [discriminate |]. intros [out err]. simpl.
  destruct err as [e |]; simpl; [exact I |].
  split; [reflexivity |]. intros x. exact I.
Qed.

Section Quiet.
Variable T : Templates.

Lemma CreateSite_quiet config : every no_exec (SiteService.CreateSite T config).
Proof.
  unfold SiteService.CreateSite, SiteService.pickTemplate.
  repeat every_step.
Qed.

Lemma DeleteSite_quiet domain : every no_exec (SiteService.DeleteSite domain).
Proof. unfold SiteService.DeleteSite. repeat every_step. Qed.

Lemma ReadSiteRaw_quiet domain : every no_exec (SiteService.ReadSiteRaw domain).
Proof. unfold SiteService.ReadSiteRaw. repeat every_step. Qed.

Lemma WriteSiteRaw_quiet domain content :
  every no_exec (SiteService.WriteSiteRaw domain content).
Proof. unfold SiteService.WriteSiteRaw. repeat every_step. Qed.

Lemma RestoreSiteRaw_quiet domain content :
  every no_exec (SiteService.RestoreSiteRaw domain content).
Proof. unfold SiteService.RestoreSiteRaw. repeat every_step. Qed.

Lemma CreateStream_quiet config : every no_exec (StreamService.CreateStream T config).
Proof. unfold StreamService.CreateStream. repeat every_step. Qed.

Lemma DeleteStream_quiet name : every no_exec (StreamService.DeleteStream name).
Proof. unfold StreamService.DeleteStream. repeat every_step. Qed.

Lemma GetStream_quiet name : every no_exec (StreamService.GetStream name).
Proof. unfold StreamService.GetStream. repeat every_step. Qed.

Lemma ReadStreamRaw_quiet name : every no_exec (StreamService.ReadStreamRaw name).
Proof. unfold StreamService.ReadStreamRaw. repeat every_step. Qed.

Lemma WriteStreamRaw_quiet name content :
  every no_exec (StreamService.WriteStreamRaw name content).
Proof. unfold StreamService.WriteStreamRaw. repeat every_step. Qed.

End Quiet.

Create HintDb quiet.
#[export] Hint Resolve CreateSite_quiet DeleteSite_quiet ReadSiteRaw_quiet
  WriteSiteRaw_quiet RestoreSiteRaw_quiet CreateStream_quiet DeleteStream_quiet
  GetStream_quiet ReadStreamRaw_quiet WriteStreamRaw_quiet : quiet.

Ltac safe_step :=
  first
    [ exact I
    | apply Reload_safe
    | apply quiet_safe; solve [auto with quiet]
    | apply safe_bind
    | match goal with
      | |- safe _ (match ?x with _ => _ end) => destruct x
      | |- safe _ (if ?x then _ else _) => destruct x
      | |- forall _, _ => intros
      end ].

Lemma serve_safe (T : Templates) (req : main.request) : safe false (main.serve T req).
Proof.
  destruct req;
    cbv beta iota delta
      [main.serve main.POST_sites main.PUT_sites_domain main.PUT_sites_domain_raw
       main.DELETE_sites_domain main.POST_streams main.PUT_streams_name
       main.DELETE_streams_name main.PUT_streams_name_raw];
    repeat safe_step.
Qed.

(** C8.  In whatever environment: [Reload] first runs the configuration
    test; when the test fails it returns an error and runs nothing else;
    only when the test passes does it run the reload command, whose error
    it returns.  And in the calls made for a request to any mutation
    route, each reload command comes right after a configuration test
    that passed. *)
Theorem reload_only_after_passing_test
  (T : Templates) {S : Type} (h : handler S) (s : S) :
  (let r := run h SystemService.Reload s in
   (trace_of r = [Event test_cmd false] /\ value_of r <> None)
   \/ (exists ok, trace_of r = [Event test_cmd true; Event reload_cmd ok]
                  /\ (value_of r = None <-> ok = true)))
  /\ (forall req, guarded false (trace_of (run h (main.serve T req) s))).
Proof.
  split.
  - unfold SystemService.Reload, ExecuteSimple, call. simpl.
    destruct (h (Exec model.NginxSbinPath ["-t"]) s) as [[out err] s1]. simpl.
    destruct err as [e |]; simpl.
    + left. split; [reflexivity | discriminate].
    + right.
      destruct (h (Exec "systemctl" ["reload"; "nginx"]) s1) as [[out2 err2] s2].
      simpl. exists (is_nil err2). split; [reflexivity |].
      unfold value_of. destruct err2; simpl; split; intros H;
        first [reflexivity | discriminate].
  - intros req. apply safe_trace, serve_safe.
Qed.

(** ** C6: the archive that [selectLatestBackup] picks *)

Section Latest.
Import GoStrings SystemService.


Lemma Clean_nonempty (p : string) : Filepath.Clean p <> "".
Proof.
  unfold Filepath.Clean.
  destruct (String.eqb p ""); [discriminate |].
  match goal with
  | |- (if String.eqb ?out "" then _ else _) <> _ =>
      destruct (String.eqb_spec out "") as [_ | Hne]; [discriminate | exact Hne]
  end.
Qed.

Lemma Join_nonempty (dir name : string) :
  name <> "" -> Filepath.Join [dir; name] <> "".
Proof.
  intros Hname. simpl.
  destruct (String.eqb dir ""); [| apply Clean_nonempty].
  destruct (String.eqb_spec name "") as [-> | _]; [contradiction |].
  apply Clean_nonempty.
Qed.

Lemma recognized_name (e : DirEntry) (t : Z) : recognized e t -> Name e <> "".
Proof. intros (_ & Hsuf & _) Heq. rewrite Heq in Hsuf. discriminate. Qed.

Variable dir : string.

(** An entry that is not recognized, or that is not newer than the one
    selected, leaves the selection as it is. *)
Lemma considerEntry_keeps (sel : string) (latest : Z) (e : DirEntry) :
  sel <> "" ->
  (forall t, recognized e t -> t <= latest) ->
  considerEntry dir (sel, latest) e = (sel, latest).
Proof.
  intros Hsel Hold. unfold considerEntry.
  destruct (EntryIsDir e) eqn:Hd; [reflexivity |].
  destruct (HasSuffix (Name e) ".tar.gz") eqn:Hs; [| reflexivity]. simpl.
  destruct (Info e) as [t |] eqn:Hi; [| reflexivity].
  assert (Ht : t <= latest) by (apply Hold; repeat split; assumption).
  destruct (String.eqb_spec sel "") as [-> | _]; [contradiction |]. simpl.
  destruct (Z.ltb_spec latest t); [lia | reflexivity].
Qed.

Lemma scan_keeps (post : list DirEntry) (sel : string) (latest : Z) :
  sel <> "" ->
  (forall e t, e ∈ post -> recognized e t -> t <= latest) ->
  fold_left (considerEntry dir) post (sel, latest) = (sel, latest).
Proof.
  intros Hsel. induction post as [| e post IH]; intros Hold; cbn [fold_left];
    [reflexivity |].
  rewrite considerEntry_keeps.
  - apply IH. intros e' t' Hin. apply Hold. by apply list_elem_of_further.
  - exact Hsel.
  - intros t. apply Hold. apply list_elem_of_here.
Qed.

(** While only older archives have been seen, the selection is empty or
    older than [t]. *)
Lemma scan_older (pre : list DirEntry) (t : Z) (st : string * Z) :
  (fst st = "" \/ snd st < t) ->
  (forall e t', e ∈ pre -> recognized e t' -> t' < t) ->
  let st' := fold_left (considerEntry dir) pre st in
  fst st' = "" \/ snd st' < t.
Proof.
  revert st. induction pre as [| e pre IH]; intros st Hst Hold; cbn [fold_left];
    [exact Hst |].
  apply IH.
  - destruct st as [sel latest]. unfold considerEntry.
    destruct (EntryIsDir e) eqn:Hd; [exact Hst |].
    destruct (HasSuffix (Name e) ".tar.gz") eqn:Hs; [| exact Hst]. simpl.
    destruct (Info e) as [t' |] eqn:Hi; [| exact Hst].
    assert (Ht : t' < t).
    { apply (Hold e); [apply list_elem_of_here | repeat split; assumption]. }
    destruct (String.eqb sel "" || (latest <? t')); [right; exact Ht | exact Hst].
  - intros e' t' Hin. apply Hold. by apply list_elem_of_further.
Qed.

Lemma considerEntry_takes (st : string * Z) (e : DirEntry) (t : Z) :
  recognized e t ->
  (fst st = "" \/ snd st < t) ->
  considerEntry dir st e = (Filepath.Join [dir; Name e], t).
Proof.
  intros (Hd & Hs & Hi) Hst. destruct st as [sel latest]. unfold considerEntry.
  rewrite Hd, Hs, Hi. simpl in *.
  destruct Hst as [-> | Hlt]; [reflexivity |].
  destruct (Z.ltb_spec latest t); [| lia].
  rewrite orb_true_r. reflexivity.
Qed.

(** C6, as the code has it.  Among the entries of the directory in the
    order of the scan, take a recognized one [e] (not a directory, name
    ending in [.tar.gz], readable information) whose modification time
    [t] is strictly newer than that of every recognized entry before it
    and at least as new as that of every recognized entry after it:
    the result is the path of [e].  So the newest archive is returned,
    and among several with the newest time, the one met first. *)
Theorem latestOf_first_newest
  (entries pre post : list DirEntry) (e : DirEntry) (t : Z) :
  entries = (pre ++ e :: post)%list ->
  recognized e t ->
  (forall e' t', e' ∈ pre -> recognized e' t' -> t' < t) ->
  (forall e' t', e' ∈ post -> recognized e' t' -> t' <= t) ->
  latestOf dir entries = Ok (Filepath.Join [dir; Name e]).
Proof.
  intros -> He Hpre Hpost. unfold latestOf.
  rewrite fold_left_app. cbn [fold_left].
  pose proof (scan_older pre t ("", zeroTime) (or_introl eq_refl) Hpre) as Hst.
  simpl in Hst.
  rewrite (considerEntry_takes _ e t He Hst).
  assert (Hne : Filepath.Join [dir; Name e] <> "").
  { apply Join_nonempty. by eapply recognized_name. }
  rewrite scan_keeps by assumption.
  destruct (String.eqb_spec (Filepath.Join [dir; Name e]) "") as [Heq | _];
    [contradiction | reflexivity].
Qed.

(** With no recognized entry the scan reports that it found none. *)
Lemma latestOf_none (entries : list DirEntry) :
  (forall e t, e ∈ entries -> ~ recognized e t) ->
  latestOf dir entries = Err (Errorf "未发现可用的备份文件 (目录: %s)" [dir]).
Proof.
  intros Hnone. unfold latestOf.
  assert (H : fold_left (considerEntry dir) entries ("", zeroTime) = ("", zeroTime)).
  { generalize ("", zeroTime) as st.
    induction entries as [| e entries IH]; intros st; cbn [fold_left];
      [reflexivity |].
    assert (Hsame : considerEntry dir st e = st).
    { destruct st as [sel latest]. unfold considerEntry.
      destruct (EntryIsDir e) eqn:Hd; [reflexivity |].
      destruct (HasSuffix (Name e) ".tar.gz") eqn:Hs; [| reflexivity]. simpl.
      destruct (Info e) as [t |] eqn:Hi; [| reflexivity].
      exfalso. apply (Hnone e t); [apply list_elem_of_here | repeat split; assumption]. }
    rewrite Hsame. apply IH.
    intros e' t' Hin. apply Hnone. by apply list_elem_of_further. }
  rewrite H. reflexivity.
Qed.

End Latest.

(** ** C5 and C10: the order of the steps of [Restore] *)





Lemma every_impl {R} (P Q : op -> Prop) (p : prog R) :
  (forall o, P o -> Q o) -> every P p -> every Q p.
Proof.
  intros HPQ. induction p as [r | o k IH]; simpl; [trivial |].
  intros [Ho Hk]. split; [apply HPQ, Ho |]. intros x. apply IH, Hk.
Qed.

Ltac leaf := first [reflexivity | split; reflexivity | exact I].

Section RestoreSteps.
Import SystemService.

Lemma dirExists_later path : every later_op (dirExists path).
Proof. unfold dirExists. repeat every_step; leaf. Qed.

Lemma copyAll_later tasks : every later_op (copyAll tasks).
Proof.
  induction tasks as [| task rest IH]; cbn [copyAll]; [exact I |].
  repeat every_step; first [exact IH | leaf].
Qed.

Lemma applyExtractedArchive_later root : every later_op (applyExtractedArchive root).
Proof.
  unfold applyExtractedArchive.
  repeat first [simple apply dirExists_later | simple apply copyAll_later | every_step]; leaf.
Qed.

Lemma restoreFromBackup_later backupFile : every later_op (restoreFromBackup backupFile).
Proof. unfold restoreFromBackup. repeat every_step; leaf. Qed.

Lemma rollBack_later currentBackup what err :
  every later_op (rollBack currentBackup what err).
Proof.
  unfold rollBack. repeat first [simple apply restoreFromBackup_later | every_step]; leaf.
Qed.

Lemma restoreInto_later cleanPath currentBackup tmpDir :
  every later_op (restoreInto cleanPath currentBackup tmpDir).
Proof.
  unfold restoreInto.
  repeat first
    [ simple apply rollBack_later | simple apply applyExtractedArchive_later | every_step ];
    leaf.
Qed.

Lemma restoreWithSnapshot_later cleanPath currentBackup :
  every later_op (restoreWithSnapshot cleanPath currentBackup).
Proof.
  unfold restoreWithSnapshot.
  repeat first
    [ simple apply restoreInto_later | simple apply restoreFromBackup_later | every_step ];
    leaf.
Qed.

Lemma selectLatestBackup_reads dir : every read_only (selectLatestBackup dir).
Proof. unfold selectLatestBackup. repeat every_step. Qed.

Lemma resolveArchive_reads backupPath : every read_only (resolveArchive backupPath).
Proof.
  unfold resolveArchive.
  repeat first [simple apply selectLatestBackup_reads | every_step].
Qed.

Context {S : Type} (h : handler S).

(** The three ways [restoreArchive] can go: the check fails and nothing
    follows; the snapshot fails and nothing follows; or the snapshot is
    made, the rest runs, and the snapshot is removed last. *)
Lemma restoreArchive_runs (cleanPath : string) (s : S) :
  let r := run h (restoreArchive cleanPath) s in
  (trace_of r = [Event (Exec "tar" (verifyArgs cleanPath)) false]
   /\ exists err, value_of r = Some (Errorw "备份文件校验失败: %w" err))
  \/ (exists snap,
        trace_of r = [Event (Exec "tar" (verifyArgs cleanPath)) true; Event Now true;
                      Event (Exec "tar" (snapshotArgs snap)) false])
  \/ (exists snap body removed,
        trace_of r = (Event (Exec "tar" (verifyArgs cleanPath)) true :: Event Now true
                      :: Event (Exec "tar" (snapshotArgs snap)) true
                      :: body ++ [Event (Remove snap) removed])%list
        /\ Forall (fun e => later_op (ev_op e)) body).
Proof.
  unfold restoreArchive, ExecuteSimple, time_Now_Unix, call.
  cbn [bind run].
  destruct (h (Exec "tar" (verifyArgs cleanPath)) s) as [[out err] s1].
  destruct err as [e |]; cbn [snd succeeded is_nil bind run].
  { left. split; [reflexivity | exists e; reflexivity]. }
  right.
  destruct (h Now s1) as [now s2]. cbn [bind run].
  match goal with |- context [snapshotArgs ?x] => set (snap := x) end.
  destruct (h (Exec "tar" (snapshotArgs snap)) s2) as [[out2 err2] s3].
  destruct err2 as [e |]; cbn [snd succeeded is_nil bind run].
  { left. exists snap. reflexivity. }
  right.
  rewrite run_bind.
  pose proof (every_trace h later_op _ s3 (restoreWithSnapshot_later cleanPath snap))
    as Hbody.
  destruct (run h (restoreWithSnapshot cleanPath snap) s3) as [[r s4] body].
  unfold os_Remove, call. cbn [bind run].
  destruct (h (Remove snap) s4) as [x s5].
  exists snap, body, (succeeded (Remove snap) x).
  split; [reflexivity | exact Hbody].
Qed.

End RestoreSteps.

Lemma read_only_not_tar (flag : string) (o : op) : read_only o -> is_tar flag o = false.
Proof. destruct o; simpl; intros H; first [reflexivity | destruct H]. Qed.

(** C5.  In whatever environment, when the check of the archive
    ([tar -tzf]) fails during [Restore], that check is the last call of
    the run, [Restore] returns the error "archive check failed", and every
    call before it only looked at the file system ([os.Stat],
    [os.ReadDir]): no service is stopped, no snapshot is taken, nothing is
    extracted or copied. *)
Theorem corrupt_archive_aborts_before_stop
  {S : Type} (h : handler S) (s : S) (backupPath : string) :
  let r := run h (SystemService.Restore backupPath) s in
  Exists (fun e => is_verify (ev_op e) = true /\ ev_ok e = false) (trace_of r) ->
  exists reads cleanPath err,
    trace_of r = (reads ++ [Event (Exec "tar" (SystemService.verifyArgs cleanPath)) false])%list
    /\ Forall (fun e => read_only (ev_op e)) reads
    /\ value_of r = Some (Errorw "备份文件校验失败: %w" err).
Proof.
  unfold SystemService.Restore. rewrite run_bind.
  pose proof (every_trace h read_only _ s (resolveArchive_reads backupPath)) as Hreads.
  destruct (run h (SystemService.resolveArchive backupPath) s) as [[res s1] reads].
  unfold trace_of in Hreads. simpl in Hreads.
  assert (Hquiet : ~ Exists (fun e => is_verify (ev_op e) = true /\ ev_ok e = false) reads).
  { intros Hex. apply Exists_exists in Hex as (e & Hin & Hv & _).
    rewrite Forall_forall in Hreads.
    unfold is_verify in Hv.
    rewrite (read_only_not_tar _ _ (Hreads e Hin)) in Hv. discriminate. }
  destruct res as [cleanPath | err0].
  - pose proof (restoreArchive_runs h cleanPath s1) as Hruns.
    destruct (run h (SystemService.restoreArchive cleanPath) s1) as [[r s2] tr2].
    unfold trace_of, value_of in *. simpl in *.
    intros Hex. apply Exists_app in Hex as [Hex | Hex]; [contradiction |].
    destruct Hruns as [[-> [err ->]] | [[snap ->] | (snap & body & removed & -> & Hbody)]].
    + exists reads, cleanPath, err. auto.
    + exfalso. repeat (apply Exists_cons in Hex as [[Hv Hok] | Hex]; [simpl in *; discriminate |]).
      by apply Exists_nil in Hex.
    + exfalso.
      do 3 (apply Exists_cons in Hex as [[Hv Hok] | Hex]; [simpl in *; discriminate |]).
      apply Exists_app in Hex as [Hex | Hex].
      * apply Exists_exists in Hex as (e & Hin & Hv & _).
        rewrite Forall_forall in Hbody. destruct (Hbody e Hin) as [Hnv _].
        rewrite Hnv in Hv. discriminate.
      * apply Exists_cons in Hex as [[Hv Hok] | Hex]; [simpl in *; discriminate |].
        by apply Exists_nil in Hex.
  - unfold trace_of. simpl. rewrite app_nil_r. intros Hex. contradiction.
Qed.

(** C10.  In whatever environment, when the snapshot of the current
    configuration ([tar -czf]) has been made during [Restore], the last
    call of the run is [os.Remove] on that snapshot: on success, after a
    rollback that worked, and after a rollback that failed alike. *)
Theorem snapshot_removed_on_every_return
  {S : Type} (h : handler S) (s : S) (backupPath currentBackup : string) :
  let r := run h (SystemService.Restore backupPath) s in
  Event (Exec "tar" (SystemService.snapshotArgs currentBackup)) true ∈ trace_of r ->
  exists before rest removed,
    trace_of r =
      (before ++ Event (Exec "tar" (SystemService.snapshotArgs currentBackup)) true
         :: rest ++ [Event (Remove currentBackup) removed])%list.
Proof.
  unfold SystemService.Restore. rewrite run_bind.
  pose proof (every_trace h read_only _ s (resolveArchive_reads backupPath)) as Hreads.
  destruct (run h (SystemService.resolveArchive backupPath) s) as [[res s1] reads].
  unfold trace_of in Hreads. simpl in Hreads.
  assert (Hquiet : Event (Exec "tar" (SystemService.snapshotArgs currentBackup)) true ∉ reads).
  { intros Hin. rewrite Forall_forall in Hreads. apply (Hreads _ Hin). }
  destruct res as [cleanPath | err0].
  - pose proof (restoreArchive_runs h cleanPath s1) as Hruns.
    destruct (run h (SystemService.restoreArchive cleanPath) s1) as [[r s2] tr2].
    unfold trace_of in *. simpl in *.
    intros Hin. apply elem_of_app in Hin as [Hin | Hin]; [contradiction |].
    destruct Hruns as [[-> _] | [[snap ->] | (snap & body & removed & -> & Hbody)]].
    + exfalso. apply list_elem_of_singleton in Hin. discriminate.
    + exfalso. repeat (apply elem_of_cons in Hin as [Hin | Hin]; [discriminate |]).
      by apply elem_of_nil in Hin.
    + do 2 (apply elem_of_cons in Hin as [Hin | Hin]; [discriminate |]).
      apply elem_of_cons in Hin as [Hin | Hin].
      * injection Hin as ->.
        exists (reads ++ [Event (Exec "tar" (SystemService.verifyArgs cleanPath)) true;
                          Event Now true])%list, body, removed.
        rewrite <- app_assoc. reflexivity.
      * exfalso. apply elem_of_app in Hin as [Hin | Hin].
        -- rewrite Forall_forall in Hbody. destruct (Hbody _ Hin) as [_ Hns].
           discriminate.
        -- apply list_elem_of_singleton in Hin. discriminate.
  - unfold trace_of. simpl. rewrite app_nil_r. intros Hin. contradiction.
Qed.

(** ** Paths: [Clean], [Dir] and the elements of a path *)

Section Paths.
Import GoStrings Filepath.

Lemma sapp_cons (x : ascii) (a b : string) : String x a ++ b = String x (a ++ b).
Proof. reflexivity. Qed.

Lemma sapp_assoc (a b c : string) : (a ++ b) ++ c = a ++ (b ++ c).
Proof.
  induction a as [| x a IH]; [reflexivity |]. rewrite !sapp_cons. by rewrite IH.
Qed.

Lemma sapp_nil_r (a : string) : a ++ "" = a.
Proof.
  induction a as [| x a IH]; [reflexivity |]. rewrite sapp_cons. by rewrite IH.
Qed.

Lemma Split_no_slash (x : string) : no_slash x -> Split x slash = [x].
Proof.
  induction x as [| a x IH]; cbn [Split no_slash]; [reflexivity |].
  intros [Ha Hx]. destruct (Ascii.eqb_spec a slash) as [-> | _]; [contradiction |].
  by rewrite IH.
Qed.

Lemma Split_pieces (s : string) : Forall no_slash (Split s slash).
Proof.
  induction s as [| a s IH]; cbn [Split]; [repeat constructor |].
  destruct (Ascii.eqb_spec a slash) as [-> | Hne].
  - constructor; [exact I | exact IH].
  - destruct (Split s slash) as [| x xs]; [repeat constructor; assumption |].
    inversion IH; subst. constructor; [split; assumption | assumption].
Qed.

Lemma Split_app_slash (x r : string) :
  no_slash x -> Split (x ++ String slash r) slash = x :: Split r slash.
Proof.
  induction x as [| a x IH]; cbn [no_slash]; [reflexivity |].
  intros [Ha Hx]. rewrite sapp_cons. cbn [Split].
  destruct (Ascii.eqb_spec a slash) as [-> | _]; [contradiction |].
  by rewrite IH.
Qed.

(** The pieces of plain elements joined by separators, with a separator
    at the end or not, are the elements, and an empty piece for the
    separator at the end. *)
Lemma Join_cons2 (x y : string) (l : list string) :
  GoStrings.Join (x :: y :: l) "/" = x ++ "/" ++ GoStrings.Join (y :: l) "/".
Proof. reflexivity. Qed.

Lemma Split_Join (cs : list string) (tail : list string) :
  Forall no_slash cs -> cs <> [] -> tail = [] \/ tail = [""] ->
  Split (GoStrings.Join cs "/" ++ (if tail is [] then "" else "/")) slash
  = (cs ++ tail)%list.
Proof.
  intros Hall Hne Htail. induction cs as [| x cs IH]; [contradiction |].
  inversion Hall as [| ? ? Hx Hcs]; subst.
  destruct cs as [| y cs].
  - change (GoStrings.Join [x] "/") with x.
    destruct Htail as [-> | ->]; cbn [app].
    + rewrite sapp_nil_r. by apply Split_no_slash.
    + change (x ++ "/") with (x ++ String slash ""). by rewrite Split_app_slash.
  - rewrite Join_cons2.
    match goal with |- Split (_ ++ ?t) slash = _ =>
      assert (E : (x ++ "/" ++ GoStrings.Join (y :: cs) "/") ++ t
                  = x ++ String slash (GoStrings.Join (y :: cs) "/" ++ t))
        by (rewrite !sapp_assoc; reflexivity);
      rewrite E
    end.
    rewrite Split_app_slash by exact Hx.
    change ((x :: y :: cs) ++ tail)%list with (x :: ((y :: cs) ++ tail))%list. f_equal.
    apply IH; [exact Hcs | discriminate].
Qed.

(** In a rooted path, [Clean]'s scan keeps plain elements only. *)
Lemma clean_step_plain (out : list string) (c : string) :
  no_slash c -> Forall plain out ->
  exists out', clean_step true (out, O) c = (out', O) /\ Forall plain out'.
Proof.
  intros Hc Hout. unfold clean_step.
  destruct (String.eqb_spec c "") as [-> | H1]; [eauto |].
  destruct (String.eqb_spec c ".") as [-> | H2]; [eauto |].
  destruct (String.eqb_spec c "..") as [-> | H3].
  - destruct (0 <? List.length out)%nat; [| eauto].
    exists (List.tl out). split; [reflexivity |].
    destruct out; [constructor | by inversion Hout].
  - exists (c :: out). split; [reflexivity |]. constructor; [| exact Hout].
    repeat split; assumption.
Qed.

Lemma clean_fold_plain (cs out : list string) :
  Forall no_slash cs -> Forall plain out ->
  exists out', fold_left (clean_step true) cs (out, O) = (out', O) /\ Forall plain out'.
Proof.
  revert out. induction cs as [| c cs IH]; intros out Hcs Hout; cbn [fold_left]; [eauto |].
  inversion Hcs; subst.
  destruct (clean_step_plain out c) as (out1 & -> & Hout1); [assumption .. |].
  by apply IH.
Qed.

Lemma clean_elems_plain (s : string) : Forall plain (clean_elems true (Split s slash)).
Proof.
  unfold clean_elems.
  destruct (clean_fold_plain (Split s slash) []) as (out & -> & Hout);
    [apply Split_pieces | constructor |].
  cbn [fst]. by apply Forall_rev.
Qed.

(** ... and keeps all of them when they are all plain; empty elements
    are dropped. *)
Lemma clean_fold_keeps (cs out : list string) :
  Forall plain cs ->
  fold_left (clean_step true) cs (out, O) = ((rev cs ++ out)%list, O).
Proof.
  revert out. induction cs as [| c cs IH]; intros out Hcs; cbn [fold_left]; [reflexivity |].
  inversion Hcs as [| ? ? (H1 & H2 & H3 & _) Hrest]; subst.
  unfold clean_step at 2.
  destruct (String.eqb_spec c "") as [-> | _]; [contradiction |].
  destruct (String.eqb_spec c ".") as [-> | _]; [contradiction |].
  destruct (String.eqb_spec c "..") as [-> | _]; [contradiction |].
  rewrite IH by exact Hrest. cbn [rev]. by rewrite <- app_assoc.
Qed.

Lemma plain_no_slash (cs : list string) : Forall plain cs -> Forall no_slash cs.
Proof. intros H. eapply Forall_impl; [exact H |]. by intros c (_ & _ & _ & Hc). Qed.

(** The elements of the rooted path written from plain elements, with a
    separator at the end or not, are those elements. *)
Lemma key_of_plain (cs : list string) (tail : list string) :
  Forall plain cs -> tail = [] \/ tail = [""] ->
  FS.key (String slash (GoStrings.Join cs "/" ++ (if tail is [] then "" else "/"))) = cs.
Proof.
  intros Hcs Htail. unfold FS.key, clean_elems. cbn [Split Ascii.eqb Bool.eqb slash].
  destruct cs as [| c cs'].
  - destruct Htail as [-> | ->]; reflexivity.
  - rewrite Split_Join; [| by apply plain_no_slash | discriminate | exact Htail].
    cbn [fold_left]. unfold clean_step at 2. cbn [String.eqb].
    rewrite fold_left_app, clean_fold_keeps by exact Hcs.
    rewrite app_nil_r.
    destruct Htail as [-> | ->]; cbn [fold_left clean_step String.eqb fst];
      apply rev_involutive.
Qed.

Lemma Clean_rooted (s : string) :
  is_rooted s = true ->
  Clean s = String slash (GoStrings.Join (clean_elems true (Split s slash)) "/").
Proof.
  intros Hroot. unfold Clean. destruct s as [| a s']; [discriminate |].
  cbn [String.eqb]. rewrite Hroot. reflexivity.
Qed.

(** Cleaning a rooted path does not change where it leads. *)
Lemma key_Clean (s : string) : is_rooted s = true -> FS.key (Clean s) = FS.key s.
Proof.
  intros Hroot. rewrite Clean_rooted by exact Hroot.
  pose proof (key_of_plain (clean_elems true (Split s slash)) []
                (clean_elems_plain s) (or_introl eq_refl)) as Hkey.
  cbn iota in Hkey. rewrite sapp_nil_r in Hkey. exact Hkey.
Qed.

Lemma upto_no_slash (x : string) : no_slash x -> upto_last_slash x = "".
Proof.
  induction x as [| a x IH]; cbn [upto_last_slash no_slash]; [reflexivity |].
  intros [Ha Hx]. rewrite IH by exact Hx. cbn [String.eqb].
  destruct (Ascii.eqb_spec a slash) as [-> | _]; [contradiction | reflexivity].
Qed.

Lemma upto_app (a x : string) :
  no_slash x -> upto_last_slash (a ++ String slash x) = a ++ "/".
Proof.
  intros Hx. induction a as [| c a IH].
  - change ("" ++ String slash x) with (String slash x). cbn [upto_last_slash].
    rewrite upto_no_slash by exact Hx. reflexivity.
  - rewrite !sapp_cons. cbn [upto_last_slash].
    rewrite IH. destruct (a ++ "/") eqn:Ha; [destruct a; discriminate |].
    reflexivity.
Qed.

Lemma Join_snoc (l : list string) (x : string) :
  l <> [] -> GoStrings.Join (l ++ [x]) "/" = GoStrings.Join l "/" ++ "/" ++ x.
Proof.
  induction l as [| y l IH]; [contradiction |]. intros _.
  destruct l as [| z l]; [reflexivity |].
  change ((y :: z :: l) ++ [x])%list with (y :: z :: (l ++ [x]))%list.
  rewrite !Join_cons2.
  change (z :: (l ++ [x]))%list with ((z :: l) ++ [x])%list.
  rewrite IH by discriminate.
  by rewrite !sapp_assoc.
Qed.

(** [Dir] of a cleaned rooted path leads to the parent. *)
Lemma key_Dir_plain (cs : list string) :
  Forall plain cs ->
  FS.key (Dir (String slash (GoStrings.Join cs "/"))) = removelast cs.
Proof.
  unfold Dir. induction cs as [| x l _] using rev_ind; intros Hcs; [reflexivity |].
  rewrite removelast_last.
  apply Forall_app in Hcs as [Hl Hx]. inversion Hx as [| ? ? (_ & _ & _ & Hns) _]; subst.
  assert (Hupto : upto_last_slash (String slash (GoStrings.Join (l ++ [x]) "/"))
                  = String slash (GoStrings.Join l "/" ++ (if l is [] then "" else "/"))).
  { destruct l as [| y l].
    - cbn [app GoStrings.Join]. change (String slash x) with ("" ++ String slash x).
      by rewrite upto_app.
    - rewrite Join_snoc by discriminate.
      change (String slash (GoStrings.Join (y :: l) "/" ++ "/" ++ x))
        with ((String slash (GoStrings.Join (y :: l) "/")) ++ String slash x).
      by rewrite upto_app. }
  rewrite Hupto, key_Clean by reflexivity.
  destruct l as [| y l].
  - reflexivity.
  - apply (key_of_plain (y :: l) [""]); [exact Hl | by right].
Qed.

Lemma key_Dir_Clean (s : string) :
  is_rooted s = true -> FS.key (Dir (Clean s)) = FS.parent (FS.key (Clean s)).
Proof.
  intros Hroot. rewrite key_Clean by exact Hroot. rewrite Clean_rooted by exact Hroot.
  rewrite key_Dir_plain by apply clean_elems_plain. reflexivity.
Qed.

(** For the paths of the store: the directory that [filepath.Dir] names
    is the parent. *)
Lemma key_Dir_availablePath (domain : string) :
  FS.key (Dir (SiteService.availablePath domain))
  = FS.parent (FS.key (SiteService.availablePath domain)).
Proof. apply key_Dir_Clean. reflexivity. Qed.

End Paths.

(** ** The file tree: what each call does to it *)

Module FSFacts.
Import FS FSCases.

Lemma node_at_None_ne (t : tree) (k : list string) : node_at t k = None -> k <> [].
Proof. intros H ->. discriminate. Qed.

Lemma node_at_lookup (t : tree) (k : list string) : k <> [] -> node_at t k = t !! k.
Proof. destruct k; [contradiction | reflexivity]. Qed.

Lemma node_at_insert (t : tree) (k q : list string) (n : node) :
  k <> [] ->
  node_at (<[k := n]> t) q = if decide (q = k) then Some n else node_at t q.
Proof.
  intros Hk. destruct q as [| c q'].
  - simpl. destruct (decide ([] = k)) as [<- | _]; [contradiction | reflexivity].
  - cbn [node_at]. rewrite lookup_insert.
    destruct (decide (k = c :: q')), (decide (c :: q' = k)); congruence.
Qed.

Lemma node_at_delete (t : tree) (k q : list string) :
  k <> [] ->
  node_at (delete k t) q = if decide (q = k) then None else node_at t q.
Proof.
  intros Hk. destruct q as [| c q'].
  - simpl. destruct (decide ([] = k)) as [<- | _]; [contradiction | reflexivity].
  - cbn [node_at]. rewrite lookup_delete.
    destruct (decide (k = c :: q')), (decide (c :: q' = k)); congruence.
Qed.

(** Where a path leads is not a link. *)
Lemma resolve_final (t : tree) (fuel : nat) (k q : list string) :
  resolve t fuel k = Some q -> forall target, node_at t q <> Some (Link target).
Proof.
  revert k. induction fuel as [| fuel IH]; intros k; simpl.
  - destruct (node_at t k) as [[| |] |] eqn:Hn; intros Hq; simplify_eq;
      intros target; congruence.
  - destruct (node_at t k) as [[| |] |] eqn:Hn; intros Hq; simplify_eq;
      try (intros target'; congruence).
    eapply IH, Hq.
Qed.

Lemma resolve_not_link (t : tree) (fuel : nat) (k : list string) :
  (forall target, node_at t k <> Some (Link target)) -> resolve t fuel k = Some k.
Proof.
  intros Hk. destruct fuel; simpl;
    destruct (node_at t k) as [[| target |] |] eqn:Hn; try reflexivity;
    exfalso; eapply Hk; reflexivity.
Qed.

(** Putting a regular file where a path leads does not change where the
    path leads. *)
Lemma resolve_insert_file (t : tree) (fuel : nat) (k q : list string) (data : string) :
  resolve t fuel k = Some q -> q <> [] ->
  resolve (<[q := File data]> t) fuel k = Some q.
Proof.
  intros Hres Hq. pose proof (resolve_final _ _ _ _ Hres) as Hfinal.
  revert k Hres. induction fuel as [| fuel IH]; intros k; simpl;
    rewrite node_at_insert by exact Hq;
    destruct (decide (k = q)) as [-> | Hne].
  - reflexivity.
  - destruct (node_at t k) as [[| |] |]; intros; simplify_eq; reflexivity.
  - reflexivity.
  - destruct (node_at t k) as [[| target |] |] eqn:Hn; intros Hres; simplify_eq;
      try reflexivity.
    apply IH, Hres.
Qed.


Lemma open_trunc_cases (t : tree) (k : list string) (data : string) :
  opened t k data (open_trunc t k data).
Proof.
  unfold open_trunc.
  destruct (resolve t max_links k) as [q |] eqn:Hres; [| constructor].
  destruct (node_at t q) as [[body | target |] |] eqn:Hn; try constructor.
  - exact Hres.
  - intros ->. discriminate.
  - right. eauto.
  - destruct (is_dir t (parent q)); constructor.
    + exact Hres.
    + by eapply node_at_None_ne.
    + left. exact Hn.
Qed.

Lemma read_after_open (t t' : tree) (k q : list string) (data : string) :
  open_trunc t k data = (Ok q, t') -> read_file t' k = Ok data.
Proof.
  intros Hopen. pose proof (open_trunc_cases t k data) as Hcases.
  rewrite Hopen in Hcases. inversion Hcases as [q' Hres Hq Hnode |]; subst.
  unfold read_file. rewrite (resolve_insert_file _ _ _ _ _ Hres Hq).
  rewrite node_at_insert by exact Hq. rewrite decide_True by reflexivity.
  reflexivity.
Qed.

(** Reading a file and writing the same text back leaves the tree as it
    is. *)
Lemma write_back (t : tree) (k : list string) (body : string) :
  read_file t k = Ok body -> write_file t k body = (None, t).
Proof.
  unfold read_file, write_file, open_trunc.
  destruct (resolve t max_links k) as [q |]; [| discriminate].
  destruct (node_at t q) as [[body' | target |] |] eqn:Hn; try discriminate.
  intros [= ->]. f_equal. apply insert_id.
  destruct q; [discriminate | exact Hn].
Qed.

(** A file can be written again, and writing twice is writing the
    second text. *)
Lemma write_twice (t t1 : tree) (k : list string) (d1 d2 : string) :
  write_file t k d1 = (None, t1) ->
  write_file t1 k d2 = (None, snd (write_file t k d2)) /\ fst (write_file t k d2) = None.
Proof.
  unfold write_file. intros H1.
  pose proof (open_trunc_cases t k d1) as Hcases.
  destruct (open_trunc t k d1) as [[q | e] t1'] eqn:Hopen; [| discriminate].
  injection H1 as ->.
  inversion Hcases as [q' Hres Hq Hnode |]; subst.
  assert (Ht : open_trunc t k d2 = (Ok q, <[q := File d2]> t)).
  { unfold open_trunc in *. rewrite Hres in *.
    destruct Hnode as [Hn | [body Hn]]; rewrite Hn in *.
    - destruct (is_dir t (parent q)); [reflexivity | discriminate].
    - reflexivity. }
  rewrite Ht. simpl. split; [| reflexivity].
  unfold open_trunc. rewrite (resolve_insert_file _ _ _ _ _ Hres Hq).
  rewrite node_at_insert by exact Hq. rewrite decide_True by reflexivity.
  rewrite insert_insert_eq. reflexivity.
Qed.


Lemma remove_cases (t : tree) (k : list string) : removed t k (remove t k).
Proof.
  unfold remove. destruct k as [| c k']; [constructor; discriminate |].
  destruct (t !! (c :: k')) as [[body | target |] |] eqn:Hn.
  - econstructor; [discriminate | exact Hn].
  - econstructor; [discriminate | exact Hn].
  - destruct (has_children t (c :: k')).
    + constructor; simpl; rewrite Hn; discriminate.
    + econstructor; [discriminate | exact Hn].
  - constructor; simpl; rewrite Hn; discriminate.
Qed.


Lemma symlink_cases (t : tree) (oldname : string) (k : list string) :
  linked t oldname k (symlink t oldname k).
Proof.
  unfold symlink. destruct (node_at t k) as [n |] eqn:Hn.
  - constructor. left. eauto.
  - destruct (is_dir t (parent k)) eqn:Hd.
    + constructor; [by eapply node_at_None_ne | exact Hn | exact Hd].
    + constructor. right. exact Hd.
Qed.

Lemma grown_refl (t : tree) : grown t t.
Proof. intros q. by left. Qed.

Lemma grown_trans (t1 t2 t3 : tree) : grown t1 t2 -> grown t2 t3 -> grown t1 t3.
Proof.
  intros H12 H23 q. destruct (H12 q) as [E12 | [N1 D2]], (H23 q) as [E23 | [N2 D3]].
  - left. congruence.
  - right. split; congruence.
  - right. split; congruence.
  - congruence.
Qed.

Lemma mkdir_grown (t t' : tree) (k : list string) (e : option error) :
  mkdir t k = (e, t') -> grown t t'.
Proof.
  unfold mkdir. destruct (node_at t k) as [n |] eqn:Hn.
  - intros [= _ <-]. apply grown_refl.
  - destruct (is_dir t (parent k)); intros [= _ <-]; [| apply grown_refl].
    intros q. rewrite node_at_insert by (by eapply node_at_None_ne).
    destruct (decide (q = k)) as [-> | _]; [right | left]; auto.
Qed.

Lemma mkdir_all_grown (rk : list string) (t t' : tree) (e : option error) :
  mkdir_all t rk = (e, t') -> grown t t'.
Proof.
  revert t t' e. induction rk as [| c rk IH]; intros t t' e; cbn [mkdir_all].
  - destruct (stat t (rev [])) as [info | err].
    + destruct (IsDir info); intros [= _ <-]; apply grown_refl.
    + intros [= _ <-]. apply grown_refl.
  - destruct (stat t (rev (c :: rk))) as [info | err].
    + destruct (IsDir info); intros [= _ <-]; apply grown_refl.
    + destruct (mkdir_all t rk) as [[e1 |] t1] eqn:Hrec.
      * intros [= _ <-]. eapply IH, Hrec.
      * intros Hmk. eapply grown_trans; [eapply IH, Hrec | eapply mkdir_grown, Hmk].
Qed.

(** [os.MkdirAll] on a directory that is there does nothing. *)
Lemma mkdir_all_dir (t : tree) (rk : list string) :
  is_dir t (rev rk) = true -> mkdir_all t rk = (None, t).
Proof.
  unfold is_dir. intros Hd.
  assert (Hstat : stat t (rev rk) = Ok {| IsDir := true; IsSymlink := false |}).
  { destruct (node_at t (rev rk)) as [[| |] |] eqn:Hn; try discriminate.
    unfold stat, max_links. cbn [resolve]. rewrite Hn. cbn iota. rewrite Hn.
    reflexivity. }
  destruct rk; cbn [mkdir_all]; rewrite Hstat; reflexivity.
Qed.

Lemma read_file_regular (t : tree) (k : list string) (body : string) :
  node_at t k = Some (File body) -> read_file t k = Ok body.
Proof.
  intros Hn. unfold read_file.
  rewrite resolve_not_link by (intros target; congruence).
  by rewrite Hn.
Qed.

Lemma is_dir_insert_ne (t : tree) (k q : list string) (n : node) :
  k <> [] -> q <> k -> is_dir (<[k := n]> t) q = is_dir t q.
Proof.
  intros Hk Hq. unfold is_dir. rewrite node_at_insert by exact Hk.
  by rewrite decide_False.
Qed.

Lemma is_dir_delete_ne (t : tree) (k q : list string) :
  k <> [] -> q <> k -> is_dir (delete k t) q = is_dir t q.
Proof.
  intros Hk Hq. unfold is_dir. rewrite node_at_delete by exact Hk.
  by rewrite decide_False.
Qed.

Lemma write_file_fresh (t : tree) (k : list string) (data : string) :
  node_at t k = None -> is_dir t (parent k) = true ->
  write_file t k data = (None, <[k := File data]> t).
Proof.
  intros Hn Hd. unfold write_file, open_trunc.
  rewrite resolve_not_link by (intros target; congruence).
  by rewrite Hn, Hd.
Qed.

Lemma remove_absent (t : tree) (k : list string) :
  node_at t k = None -> snd (remove t k) = t.
Proof.
  intros Hn. pose proof (remove_cases t k) as Hrm.
  destruct (remove t k) as [e t']. inversion Hrm; subst; [congruence | reflexivity].
Qed.

Lemma remove_leaf (t : tree) (k : list string) (n : node) :
  node_at t k = Some n -> n <> Dir -> k <> [] -> remove t k = (None, delete k t).
Proof.
  intros Hn Hnd Hk. unfold remove. destruct k as [| c k']; [contradiction |].
  cbn [node_at] in Hn. rewrite Hn. destruct n; [reflexivity | reflexivity | contradiction].
Qed.

Lemma symlink_fresh (t : tree) (oldname : string) (k : list string) :
  node_at t k = None -> is_dir t (parent k) = true ->
  symlink t oldname k = (None, <[k := Link oldname]> t).
Proof. intros Hn Hd. unfold symlink. by rewrite Hn, Hd. Qed.

Lemma dirs_from_is_dir (t : tree) (done rest : list string) :
  is_dir t done = true -> dirs_from t done rest = true -> is_dir t (done ++ rest) = true.
Proof.
  revert done. induction rest as [| c rest IH]; intros done Hdone; cbn [dirs_from].
  - by rewrite app_nil_r.
  - intros [Hc Hrest]%andb_prop.
    change (c :: rest) with ([c] ++ rest)%list. rewrite app_assoc. by apply IH.
Qed.

Lemma real_dir_is_dir (t : tree) (k : list string) : real_dir t k = true -> is_dir t k = true.
Proof. intros H. by apply (dirs_from_is_dir t [] k). Qed.

Lemma missing_from_plain (t : tree) (done rest : list string) :
  dirs_from t done (removelast rest) = true -> missing_from t done rest = ENOENT.
Proof.
  revert done. induction rest as [| c rest IH]; intros done; [reflexivity |].
  destruct rest as [| c' rest]; [reflexivity |].
  change (removelast (c :: c' :: rest)) with (c :: removelast (c' :: rest)).
  cbn [dirs_from missing_from]. intros [Hc Hrest]%andb_prop.
  unfold is_dir in Hc. destruct (node_at t (done ++ [c])) as [[| |] |]; try discriminate.
  by apply IH.
Qed.

(** In a directory that is reached through directories, what is missing
    is reported as "no such file". *)
Lemma missing_in_real_dir (t : tree) (k : list string) :
  real_dir t (parent k) = true -> missing t k = PathError ENOENT.
Proof. intros H. unfold missing. f_equal. by apply missing_from_plain. Qed.

(** Taking away what is not a directory leaves the directories reached
    through directories as they are. *)
Lemma dirs_from_delete (t : tree) (q done rest : list string) :
  node_at t q <> Some Dir ->
  dirs_from t done rest = true -> dirs_from (delete q t) done rest = true.
Proof.
  intros Hq. revert done. induction rest as [| c rest IH]; intros done; [reflexivity |].
  cbn [dirs_from]. intros [Hc Hrest]%andb_prop. apply andb_true_intro. split; [| by apply IH].
  rewrite is_dir_delete_ne; [exact Hc | intros ->; by apply Hq |].
  intros Heq. unfold is_dir in Hc. rewrite <- Heq in Hq.
  destruct (node_at t (done ++ [c])) as [[| |] |]; try discriminate. by apply Hq.
Qed.

End FSFacts.

(** ** The services in the environment with a file tree *)

Section FSRuns.
Import FS FSCases FSFacts.
Variable ext : outside.

Lemma after_ret {R} (r : R) (w : world) : after ext (Ret r) w = (r, w).
Proof. reflexivity. Qed.

Lemma after_bind {A B} (p : prog A) (f : A -> prog B) (w : world) :
  after ext (bind p f) w = let '(a, w1) := after ext p w in after ext (f a) w1.
Proof.
  unfold after, value_of, state_of. rewrite run_bind.
  destruct (run (handle_op ext) p w) as [[a w1] tr1]. cbn [fst snd].
  destruct (run (handle_op ext) (f a) w1) as [[b w2] tr2]. reflexivity.
Qed.

Lemma after_call (o : op) (w : world) : after ext (call o) w = handle_op ext o w.
Proof.
  unfold after, call. simpl. destruct (handle_op ext o w) as [x w1]. reflexivity.
Qed.

(** Commands leave the tree alone. *)
Lemma after_ExecuteSimple name args (w : world) :
  files (snd (after ext (ExecuteSimple name args) w)) = files w.
Proof. unfold ExecuteSimple. rewrite (after_call (Exec name args)). reflexivity. Qed.

Lemma after_Reload (w : world) :
  files (snd (after ext SystemService.Reload w)) = files w.
Proof.
  unfold SystemService.Reload. rewrite after_bind.
  pose proof (after_ExecuteSimple model.NginxSbinPath ["-t"] w) as H1.
  destruct (after ext (ExecuteSimple model.NginxSbinPath ["-t"]) w) as [[out err] w1].
  cbn [snd] in *. destruct err as [e |].
  - rewrite after_ret. exact H1.
  - rewrite after_bind.
    pose proof (after_ExecuteSimple "systemctl" ["reload"; "nginx"] w1) as H2.
    destruct (after ext (ExecuteSimple "systemctl" ["reload"; "nginx"]) w1) as [out2 w2].
    rewrite after_ret. cbn [snd] in *. congruence.
Qed.

Lemma after_ReadSiteRaw domain (w : world) :
  after ext (SiteService.ReadSiteRaw domain) w
  = (read_file (files w) (key (SiteService.availablePath domain)), w).
Proof. exact (after_call (ReadFile _) w). Qed.

Lemma after_WriteSiteRaw domain content (w : world) :
  after ext (SiteService.WriteSiteRaw domain content) w
  = on_files w (write_file (files w) (key (SiteService.availablePath domain)) content).
Proof. exact (after_call (WriteFile _ _) w). Qed.

Lemma after_os_Create name (w : world) :
  after ext (os_Create name) w = on_files w (create (files w) (key name)).
Proof. exact (after_call (Create name) w). Qed.

Lemma after_file_Write f data (w : world) :
  after ext (file_Write f data) w = on_files w (fwrite (files w) f data).
Proof. exact (after_call (Fwrite f data) w). Qed.

Lemma after_os_Remove name (w : world) :
  after ext (os_Remove name) w = on_files w (remove (files w) (key name)).
Proof. exact (after_call (Remove name) w). Qed.

Lemma after_os_Symlink oldname newname (w : world) :
  after ext (os_Symlink oldname newname) w
  = on_files w (symlink (files w) oldname (key newname)).
Proof. exact (after_call (Symlink oldname newname) w). Qed.

Lemma after_os_MkdirAll path (w : world) :
  after ext (os_MkdirAll path) w = on_files w (mkdir_all (files w) (rev (key path))).
Proof. exact (after_call (MkdirAll path) w). Qed.

Lemma after_os_WriteFile name data (w : world) :
  after ext (os_WriteFile name data) w
  = on_files w (write_file (files w) (key name) data).
Proof. exact (after_call (WriteFile name data) w). Qed.

Lemma after_os_Stat name (w : world) :
  after ext (os_Stat name) w = (stat (files w) (key name), w).
Proof. exact (after_call (Stat name) w). Qed.

Lemma after_os_Lstat name (w : world) :
  after ext (os_Lstat name) w = (lstat (files w) (key name), w).
Proof. exact (after_call (Lstat name) w). Qed.


(** What [publish] leaves when it returns no error, where the available
    path holds no link: the activation link, and the text in the
    available copy unless both paths are the same. *)
Lemma publish_ok pa pe text failed (w w1 : world) :
  (forall target, node_at (files w) (key pa) <> Some (Link target)) ->
  after ext (publish pa pe text failed) w = (None, w1) ->
  node_at (files w1) (key pe) = Some (Link pa)
  /\ (key pa <> key pe -> node_at (files w1) (key pa) = Some (File text)).
Proof.
  intros Hnolink. unfold publish.
  rewrite after_bind, after_os_Create. unfold create.
  pose proof (open_trunc_cases (files w) (key pa) "") as Hopen.
  destruct (open_trunc (files w) (key pa) "") as [[f | e] t1];
    cbn [on_files fst snd]; [| rewrite after_ret; discriminate].
  inversion Hopen as [q Hres Hq Hnode |]; subst.
  rewrite resolve_not_link in Hres by exact Hnolink.
  injection Hres as <-.
  rewrite after_bind, after_file_Write. cbn [files]. unfold fwrite.
  rewrite node_at_insert by exact Hq. rewrite decide_True by reflexivity.
  cbn [on_files fst snd clock].
  destruct failed as [e |]; [rewrite after_ret; discriminate |].
  rewrite after_bind, after_os_Remove. cbn [files].
  match goal with |- context [remove ?t (key pe)] => set (t2 := t) end.
  pose proof (remove_cases t2 (key pe)) as Hrm.
  destruct (remove t2 (key pe)) as [e3 t3]. cbn [on_files fst snd clock].
  rewrite after_os_Symlink. cbn [files].
  pose proof (symlink_cases t3 pa (key pe)) as Hln.
  destruct (symlink t3 pa (key pe)) as [[e4 |] t4]; cbn [on_files fst snd];
    [discriminate |].
  intros [= <-]. cbn [files].
  inversion Hln as [Hpe Hfree Hdir |]; subst.
  split.
  - rewrite node_at_insert by exact Hpe. by rewrite decide_True.
  - intros Hne. rewrite node_at_insert by exact Hpe.
    rewrite decide_False by exact Hne.
    inversion Hrm as [n Hpe' Hn | e' _ _]; subst.
    + rewrite node_at_delete by exact Hpe. rewrite decide_False by exact Hne.
      unfold t2. rewrite node_at_insert by exact Hq. by rewrite decide_True.
    + unfold t2. rewrite node_at_insert by exact Hq. by rewrite decide_True.
Qed.

(** Whatever [publish] returns, where the available copy is a regular
    file and the two paths differ: the available copy holds the text. *)
Lemma publish_body pa pe text failed body (w : world) :
  node_at (files w) (key pa) = Some (File body) ->
  key pa <> key pe ->
  node_at (files (snd (after ext (publish pa pe text failed) w))) (key pa)
  = Some (File text).
Proof.
  intros Hfile Hne. unfold publish.
  assert (Hq : key pa <> []) by (intros Heq; rewrite Heq in Hfile; discriminate).
  rewrite after_bind, after_os_Create. unfold create, open_trunc.
  rewrite resolve_not_link by (intros target; congruence).
  rewrite Hfile. cbn [on_files fst snd].
  rewrite after_bind, after_file_Write. cbn [files]. unfold fwrite.
  rewrite node_at_insert by exact Hq. rewrite decide_True by reflexivity.
  cbn [on_files fst snd clock].
  match goal with |- context [World ?t (clock w)] => set (t2 := t) end.
  assert (Ht2 : node_at t2 (key pa) = Some (File text)).
  { unfold t2. rewrite node_at_insert by exact Hq. by rewrite decide_True. }
  destruct failed as [e |]; [rewrite after_ret; exact Ht2 |].
  rewrite after_bind, after_os_Remove. cbn [files].
  pose proof (remove_cases t2 (key pe)) as Hrm.
  destruct (remove t2 (key pe)) as [e3 t3]. cbn [on_files fst snd clock].
  assert (Ht3 : node_at t3 (key pa) = Some (File text)).
  { inversion Hrm as [n Hpe Hn | e' _ _]; subst; [| exact Ht2].
    rewrite node_at_delete by exact Hpe. by rewrite decide_False. }
  rewrite after_os_Symlink. cbn [files].
  pose proof (symlink_cases t3 pa (key pe)) as Hln.
  destruct (symlink t3 pa (key pe)) as [e4 t4]. cbn [on_files fst snd files].
  inversion Hln as [Hpe Hfree Hdir |]; subst; [| exact Ht3].
  rewrite node_at_insert by exact Hpe. by rewrite decide_False.
Qed.

(** [unpublish] where the link is a link and the available copy is a
    regular file, or the two paths are the same, leaves neither. *)
Lemma unpublish_clears pa pe (w : world) :
  (exists target, node_at (files w) (key pe) = Some (Link target)) ->
  (key pa = key pe \/ exists body, node_at (files w) (key pa) = Some (File body)) ->
  let w' := snd (after ext (unpublish pa pe) w) in
  node_at (files w') (key pa) = None /\ node_at (files w') (key pe) = None.
Proof.
  intros [target Hlink] Havail. unfold unpublish.
  rewrite after_bind, after_os_Remove.
  pose proof (remove_cases (files w) (key pe)) as Hrm.
  destruct (remove (files w) (key pe)) as [e1 t1]. cbn [on_files fst snd].
  inversion Hrm as [n Hpe Hn | e' _ Hno]; subst;
    [| exfalso; eapply Hno, Hlink].
  rewrite after_os_Remove. cbn [files clock].
  pose proof (remove_cases (delete (key pe) (files w)) (key pa)) as Hrm2.
  destruct (remove (delete (key pe) (files w)) (key pa)) as [e2 t2].
  cbn [on_files fst snd files].
  destruct Havail as [Heq | [body Hbody]].
  - rewrite Heq in *.
    inversion Hrm2 as [n' Hpa Hn' | e' _ _]; subst.
    + rewrite node_at_delete in Hn' by exact Hpe.
      rewrite decide_True in Hn' by reflexivity. discriminate.
    + rewrite node_at_delete by exact Hpe. rewrite decide_True by reflexivity. auto.
  - destruct (decide (key pa = key pe)) as [Heq | Hne].
    { rewrite Heq in *. congruence. }
    inversion Hrm2 as [n' Hpa Hn' | e' Hno _]; subst.
    + rewrite !node_at_delete by assumption.
      rewrite decide_True by reflexivity.
      rewrite decide_False by congruence. rewrite decide_True by reflexivity. auto.
    + exfalso. apply (Hno body). rewrite node_at_delete by exact Hpe.
      rewrite decide_False by exact Hne. exact Hbody.
Qed.

Variable T : Templates.

Lemma after_pickTemplate config (w : world) :
  grown (files w) (files (snd (after ext (SiteService.pickTemplate config) w))).
Proof.
  unfold SiteService.pickTemplate.
  repeat match goal with
  | |- context [if String.eqb ?a ?b then _ else _] => destruct (String.eqb a b)
  end; try (rewrite after_ret; apply grown_refl).
  rewrite after_bind, after_os_MkdirAll.
  destruct (mkdir_all _ _) as [e t'] eqn:Hmk.
  cbn [on_files fst snd]. rewrite after_ret. cbn [snd files].
  eapply mkdir_all_grown, Hmk.
Qed.

(** [CreateSite] is the choice of the template, then [publish]. *)
Lemma after_CreateSite config (w : world) :
  after ext (SiteService.CreateSite T config) w
  = after ext
      (picked ← SiteService.pickTemplate config;
       match picked with
       | Err e => Ret (Some e)
       | Ok tmplName =>
           match ParseFS T ("templates/" ++ tmplName) with
           | Some e => Ret (Some e)
           | None =>
               publish (SiteService.availablePath (model.Domain config))
                 (SiteService.enabledPath (model.Domain config))
                 (fst (ExecuteSite T tmplName config))
                 (snd (ExecuteSite T tmplName config))
           end
       end) w.
Proof.
  unfold SiteService.CreateSite, publish. rewrite !after_bind.
  destruct (after ext (SiteService.pickTemplate config) w) as [[tmplName | e] w0];
    [| reflexivity].
  destruct (ParseFS T _); [reflexivity |].
  destruct (ExecuteSite T tmplName config) as [text failed]. reflexivity.
Qed.

Lemma after_CreateStream config (w : world) :
  after ext (StreamService.CreateStream T config) w
  = after ext
      (match ParseFS T "templates/stream.tmpl" with
       | Some e => Ret (Some e)
       | None =>
           publish (StreamService.availablePath (model.StreamName config))
             (StreamService.enabledPath (model.StreamName config))
             (fst (ExecuteStream T config)) (snd (ExecuteStream T config))
       end) w.
Proof.
  unfold StreamService.CreateStream, publish.
  destruct (ParseFS T _); [reflexivity |].
  destruct (ExecuteStream T config) as [text failed]. reflexivity.
Qed.

Lemma CreateStream_ok config (w w1 : world) :
  let pa := StreamService.availablePath (model.StreamName config) in
  let pe := StreamService.enabledPath (model.StreamName config) in
  (forall target, node_at (files w) (key pa) <> Some (Link target)) ->
  after ext (StreamService.CreateStream T config) w = (None, w1) ->
  ParseFS T "templates/stream.tmpl" = None
  /\ node_at (files w1) (key pe) = Some (Link pa)
  /\ (key pa <> key pe ->
      node_at (files w1) (key pa) = Some (File (fst (ExecuteStream T config)))).
Proof.
  intros pa pe Hnolink. rewrite after_CreateStream.
  destruct (ParseFS T _) as [e |]; [rewrite after_ret; discriminate |].
  intros Hpub. fold pa pe in Hpub. split; [reflexivity |].
  eapply publish_ok; eassumption.
Qed.

End FSRuns.

(** ** C4: what a failed creation leaves, in a system that can turn calls down *)

Section Denying.
Import FS FSCases FSFacts.
Variable deny : world -> op -> option errno.
Variable ext : outside.
Local Abbreviation h := (handle_op_denying deny ext).

Lemma after_in_ret {R} (hh : handler world) (r : R) (w : world) :
  after_in hh (Ret r) w = (r, w).
Proof. reflexivity. Qed.

Lemma after_in_bind {A B} (hh : handler world) (p : prog A) (f : A -> prog B) (w : world) :
  after_in hh (bind p f) w = let '(a, w1) := after_in hh p w in after_in hh (f a) w1.
Proof.
  unfold after_in, value_of, state_of. rewrite run_bind.
  destruct (run hh p w) as [[a w1] tr1]. cbn [fst snd].
  destruct (run hh (f a) w1) as [[b w2] tr2]. reflexivity.
Qed.

Lemma after_in_call (hh : handler world) (o : op) (w : world) :
  after_in hh (call o) w = hh o w.
Proof.
  unfold after_in, call. simpl. destruct (hh o w) as [x w1]. reflexivity.
Qed.

(** A call is answered by the tree, or it fails and changes nothing. *)
Lemma denied_call (o : op) (w : world) :
  h o w = handle_op ext o w
  \/ (succeeded o (fst (h o w)) = false /\ snd (h o w) = w).
Proof.
  unfold handle_op_denying. destruct (deny w o) as [e |]; [| by left].
  destruct o; cbn [turned_down]; first [by left | by right].
Qed.

Lemma not_denied (o : op) (w : world) : deny w o = None -> h o w = handle_op ext o w.
Proof. unfold handle_op_denying. by intros ->. Qed.

(** Commands are not the system's to turn down. *)
Lemma exec_through name args (w : world) :
  h (Exec name args) w = handle_op ext (Exec name args) w.
Proof. unfold handle_op_denying. by destruct (deny w _). Qed.

Lemma Reload_through (w : world) :
  after_in h SystemService.Reload w = after ext SystemService.Reload w.
Proof.
  unfold after_in, after, SystemService.Reload, ExecuteSimple, call. cbn [bind run].
  rewrite exec_through.
  destruct (handle_op ext _ w) as [[out err] w1]. destruct err as [e |]; cbn [snd bind run];
    [reflexivity |].
  rewrite exec_through. reflexivity.
Qed.

Lemma unpublish_through pa pe (w : world) :
  (forall w', deny w' (Remove pe) = None) ->
  (forall w', deny w' (Remove pa) = None) ->
  after_in h (unpublish pa pe) w = after ext (unpublish pa pe) w.
Proof.
  intros H1 H2. unfold after_in, after, unpublish, os_Remove, call. cbn [bind run].
  rewrite (not_denied _ _ (H1 w)).
  destruct (handle_op ext (Remove pe) w) as [x w1].
  rewrite (not_denied _ _ (H2 w1)). reflexivity.
Qed.

(** What [publish] leaves when it returns no error, where the available
    path holds no link: the activation link, and the text in the
    available copy unless both paths are the same.  The removal of what
    was at the activation path may have been turned down. *)
Lemma publish_ok_denying pa pe text failed (w w1 : world) :
  (forall target, node_at (files w) (key pa) <> Some (Link target)) ->
  after_in h (publish pa pe text failed) w = (None, w1) ->
  node_at (files w1) (key pe) = Some (Link pa)
  /\ (key pa <> key pe -> node_at (files w1) (key pa) = Some (File text)).
Proof.
  intros Hnolink. unfold publish, os_Create, file_Write, os_Remove, os_Symlink.
  rewrite after_in_bind, (after_in_call h (Create pa)).
  destruct (denied_call (Create pa) w) as [-> | [Hfail _]].
  2:{ destruct (h (Create pa) w) as [[f | e] w0]; [discriminate Hfail |].
      rewrite after_in_ret. discriminate. }
  cbn [handle_op]. unfold create.
  pose proof (open_trunc_cases (files w) (key pa) "") as Hopen.
  destruct (open_trunc (files w) (key pa) "") as [[f | e] t1];
    cbn [on_files fst snd]; [| rewrite after_in_ret; discriminate].
  inversion Hopen as [q Hres Hq Hnode |]; subst.
  rewrite resolve_not_link in Hres by exact Hnolink.
  injection Hres as <-.
  rewrite after_in_bind, (after_in_call h (Fwrite (key pa) text)).
  match goal with |- context [h (Fwrite ?f ?d) ?w0] =>
    destruct (denied_call (Fwrite f d) w0) as [-> | [Hfail _]];
    [| destruct (h (Fwrite f d) w0) as [[e |] w0'];
       [rewrite after_in_ret; discriminate | discriminate Hfail]]
  end.
  cbn [handle_op files]. unfold fwrite.
  rewrite node_at_insert by exact Hq. rewrite decide_True by reflexivity.
  cbn [on_files fst snd clock].
  destruct failed as [e |]; [rewrite after_in_ret; discriminate |].
  rewrite after_in_bind, (after_in_call h (Remove pe)).
  match goal with |- context [h (Remove pe) (World ?t ?c)] =>
    set (t2 := t); set (c2 := c) end.
  assert (Ht2 : node_at t2 (key pa) = Some (File text)).
  { unfold t2. rewrite node_at_insert by exact Hq. by rewrite decide_True. }
  assert (Hframe : forall q, q <> key pe ->
            node_at (files (snd (h (Remove pe) (World t2 c2)))) q = node_at t2 q).
  { intros q Hne. destruct (denied_call (Remove pe) (World t2 c2)) as [-> | [_ ->]];
      [| reflexivity].
    cbn [handle_op files]. pose proof (remove_cases t2 (key pe)) as Hrm.
    destruct (remove t2 (key pe)) as [e3 t3]. cbn [on_files fst snd files].
    inversion Hrm as [n Hpe Hn | e' _ _]; subst; [| reflexivity].
    rewrite node_at_delete by exact Hpe. by rewrite decide_False. }
  destruct (h (Remove pe) (World t2 c2)) as [x3 w3]. cbn [snd] in Hframe.
  rewrite (after_in_call h (Symlink pa pe)).
  destruct (denied_call (Symlink pa pe) w3) as [-> | [Hfail _]].
  2:{ destruct (h (Symlink pa pe) w3) as [[e |] w4]; [discriminate | discriminate Hfail]. }
  cbn [handle_op].
  pose proof (symlink_cases (files w3) pa (key pe)) as Hln.
  destruct (symlink (files w3) pa (key pe)) as [[e4 |] t4]; cbn [on_files fst snd];
    [discriminate |].
  intros [= <-]. cbn [files].
  inversion Hln as [Hpe Hfree Hdir |]; subst.
  split.
  - rewrite node_at_insert by exact Hpe. by rewrite decide_True.
  - intros Hne. rewrite node_at_insert by exact Hpe.
    rewrite decide_False by exact Hne. rewrite Hframe by exact Hne. exact Ht2.
Qed.

Variable T : Templates.

Lemma pickTemplate_denying config (w : world) :
  grown (files w) (files (snd (after_in h (SiteService.pickTemplate config) w))).
Proof.
  unfold SiteService.pickTemplate.
  repeat match goal with
  | |- context [if String.eqb ?a ?b then _ else _] => destruct (String.eqb a b)
  end; try (rewrite after_in_ret; apply grown_refl).
  unfold os_MkdirAll. rewrite after_in_bind.
  match goal with |- context [call (MkdirAll ?p)] => rewrite (after_in_call h (MkdirAll p)) end.
  match goal with |- context [h (MkdirAll ?p) w] =>
    destruct (denied_call (MkdirAll p) w) as [-> | [_ Hsame]];
    [| destruct (h (MkdirAll p) w) as [x w0]; cbn [snd] in Hsame; subst w0;
       rewrite after_in_ret; apply grown_refl]
  end.
  cbn [handle_op].
  destruct (mkdir_all _ _) as [e t'] eqn:Hmk.
  cbn [on_files fst snd]. rewrite after_in_ret. cbn [snd files].
  eapply mkdir_all_grown, Hmk.
Qed.

(** [CreateSite] is the choice of the template, then [publish]; and
    [CreateStream] is [publish] once its template parses. *)
Lemma CreateSite_publishes (hh : handler world) config (w : world) :
  after_in hh (SiteService.CreateSite T config) w
  = after_in hh
      (picked ← SiteService.pickTemplate config;
       match picked with
       | Err e => Ret (Some e)
       | Ok tmplName =>
           match ParseFS T ("templates/" ++ tmplName) with
           | Some e => Ret (Some e)
           | None =>
               publish (SiteService.availablePath (model.Domain config))
                 (SiteService.enabledPath (model.Domain config))
                 (fst (ExecuteSite T tmplName config))
                 (snd (ExecuteSite T tmplName config))
           end
       end) w.
Proof.
  unfold SiteService.CreateSite, publish. rewrite !after_in_bind.
  destruct (after_in hh (SiteService.pickTemplate config) w) as [[tmplName | e] w0];
    [| reflexivity].
  destruct (ParseFS T _); [reflexivity |].
  destruct (ExecuteSite T tmplName config) as [text failed]. reflexivity.
Qed.

Lemma CreateStream_publishes (hh : handler world) config (w : world) :
  after_in hh (StreamService.CreateStream T config) w
  = after_in hh
      (match ParseFS T "templates/stream.tmpl" with
       | Some e => Ret (Some e)
       | None =>
           publish (StreamService.availablePath (model.StreamName config))
             (StreamService.enabledPath (model.StreamName config))
             (fst (ExecuteStream T config)) (snd (ExecuteStream T config))
       end) w.
Proof.
  unfold StreamService.CreateStream, publish.
  destruct (ParseFS T _); [reflexivity |].
  destruct (ExecuteStream T config) as [text failed]. reflexivity.
Qed.

(** What a creation that returns no error leaves, where the available
    path held nothing before: the activation link, and the available
    copy as a regular file unless both paths are the same. *)
Lemma CreateSite_ok_denying config (w w1 : world) :
  let pa := SiteService.availablePath (model.Domain config) in
  let pe := SiteService.enabledPath (model.Domain config) in
  node_at (files w) (key pa) = None ->
  after_in h (SiteService.CreateSite T config) w = (None, w1) ->
  node_at (files w1) (key pe) = Some (Link pa)
  /\ (key pa <> key pe -> exists body, node_at (files w1) (key pa) = Some (File body)).
Proof.
  intros pa pe Hnew. rewrite CreateSite_publishes, after_in_bind.
  pose proof (pickTemplate_denying config w) as Hgrown.
  destruct (after_in h (SiteService.pickTemplate config) w) as [[tmplName | e] w0];
    [| rewrite after_in_ret; discriminate].
  cbn [snd] in Hgrown.
  destruct (ParseFS T _) as [e |]; [rewrite after_in_ret; discriminate |].
  intros Hpub. fold pa pe in Hpub.
  apply publish_ok_denying in Hpub as [Hlink Hbody].
  - split; [exact Hlink |]. intros Hne. eexists. apply Hbody, Hne.
  - intros target. destruct (Hgrown (key pa)) as [-> | [_ ->]];
      [rewrite Hnew |]; discriminate.
Qed.

Lemma CreateStream_ok_denying config (w w1 : world) :
  let pa := StreamService.availablePath (model.StreamName config) in
  let pe := StreamService.enabledPath (model.StreamName config) in
  node_at (files w) (key pa) = None ->
  after_in h (StreamService.CreateStream T config) w = (None, w1) ->
  node_at (files w1) (key pe) = Some (Link pa)
  /\ (key pa <> key pe -> exists body, node_at (files w1) (key pa) = Some (File body)).
Proof.
  intros pa pe Hnew. rewrite CreateStream_publishes.
  destruct (ParseFS T _) as [e |]; [rewrite after_in_ret; discriminate |].
  intros Hpub. fold pa pe in Hpub.
  apply publish_ok_denying in Hpub as [Hlink Hbody].
  - split; [exact Hlink |]. intros Hne. eexists. apply Hbody, Hne.
  - intros target. rewrite Hnew. discriminate.
Qed.

Lemma remove_denied name (w : world) :
  deny w (Remove name) <> None -> snd (h (Remove name) w) = w.
Proof.
  unfold handle_op_denying. destruct (deny w (Remove name)); [reflexivity | contradiction].
Qed.

Lemma unpublish_denied pa pe (w : world) :
  (forall w', deny w' (Remove pe) <> None /\ deny w' (Remove pa) <> None) ->
  snd (after_in h (unpublish pa pe) w) = w.
Proof.
  intros Hden. unfold after_in, unpublish, os_Remove, call. cbn [bind run].
  pose proof (remove_denied pe w (proj1 (Hden w))) as H1.
  destruct (h (Remove pe) w) as [x w1]. cbn [snd] in H1. subst w1.
  pose proof (remove_denied pa w (proj2 (Hden w))) as H2.
  destruct (h (Remove pa) w) as [y w2]. cbn [snd] in H2. subst w2. reflexivity.
Qed.

(** The undoing of a creation whose commit attempt failed, from a world
    in which the unit is there: the two removals and the second reload.
    The answer is the same whatever comes of them; the unit is gone when
    the system lets the removals through, and still there when it turns
    them down. *)
Lemma undo_runs pa pe (answer : Response) (w2 : world) :
  node_at (files w2) (key pe) = Some (Link pa) ->
  (key pa <> key pe -> exists body, node_at (files w2) (key pa) = Some (File body)) ->
  let r := after_in h (_ ← unpublish pa pe; _ ← SystemService.Reload; Ret answer) w2 in
  fst r = answer
  /\ ((forall w', deny w' (Remove pe) = None /\ deny w' (Remove pa) = None) ->
      node_at (files (snd r)) (key pa) = None
      /\ node_at (files (snd r)) (key pe) = None)
  /\ ((forall w', deny w' (Remove pe) <> None /\ deny w' (Remove pa) <> None) ->
      node_at (files (snd r)) (key pe) = Some (Link pa)
      /\ (key pa <> key pe ->
          exists body, node_at (files (snd r)) (key pa) = Some (File body))).
Proof.
  intros Hlink Havail. cbv zeta. rewrite after_in_bind.
  pose proof (unpublish_denied pa pe w2) as Hden.
  destruct (after_in h (unpublish pa pe) w2) as [e3 w3] eqn:Hun. cbn [snd] in Hden.
  rewrite after_in_bind, Reload_through.
  pose proof (after_Reload ext w3) as HR.
  destruct (after ext SystemService.Reload w3) as [e4 w4].
  rewrite after_in_ret. cbn [fst snd] in *. rewrite HR.
  split; [reflexivity |]. split.
  - intros Hlet. rewrite unpublish_through in Hun by (intros w'; apply Hlet).
    assert (Havail' : key pa = key pe
                      \/ exists body, node_at (files w2) (key pa) = Some (File body)).
    { destruct (decide (key pa = key pe)) as [Heq | Hne]; [by left | right; auto]. }
    pose proof (unpublish_clears ext pa pe w2 (ex_intro _ _ Hlink) Havail') as Hclear.
    rewrite Hun in Hclear. exact Hclear.
  - intros Hdenied. rewrite (Hden Hdenied). split; assumption.
Qed.

End Denying.


(** ** C3: what a failed delete leaves *)

Section FailedDelete.
Import FS FSCases FSFacts.
Variable ext : outside.

Lemma after_DeleteSite domain (w : world) :
  let t1 := snd (remove (files w) (key (SiteService.enabledPath domain))) in
  after ext (SiteService.DeleteSite domain) w
  = on_files w (remove t1 (key (SiteService.availablePath domain))).
Proof.
  unfold SiteService.DeleteSite. rewrite after_bind, after_os_Remove.
  destruct (remove (files w) _) as [e1 t1]. cbn [on_files fst snd].
  rewrite after_os_Remove. reflexivity.
Qed.

(** [RestoreSiteRaw] where the available copy is missing, the link is
    missing, and both directories are there: it writes the text and
    makes the link. *)
Lemma after_RestoreSiteRaw_fresh domain content (w : world) :
  let pa := SiteService.availablePath domain in
  let pe := SiteService.enabledPath domain in
  node_at (files w) (key pa) = None ->
  node_at (files w) (key pe) = None ->
  key pa <> key pe ->
  is_dir (files w) (parent (key pa)) = true ->
  is_dir (files w) (parent (key pe)) = true ->
  after ext (SiteService.RestoreSiteRaw domain content) w
  = (None, World (<[key pe := Link pa]> (<[key pa := File content]> (files w))) (clock w)).
Proof.
  intros pa pe Hpa Hpe Hne Hda Hde. unfold SiteService.RestoreSiteRaw.
  rewrite after_bind, after_os_MkdirAll.
  rewrite mkdir_all_dir by (rewrite rev_involutive, key_Dir_availablePath; exact Hda).
  fold pa pe.
  cbn [on_files fst snd].
  rewrite after_bind, after_os_WriteFile. cbn [files].
  rewrite write_file_fresh by assumption.
  cbn [on_files fst snd].
  assert (Hka : key pa <> []) by (by eapply node_at_None_ne).
  assert (Hke : key pe <> []) by (by eapply node_at_None_ne).
  assert (Hpe' : node_at (<[key pa := File content]> (files w)) (key pe) = None).
  { rewrite node_at_insert by exact Hka. rewrite decide_False by congruence. exact Hpe. }
  rewrite after_bind, after_os_Remove. cbn [files clock].
  rewrite (surjective_pairing (remove _ _)). cbn [on_files fst snd].
  rewrite remove_absent by exact Hpe'.
  rewrite after_os_Symlink. cbn [files clock].
  rewrite symlink_fresh; [reflexivity | exact Hpe' |].
  rewrite is_dir_insert_ne; [exact Hde | exact Hka |].
  intros Heq. unfold is_dir in Hde. rewrite Heq, Hpa in Hde. discriminate.
Qed.


End FailedDelete.

(** ** C2: the [rolled_back] field *)

Section RolledBack.
Context {S : Type} (h : handler S).

Lemma execs_app (tr1 tr2 : list event) : execs (tr1 ++ tr2) = (execs tr1 ++ execs tr2)%list.
Proof. apply List.filter_app. Qed.

Lemma quiet_execs {R} (p : prog R) (s : S) :
  every no_exec p -> execs (trace_of (run h p s)) = [].
Proof.
  intros Hq. pose proof (every_trace h no_exec p s Hq) as Hall.
  induction Hall as [| e tr He _ IH]; [reflexivity |].
  unfold execs in *. cbn [List.filter].
  destruct (ev_op e); simpl in *; try exact IH. destruct He.
Qed.

(** The two ways [Reload] can go. *)
Lemma Reload_runs (s : S) :
  let r := run h SystemService.Reload s in
  (trace_of r = [Event test_cmd false] /\ value_of r <> None)
  \/ (exists ok, trace_of r = [Event test_cmd true; Event reload_cmd ok]
                 /\ (value_of r = None <-> ok = true)).
Proof.
  unfold SystemService.Reload, ExecuteSimple, call. simpl.
  destruct (h (Exec model.NginxSbinPath ["-t"]) s) as [[out err] s1]. simpl.
  destruct err as [e |]; simpl.
  + left. split; [reflexivity | discriminate].
  + right.
    destruct (h (Exec "systemctl" ["reload"; "nginx"]) s1) as [[out2 err2] s2].
    simpl. exists (is_nil err2). split; [reflexivity |].
    unfold value_of. destruct err2; simpl; split; intros H;
      first [reflexivity | discriminate].
Qed.

End RolledBack.

(** One step of a run: a service that runs no command adds no command to
    the calls; [Reload] adds its one or two. *)
Ltac run_quiet h p s :=
  let Hq := fresh "Hq" in
  let a := fresh "a" in
  let s' := fresh "s" in
  let tr := fresh "tr" in
  assert (Hq : execs (trace_of (run h p s)) = [])
    by (apply quiet_execs; auto with quiet);
  destruct (run h p s) as [[a s'] tr];
  unfold trace_of in Hq; cbn [snd] in Hq;
  try destruct a.

Ltac run_reload h s :=
  let HR := fresh "HR" in
  let e := fresh "e" in
  let s' := fresh "s" in
  let tr := fresh "tr" in
  let ok := fresh "ok" in
  let Hv := fresh "Hv" in
  pose proof (Reload_runs h s) as HR;
  destruct (run h SystemService.Reload s) as [[e s'] tr];
  unfold trace_of, value_of in HR; cbn [fst snd] in HR;
  destruct HR as [[-> Hv] | [ok [-> Hv]]];
  [ destruct e; [| contradiction]
  | destruct e; [destruct ok; [destruct Hv as [_ Hv]; specialize (Hv eq_refl); discriminate |]
                | destruct ok; [| destruct Hv as [Hv _]; specialize (Hv eq_refl); discriminate]] ].

Ltac run_step :=
  match goal with
  | |- context [is_nil (Some _)] => progress cbn [is_nil]
  | |- context [is_nil None] => progress cbn [is_nil]
  | |- context [run ?h (bind (Ret ?a) ?f) ?s] =>
      change (run h (bind (Ret a) f) s) with (run h (f a) s); cbv beta
  | |- context [run ?h (bind SystemService.Reload ?f) ?s] =>
      rewrite (run_bind h SystemService.Reload f s); run_reload h s
  | |- context [run ?h (bind ?p ?f) ?s] =>
      rewrite (run_bind h p f s); run_quiet h p s
  | |- context [run ?h (if ?b then _ else _) ?s] => destruct b
  | |- context [run ?h (match ?b with _ => _ end) ?s] => destruct b
  end.

Ltac run_done :=
  cbn [run]; unfold commit_failed, trace_of, value_of; cbn [fst snd];
  rewrite ?execs_app;
  repeat match goal with H : execs _ = [] |- _ => rewrite H; clear H end;
  reflexivity.

(** C2, as the code has it.  In whatever environment, for a request to any
    mutation route: the response has a [rolled_back] field exactly when
    the commit attempt failed, and the field is then [true], whatever the
    calls that undo the change returned.  The response tells a failed
    commit from the other failures; it does not tell an undo that worked
    from one that did not. *)
Theorem rolled_back_is_true_whenever_commit_failed
  (T : Templates) {S : Type} (h : handler S) (s : S) (req : main.request) :
  let r := run h (main.serve T req) s in
  main.rolled_back (value_of r)
  = if commit_failed (trace_of r) then Some (JBool true) else None.
Proof.
  destruct req;
    cbv beta iota zeta delta
      [main.serve main.POST_sites main.PUT_sites_domain main.PUT_sites_domain_raw
       main.DELETE_sites_domain main.POST_streams main.PUT_streams_name
       main.DELETE_streams_name main.PUT_streams_name_raw];
    repeat run_step; run_done.
Qed.

(** ** C7: what the Applying stage copies *)

Section Applying.
Import SystemService.
Context {S : Type} (h : handler S).

(** Looking at a path does not change the environment. *)
Hypothesis Stat_looks : forall (name : string) (s : S), snd (h (Stat name) s) = s.

Lemma copies_app (tr1 tr2 : list event) : copies (tr1 ++ tr2) = (copies tr1 ++ copies tr2)%list.
Proof. unfold copies. by rewrite List.filter_app, map_app. Qed.

Lemma acts_app (tr1 tr2 : list event) : acts (tr1 ++ tr2) = (acts tr1 ++ acts tr2)%list.
Proof. unfold acts. apply List.filter_app. Qed.

Lemma run_dirExists (path : string) (s : S) :
  exists tr, run h (dirExists path) s = (found h s path, s, tr)
             /\ copies tr = [] /\ acts tr = [].
Proof.
  unfold found, dirExists. destruct (String.eqb path "").
  - exists []. repeat split.
  - unfold os_Stat, call. cbn [bind run].
    pose proof (Stat_looks path s) as Hs.
    destruct (h (Stat path) s) as [[info | e] s1]; cbn [snd] in Hs; subst s1;
      eexists; repeat split.
Qed.

(** The copy loop makes the calls of its tasks in order: all of them,
    each of which went through, when it returns no error; and else up to
    the first one that failed, and none after it. *)
Lemma run_copyAll (tasks : list copyTask) (s : S) :
  let r := run h (copyAll tasks) s in
  (value_of r = None -> trace_of r = map went_through (steps_of tasks))
  /\ (value_of r <> None -> stopped_in (steps_of tasks) (trace_of r)).
Proof.
  revert s. induction tasks as [| task rest IH]; intros s; cbn [copyAll].
  - cbn. split; [reflexivity | intros H; contradiction].
  - unfold os_MkdirAll, ExecuteSimple, call. cbn [bind run].
    destruct (h (MkdirAll (dest task)) s) as [made s1].
    destruct made as [e |]; cbn [run].
    + unfold trace_of, value_of. cbn [fst snd succeeded is_nil].
      split; [discriminate |]. intros _.
      exists [], (MkdirAll (dest task)), (cp_of task :: steps_of rest). split; reflexivity.
    + match goal with |- context [h ?o s1] =>
        destruct (h o s1) as [[out err] s2] end.
      destruct err as [e |]; cbn [snd run].
      * unfold trace_of, value_of. cbn [fst snd succeeded is_nil].
        split; [discriminate |]. intros _.
        exists [MkdirAll (dest task)], (cp_of task), (steps_of rest). split; reflexivity.
      * specialize (IH s2).
        destruct (run h (copyAll rest) s2) as [[r s3] tr].
        unfold trace_of, value_of in *. cbn [fst snd succeeded is_nil] in *.
        destruct IH as [Hall Hstop]. split.
        -- intros Hr. rewrite (Hall Hr). reflexivity.
        -- intros Hr. destruct (Hstop Hr) as (done & o & rest' & Hsteps & ->).
           exists (MkdirAll (dest task) :: cp_of task :: done), o, rest'.
           split; [| reflexivity].
           cbn [steps_of flat_map app]. f_equal. f_equal. exact Hsteps.
Qed.

Lemma acts_went_through (steps : list op) :
  Forall (fun o => is_stat o = false) steps ->
  acts (map went_through steps) = map went_through steps.
Proof.
  induction 1 as [| o steps Ho _ IH]; [reflexivity |].
  cbn [map]. unfold acts in *. cbn [List.filter went_through ev_op].
  rewrite Ho. cbn [negb]. by rewrite IH.
Qed.

Lemma steps_of_act (tasks : list copyTask) :
  Forall (fun o => is_stat o = false) (steps_of tasks).
Proof. induction tasks; repeat constructor. assumption. Qed.

Lemma copies_went_through (tasks : list copyTask) :
  copies (map went_through (steps_of tasks)) = map cp_of tasks.
Proof. induction tasks as [| task rest IH]; [reflexivity |]. cbn. f_equal. exact IH. Qed.

Lemma copies_prefix (tasks : list copyTask) (done : list op) (o : op) (rest : list op) :
  steps_of tasks = (done ++ o :: rest)%list ->
  copies (map went_through done ++ [Event o false]) `prefix_of` map cp_of tasks.
Proof.
  intros Hsteps. rewrite <- copies_went_through, Hsteps.
  rewrite map_app, !copies_app. apply prefix_app.
  cbn [map]. unfold copies. cbn [List.filter went_through ev_op].
  destruct (is_cp o); [apply prefix_cons |]; apply prefix_nil.
Qed.

(** C7, as the code has it.  In whatever environment in which looking at
    a path changes nothing, with the archive extracted at [root]:
    [applyExtractedArchive] carries out the plan [plan_for] for what
    [dirExists] finds (the configuration subtree into the configuration
    root when it is there, the content subtree into the content root
    when it is there, a top-level [nginx] directory into the
    configuration root when it is there and the configuration subtree is
    not, the whole root into the configuration root when none of the
    three is there).  Its calls, [os.Stat] apart, are those of the plan
    in order, each destination made before the copy into it: all of
    them, every one of which went through, when it returns no error; and
    when it returns an error, those up to the first one that failed, and
    none after that one.  So the copy commands are those of the plan, in
    order, up to the first step that fails. *)
Theorem applying_copies_the_plan (root : string) (s : S) :
  let r := run h (applyExtractedArchive root) s in
  let plan := plan_for (found h s) root in
  copies (trace_of r) `prefix_of` map cp_of plan
  /\ (value_of r = None -> copies (trace_of r) = map cp_of plan)
  /\ (value_of r = None -> acts (trace_of r) = map went_through (steps_of plan))
  /\ (value_of r <> None -> stopped_in (steps_of plan) (acts (trace_of r))).
Proof.
  cbv zeta. set (whole := plan_for (found h s) root).
  unfold applyExtractedArchive.
  set (etcDir := Filepath.Join [root; "etc"; "nginx"]).
  set (varDir := Filepath.Join [root; "var"; "www"; "html"]).
  set (altDir := Filepath.Join [root; "nginx"]).
  rewrite run_bind.
  destruct (run_dirExists etcDir s) as (tr1 & -> & H1 & A1).
  rewrite run_bind.
  destruct (run_dirExists varDir s) as (tr2 & -> & H2 & A2).
  rewrite run_bind.
  destruct (run_dirExists altDir s) as (tr3 & -> & H3 & A3).
  rewrite run_bind.
  assert (Halt : exists tr4,
    run h
      (if found h s altDir
       then bind (dirExists etcDir) (fun hasEtc' => Ret (negb hasEtc'))
       else Ret false) s
    = (found h s altDir && negb (found h s etcDir), s, tr4)
    /\ copies tr4 = [] /\ acts tr4 = []).
  { destruct (found h s altDir).
    - rewrite run_bind. destruct (run_dirExists etcDir s) as (tr & -> & H & A).
      exists (tr ++ [])%list. split; [reflexivity |].
      by rewrite app_nil_r.
    - exists []. repeat split. }
  destruct Halt as (tr4 & -> & H4 & A4).
  match goal with |- context [run h (copyAll ?tasks) s] =>
    set (plan := tasks);
    pose proof (run_copyAll plan s) as Hcopy;
    destruct (run h (copyAll plan) s) as [[r s2] tr5]
  end.
  unfold trace_of, value_of in *. cbn [fst snd] in *.
  rewrite !copies_app, !acts_app, H1, H2, H3, H4, A1, A2, A3, A4. cbn [app].
  assert (Hplan : plan = whole).
  { subst plan whole. unfold plan_for. fold etcDir varDir altDir.
    destruct (found h s etcDir), (found h s varDir), (found h s altDir);
      reflexivity. }
  rewrite <- Hplan. clear Hplan whole.
  destruct Hcopy as [Hall Hstop].
  assert (Hacts : r <> None -> acts tr5 = tr5).
  { intros Hr. destruct (Hstop Hr) as (done & o & rest & Hsteps & ->).
    pose proof (steps_of_act plan) as Hact. rewrite Hsteps in Hact.
    apply Forall_app in Hact as [Hdone Ho]. apply Forall_cons in Ho as [Ho _].
    rewrite acts_app, (acts_went_through _ Hdone).
    unfold acts. cbn [List.filter ev_op]. rewrite Ho. reflexivity. }
  split; [| split; [| split]].
  - destruct r as [e |].
    + destruct (Hstop ltac:(discriminate)) as (done & o & rest & Hsteps & ->).
      by eapply copies_prefix.
    + rewrite (Hall eq_refl), copies_went_through. reflexivity.
  - intros Hr. rewrite (Hall Hr). apply copies_went_through.
  - intros Hr. rewrite (Hall Hr). apply acts_went_through, steps_of_act.
  - intros Hr. rewrite (Hacts Hr). exact (Hstop Hr).
Qed.

End Applying.


(** ** Edits that are rolled back: what is written back *)

Section Edits.
Import FS FSCases FSFacts.
Variable ext : outside.
Variable T : Templates.

Lemma write_file_regular (t : tree) (k : list string) (body data : string) :
  node_at t k = Some (File body) -> write_file t k data = (None, <[k := File data]> t).
Proof.
  intros Hn. unfold write_file, open_trunc.
  rewrite resolve_not_link by (intros target; congruence).
  by rewrite Hn.
Qed.

(** Whatever [CreateSite] returns, an available copy that was a regular
    file is one afterwards. *)
Lemma CreateSite_body config body (w : world) :
  let pa := SiteService.availablePath (model.Domain config) in
  let pe := SiteService.enabledPath (model.Domain config) in
  node_at (files w) (key pa) = Some (File body) ->
  key pa <> key pe ->
  exists text,
    node_at (files (snd (after ext (SiteService.CreateSite T config) w))) (key pa)
    = Some (File text).
Proof.
  intros pa pe Hfile Hne. rewrite after_CreateSite, after_bind.
  pose proof (after_pickTemplate ext config w) as Hgrown.
  destruct (after ext (SiteService.pickTemplate config) w) as [picked w0].
  cbn [snd] in Hgrown.
  assert (Hfile0 : node_at (files w0) (key pa) = Some (File body)).
  { destruct (Hgrown (key pa)) as [-> | [Hnone _]]; congruence. }
  destruct picked as [tmplName | e]; [| rewrite after_ret; eauto].
  destruct (ParseFS T _) as [e |]; [rewrite after_ret; eauto |].
  eexists. eapply publish_body; eassumption.
Qed.


(** The scan of [GetStream] keeps the name it was given. *)
Lemma scanLines_name lines cfg cfg' :
  StreamService.scanLines lines cfg = Ok cfg' ->
  model.StreamName cfg' = model.StreamName cfg.
Proof.
  revert cfg. induction lines as [| line rest IH]; intros cfg; cbn [StreamService.scanLines].
  - by intros [= <-].
  - destruct (GoStrings.HasPrefix _ "listen ").
    + destruct (GoStrings.Atoi _); [discriminate |]. intros H. by apply IH in H.
    + destruct (_ && _); intros H; by apply IH in H.
Qed.

(** Whatever [CreateStream] returns once its template parses: an
    available copy that was a regular file holds what the template
    printed. *)
Lemma CreateStream_body config body (w : world) :
  let pa := StreamService.availablePath (model.StreamName config) in
  let pe := StreamService.enabledPath (model.StreamName config) in
  node_at (files w) (key pa) = Some (File body) ->
  key pa <> key pe ->
  ParseFS T "templates/stream.tmpl" = None ->
  node_at (files (snd (after ext (StreamService.CreateStream T config) w))) (key pa)
  = Some (File (fst (ExecuteStream T config))).
Proof.
  intros pa pe Hfile Hne Hparse. rewrite after_CreateStream, Hparse.
  eapply publish_body; eassumption.
Qed.

(** An update of a stream that is rolled back leaves what the template
    prints for the name, the port and the target that [GetStream] had
    read from the text, whatever else the text held: [CreateStream]
    is run on that configuration. *)
Lemma stream_update_rollback_writes_template_output name config body (w : world) :
  let pa := StreamService.availablePath name in
  let pe := StreamService.enabledPath name in
  let r := after ext (main.PUT_streams_name T name (Ok config)) w in
  node_at (files w) (key pa) = Some (File body) ->
  key pa <> key pe ->
  main.rolled_back (fst r) = Some (JBool true) ->
  exists backup,
    StreamService.scanLines (GoStrings.Split body "010"%char)
      {| model.StreamName := name; model.ListenPort := 0; model.Target := "" |}
    = Ok backup
    /\ read_file (files (snd r)) (key pa) = Ok (fst (ExecuteStream T backup)).
Proof.
  intros pa pe r Hfile Hne. subst r. unfold main.PUT_streams_name.
  rewrite after_bind. unfold StreamService.GetStream.
  rewrite after_bind.
  change (after ext (os_ReadFile (StreamService.availablePath name)) w)
    with (read_file (files w) (key pa), w).
  rewrite (read_file_regular _ _ _ Hfile), after_ret.
  destruct (StreamService.scanLines _ _) as [backup | e] eqn:Hscan;
    [| rewrite after_ret; discriminate].
  pose proof (scanLines_name _ _ _ Hscan) as Hname. cbn [model.StreamName] in Hname.
  set (config' := if String.eqb (model.StreamName config) ""
                  then main.withName config name else config).
  destruct (negb (String.eqb (model.StreamName config) "")
            && negb (String.eqb (model.StreamName config) name)) eqn:Hcheck;
    [rewrite after_ret; discriminate |].
  assert (Hcfg : model.StreamName config' = name).
  { subst config'. destruct (String.eqb_spec (model.StreamName config) "") as [_ | _];
      [reflexivity |].
    destruct (String.eqb_spec (model.StreamName config) name) as [-> | _];
      [reflexivity | discriminate]. }
  rewrite after_bind.
  pose proof (CreateStream_ok ext T config' w) as Hok.
  rewrite Hcfg in Hok. fold pa pe in Hok.
  destruct (after ext (StreamService.CreateStream T config') w) as [[e1 |] w1];
    [rewrite after_ret; discriminate |].
  destruct (Hok w1) as (Hparse & _ & Htext);
    [intros target; congruence | reflexivity |].
  specialize (Htext Hne).
  rewrite after_bind.
  pose proof (after_Reload ext w1) as HR.
  destruct (after ext SystemService.Reload w1) as [[err |] w2];
    [| rewrite after_ret; discriminate].
  cbn [snd] in HR. rewrite <- HR in Htext.
  rewrite after_bind.
  pose proof (CreateStream_body backup (fst (ExecuteStream T config')) w2) as Hbody.
  rewrite Hname in Hbody. fold pa pe in Hbody.
  specialize (Hbody Htext Hne Hparse).
  destruct (after ext (StreamService.CreateStream T backup) w2) as [e3 w3].
  cbn [snd] in Hbody. rewrite after_bind.
  pose proof (after_Reload ext w3) as HR3.
  destruct (after ext SystemService.Reload w3) as [e4 w4].
  rewrite after_ret. cbn [fst snd] in *. intros _.
  exists backup. split; [reflexivity |].
  apply read_file_regular. rewrite HR3. exact Hbody.
Qed.

End Edits.

(** ** C1: the rollback of a stream update writes the template's output *)

Section StreamUpdate.
Import FS Scenario.

(** The update of [relay] when the configuration test fails, for any
    stored text from which [GetStream] reads [relay_backup]: what is
    stored afterwards is the text the template prints for
    [relay_backup]. *)
Lemma relay_update_rolled_back (T : Templates) (body : string) :
  ParseFS T "templates/stream.tmpl" = None ->
  snd (ExecuteStream T relay_update) = None ->
  after failing (StreamService.GetStream "relay") (World (relay_store body) 0)
  = (Ok relay_backup, World (relay_store body) 0) ->
  let r := after failing (main.PUT_streams_name T "relay" (Ok relay_update))
             (World (relay_store body) 0) in
  main.rolled_back (fst r) = Some (JBool true)
  /\ read_file (files (snd r)) (key (StreamService.availablePath "relay"))
     = Ok (fst (ExecuteStream T relay_backup)).
Proof.
  destruct T as [parse execSite execStream]. cbn [ParseFS ExecuteStream].
  intros Hparse Hexec Hget.
  destruct (execStream relay_update) as [text1 failed1] eqn:E1.
  cbn [snd] in Hexec. subst failed1.
  destruct (execStream relay_backup) as [text2 failed2] eqn:E2.
  unfold main.PUT_streams_name.
  rewrite after_bind, Hget.
  cbv beta iota.
  change (negb (String.eqb (model.StreamName relay_update) "")
          && negb (String.eqb (model.StreamName relay_update) "relay")) with false.
  change (String.eqb (model.StreamName relay_update) "") with false.
  cbv beta iota.
  unfold StreamService.CreateStream. cbn [ParseFS ExecuteStream].
  rewrite Hparse, E1, E2.
  destruct failed2; vm_compute; split; reflexivity.
Qed.

(** C1, where the code departs from it.  The stream [relay] is stored
    with one of two texts that differ in a comment; a request updates
    it, the templates work, the configuration test fails.  The
    response says [rolled_back], and in both cases the text stored
    afterwards is what the template prints for the port and the target
    that [GetStream] had read: the same text for both, so not the text
    that was there before, for one of them at least. *)
Theorem stream_update_rollback_regenerates (T : Templates) :
  ParseFS T "templates/stream.tmpl" = None ->
  snd (ExecuteStream T relay_update) = None ->
  let r1 := after failing (main.PUT_streams_name T "relay" (Ok relay_update))
              (World (relay_store relay_body_1) 0) in
  let r2 := after failing (main.PUT_streams_name T "relay" (Ok relay_update))
              (World (relay_store relay_body_2) 0) in
  let pa := key (StreamService.availablePath "relay") in
  main.rolled_back (fst r1) = Some (JBool true)
  /\ main.rolled_back (fst r2) = Some (JBool true)
  /\ read_file (relay_store relay_body_1) pa = Ok relay_body_1
  /\ read_file (relay_store relay_body_2) pa = Ok relay_body_2
  /\ read_file (files (snd r1)) pa = Ok (fst (ExecuteStream T relay_backup))
  /\ read_file (files (snd r2)) pa = Ok (fst (ExecuteStream T relay_backup))
  /\ relay_body_1 <> relay_body_2.
Proof.
  intros Hparse Hexec.
  assert (Hget1 : after failing (StreamService.GetStream "relay")
                    (World (relay_store relay_body_1) 0)
                  = (Ok relay_backup, World (relay_store relay_body_1) 0))
    by (vm_compute; reflexivity).
  assert (Hget2 : after failing (StreamService.GetStream "relay")
                    (World (relay_store relay_body_2) 0)
                  = (Ok relay_backup, World (relay_store relay_body_2) 0))
    by (vm_compute; reflexivity).
  destruct (relay_update_rolled_back T relay_body_1 Hparse Hexec Hget1) as [Hr1 Hb1].
  destruct (relay_update_rolled_back T relay_body_2 Hparse Hexec Hget2) as [Hr2 Hb2].
  cbv zeta.
  split; [exact Hr1 |]. split; [exact Hr2 |].
  split; [vm_compute; reflexivity |]. split; [vm_compute; reflexivity |].
  split; [exact Hb1 |]. split; [exact Hb2 |].
  vm_compute. intros H. discriminate H.
Qed.

(** With the example templates, the first text is not what is stored
    after the rollback: the comment is gone. *)
Lemma stream_update_rollback_regenerates_witness :
  let r1 := after failing (main.PUT_streams_name templates "relay" (Ok relay_update))
              (World (relay_store relay_body_1) 0) in
  let pa := key (StreamService.availablePath "relay") in
  main.rolled_back (fst r1) = Some (JBool true)
  /\ read_file (relay_store relay_body_1) pa = Ok relay_body_1
  /\ read_file (files (snd r1)) pa = Ok relay_rest.
Proof.
  destruct (stream_update_rollback_regenerates templates eq_refl eq_refl)
    as (H1 & _ & H3 & _ & H5 & _).
  cbv zeta. split; [exact H1 |]. split; [exact H3 |].
  rewrite H5. vm_compute. reflexivity.
Defined.

End StreamUpdate.

(** ** The properties on the scenarios *)

Section OnScenarios.
Import FS Scenario.

(** C9 on a request for a site of type [ftp]. *)
Lemma CreateSite_unknown_type_witness :
  run (handle_op failing) (SiteService.CreateSite templates ftp_site) (World enabled_store 0)
  = (Some (Errorf "不支持的站点类型: %s" ["ftp"]), World enabled_store 0, []).
Proof.
  apply (CreateSite_unknown_type_no_effect templates ftp_site).
  apply (bool_decide_unpack _). vm_compute. exact I.
Defined.





(** C2 as stated fails: the directory of the links is missing, so the
    undo of the delete cannot make the link and [RestoreSiteRaw] returns
    an error; the response says [rolled_back: true] all the same. *)
Lemma rolled_back_true_though_restore_failed :
  let w := World store_without_enabled_dir 0 in
  let r := run (handle_op failing) (main.DELETE_sites_domain "a.example.com") w in
  let deleted := snd (after failing (SiteService.DeleteSite "a.example.com") w) in
  main.rolled_back (value_of r) = Some (JBool true)
  /\ fst (after failing (SiteService.RestoreSiteRaw "a.example.com" site_body) deleted)
     = Some (PathError ENOENT)
  /\ In (Event (Symlink (SiteService.availablePath "a.example.com")
                  (SiteService.enabledPath "a.example.com")) false)
        (trace_of r).
Proof. vm_compute. split; [reflexivity |]. split; [reflexivity |]. tauto. Qed.

(** C5 on an archive whose check fails. *)
Lemma corrupt_archive_witness :
  let r := run (always corrupt)
             (SystemService.Restore "/root/nginx_backups/nightly.tar.gz") 0%nat in
  exists reads cleanPath err,
    trace_of r = (reads ++ [Event (Exec "tar" (SystemService.verifyArgs cleanPath)) false])%list
    /\ Forall (fun e => read_only (ev_op e)) reads
    /\ value_of r = Some (Errorw "备份文件校验失败: %w" err).
Proof.
  apply (corrupt_archive_aborts_before_stop (always corrupt) 0%nat
           "/root/nginx_backups/nightly.tar.gz").
  vm_compute. apply Exists_cons_tl, Exists_cons_hd. split; reflexivity.
Defined.

(** C10 on a restore in which every step works. *)
Lemma snapshot_removed_witness :
  let snap := "/tmp/nginx_pre_restore_1761850000.tar.gz" in
  let r := run (always accept)
             (SystemService.Restore "/root/nginx_backups/nightly.tar.gz") 0%nat in
  exists before rest removed,
    trace_of r =
      (before ++ Event (Exec "tar" (SystemService.snapshotArgs snap)) true
         :: rest ++ [Event (Remove snap) removed])%list.
Proof.
  apply (snapshot_removed_on_every_return (always accept) 0%nat
           "/root/nginx_backups/nightly.tar.gz"
           "/tmp/nginx_pre_restore_1761850000.tar.gz").
  vm_compute.
  repeat first [apply list_elem_of_here | apply list_elem_of_further].
Defined.

(** C6 as amended, with times 100 < 200 < 300: the archive of time 300. *)
Lemma latestOf_witness :
  SystemService.latestOf backups_dir three_archives
  = Ok (Filepath.Join [backups_dir; "nginx_conf_c.tar.gz"]).
Proof.
  apply (latestOf_first_newest backups_dir three_archives
           [ archive "nginx_conf_a.tar.gz" 100;
             {| Name := "nginx_conf_b.tar.gz"; EntryIsDir := true; Info := Ok 900 |} ]
           [ archive "nginx_conf_d.tar.gz" 200; archive "notes.txt" 950 ]
           (archive "nginx_conf_c.tar.gz" 300) 300).
  - reflexivity.
  - repeat split; reflexivity.
  - intros e' t' Hin (Hd & Hs & Hi).
    repeat (apply elem_of_cons in Hin as [-> | Hin]);
      try (by apply elem_of_nil in Hin);
      vm_compute in Hd, Hs, Hi; try discriminate.
    injection Hi as <-. reflexivity.
  - intros e' t' Hin (Hd & Hs & Hi).
    repeat (apply elem_of_cons in Hin as [-> | Hin]);
      try (by apply elem_of_nil in Hin);
      vm_compute in Hd, Hs, Hi; try discriminate.
    injection Hi as <-. discriminate.
Defined.

(** C6 as stated fails: of two archives of the same time, the one met
    first is returned, not the one met last. *)
Lemma tie_goes_to_the_first :
  recognized (archive "nginx_conf_a.tar.gz" 500) 500
  /\ recognized (archive "nginx_conf_b.tar.gz" 500) 500
  /\ SystemService.latestOf backups_dir tied_archives
     = Ok "/root/nginx_backups/nginx_conf_a.tar.gz"
  /\ SystemService.latestOf backups_dir tied_archives
     <> Ok (Filepath.Join [backups_dir; "nginx_conf_b.tar.gz"]).
Proof.
  split; [repeat split; reflexivity |]. split; [repeat split; reflexivity |].
  split; [vm_compute; reflexivity |]. vm_compute. intros H. discriminate H.
Qed.

(** C7 as stated fails: the archive has neither [etc/nginx] nor
    [var/www/html] but a top-level [nginx] directory; that directory
    is copied, the whole root is not. *)
Lemma root_not_copied_when_alt_dir :
  let r := run (handle_op passing) (SystemService.applyExtractedArchive extracted_root)
             (World alt_only_tree 0) in
  let whole_root :=
    cp_of {| SystemService.src := extracted_root;
             SystemService.dest := model.NginxConfDir |} in
  has_dir alt_only_tree (Filepath.Join [extracted_root; "etc"; "nginx"]) = false
  /\ has_dir alt_only_tree (Filepath.Join [extracted_root; "var"; "www"; "html"]) = false
  /\ value_of r = None
  /\ copies (trace_of r)
     = [Exec "cp" ["-a"; "/tmp/nginx_restore2860712345/nginx/."; "/etc/nginx/"]]
  /\ ~ In whole_root (copies (trace_of r)).
Proof.
  vm_compute. repeat split; try reflexivity.
  intros [H | []]. discriminate H.
Qed.

(** C7 as amended, on the same archive, and on it when its copy fails. *)
Lemma applying_witness :
  (let r := run (handle_op passing) (SystemService.applyExtractedArchive extracted_root)
              (World alt_only_tree 0) in
   let plan := plan_for (found (handle_op passing) (World alt_only_tree 0)) extracted_root in
   copies (trace_of r) `prefix_of` map cp_of plan
   /\ (value_of r = None -> copies (trace_of r) = map cp_of plan)
   /\ (value_of r = None -> acts (trace_of r) = map went_through (steps_of plan))
   /\ (value_of r <> None -> stopped_in (steps_of plan) (acts (trace_of r))))
  /\ value_of (run (handle_op passing) (SystemService.applyExtractedArchive extracted_root)
                 (World alt_only_tree 0)) = None.
Proof.
  split; [| vm_compute; reflexivity].
  apply (applying_copies_the_plan (handle_op passing)).
  intros name s. reflexivity.
Defined.

End OnScenarios.

(** * Further properties of the services *)

(** ** The library functions on more examples *)

Example Index_ex :
  GoStrings.Index "chicken" "ken" = 4 /\ GoStrings.Index "chicken" "dmr" = -1
  /\ GoStrings.Index "abc" "" = 0 /\ GoStrings.Contains "seafood" "foo" = true
  /\ GoStrings.Contains "seafood" "bar" = false.
Proof. repeat split; reflexivity. Qed.

Example SplitN2_ex :
  GoStrings.SplitN2 "a,b,c,d" "," = ["a"; "b,c,d"]
  /\ GoStrings.SplitN2 "# site_type: lb" "site_type:" = ["# "; " lb"]
  /\ GoStrings.SplitN2 "abc" "site_type:" = ["abc"]
  /\ GoStrings.SplitN2 "" "," = [""].
Proof. repeat split; reflexivity. Qed.

Example Sscanf_d_ex :
  Fmt.Sscanf_d "8080" = Some 8080 /\ Fmt.Sscanf_d "8080/api" = Some 8080
  /\ Fmt.Sscanf_d "  -12x" = Some (-12) /\ Fmt.Sscanf_d "" = None
  /\ Fmt.Sscanf_d "x80" = None /\ Fmt.Sscanf_d "+7;" = Some 7
  /\ Fmt.Sscanf_d ("8" ++ Fmt.newline) = Some 8 /\ Fmt.Sscanf_d (Fmt.newline ++ "8") = None
  /\ Fmt.Sscanf_d "99999999999999999999" = None.
Proof. repeat split; reflexivity. Qed.

(** ** [Restore]: what is checked before anything is touched *)

Section RestoreChecks.
Import SystemService.
Context {S : Type} (h : handler S).

(** X3.  A path that is blank, or that [os.Stat] cannot find, ends [Restore]
    at once: for a blank path no call is made at all, otherwise the one
    call is [os.Stat] on the cleaned path; an error is returned. *)
Theorem Restore_stops_at_unusable_path (backupPath : string) (s : S) :
  let p := GoStrings.TrimSpace backupPath in
  let r := run h (Restore backupPath) s in
  p = "" \/ is_Ok (fst (h (Stat (Filepath.Clean p)) s)) = false ->
  trace_of r = (if decide (p = "") then [] else [Event (Stat (Filepath.Clean p)) false])
  /\ value_of r <> None.
Proof.
  intros p r Hbad. subst r. unfold Restore, resolveArchive. fold p.
  destruct (String.eqb_spec p "") as [Hp | Hp].
  - rewrite decide_True by exact Hp. cbn. split; [reflexivity | discriminate].
  - rewrite decide_False by exact Hp.
    destruct Hbad as [Hbad | Hbad]; [contradiction |].
    unfold os_Stat, call. cbn [bind run].
    destruct (h (Stat (Filepath.Clean p)) s) as [[info | err] s1];
      [discriminate |].
    cbn [fst] in Hbad. cbn [succeeded is_Ok].
    destruct (os_IsNotExist err); cbn; split; first [reflexivity | discriminate].
Qed.

End RestoreChecks.

(** ** [restoreFromBackup]: the rollback of a restore *)

Section Rollback.
Import SystemService.
Context {S : Type} (h : handler S).

(** X4.  The rollback looks for the snapshot first and, when [os.Stat] does
    not find it, makes no other call: the service is not stopped.  It
    returns no error exactly when the snapshot was found, extracted over
    the root and the service started again; whether stopping and killing
    the service worked plays no part. *)
Theorem restoreFromBackup_needs_the_snapshot (backupFile : string) (s : S) :
  GoStrings.TrimSpace backupFile <> "" ->
  let r := run h (restoreFromBackup backupFile) s in
  (is_Ok (fst (h (Stat backupFile) s)) = false ->
   trace_of r = [Event (Stat backupFile) false] /\ value_of r <> None)
  /\ (value_of r = None <->
      exists stopped killed,
        trace_of r = [Event (Stat backupFile) true; Event stop_cmd stopped;
                      Event kill_cmd killed;
                      Event (extract_cmd backupFile "/") true; Event start_cmd true]).
Proof.
  intros Hname. unfold restoreFromBackup.
  destruct (String.eqb_spec (GoStrings.TrimSpace backupFile) "") as [Heq | _];
    [contradiction |].
  unfold os_Stat, ExecuteSimple, call. cbn [bind run].
  destruct (h (Stat backupFile) s) as [[info | err] s1]; cbn [fst is_Ok succeeded].
  2:{ cbn. split; [intros _; split; [reflexivity | discriminate] |].
      split; [discriminate | intros (a & b & Htr); discriminate]. }
  cbn [bind run].
  destruct (h (Exec "systemctl" ["stop"; "nginx"]) s1) as [[o1 e1] s2]. cbn [bind run].
  destruct (h (Exec "pkill" ["-9"; "nginx"]) s2) as [[o2 e2] s3]. cbn [bind run].
  destruct (h (Exec "tar" ["-xzf"; backupFile; "-C"; "/"]) s3) as [[o3 e3] s4].
  cbn [snd]. split; [discriminate |].
  destruct e3 as [e3 |]; cbn [bind run].
  { unfold value_of, trace_of. cbn.
    split; [discriminate | intros (a & b & Htr); discriminate]. }
  destruct (h (Exec "systemctl" ["start"; "nginx"]) s4) as [[o4 e4] s5].
  cbn [snd]. destruct e4 as [e4 |]; unfold value_of, trace_of; cbn.
  - split; [discriminate | intros (a & b & Htr); discriminate].
  - split; [| reflexivity]. intros _. eexists _, _. reflexivity.
Qed.

(** A blank name ends the rollback before any call. *)
Lemma restoreFromBackup_blank (backupFile : string) (s : S) :
  GoStrings.TrimSpace backupFile = "" ->
  run h (restoreFromBackup backupFile) s
  = (Some (Errorf "未找到可用的原始备份文件" []), s, []).
Proof. intros Hname. unfold restoreFromBackup. rewrite Hname. reflexivity. Qed.

End Rollback.

(** ** Strings: reversal, white space *)

Section StringFacts.
Import GoStrings.

Lemma app_cons_s (x : ascii) (a b : string) : String x a ++ b = String x (a ++ b).
Proof. reflexivity. Qed.

Lemma app_assoc_s (a b c : string) : (a ++ b) ++ c = a ++ (b ++ c).
Proof. induction a as [| x a IH]; [reflexivity |]. rewrite !app_cons_s. by rewrite IH. Qed.

Lemma app_nil_r_s (a : string) : a ++ "" = a.
Proof. induction a as [| x a IH]; [reflexivity |]. rewrite app_cons_s. by rewrite IH. Qed.

Lemma srev_onto_app (s acc : string) : srev_onto s acc = srev s ++ acc.
Proof.
  unfold srev. revert acc. induction s as [| a s IH]; intros acc; [reflexivity |].
  cbn [srev_onto]. rewrite IH, (IH (String a "")), app_assoc_s. reflexivity.
Qed.

Lemma srev_cons (a : ascii) (s : string) : srev (String a s) = srev s ++ String a "".
Proof. unfold srev at 1. cbn [srev_onto]. apply srev_onto_app. Qed.

Lemma srev_app (a b : string) : srev (a ++ b) = srev b ++ srev a.
Proof.
  induction a as [| x a IH].
  - change ("" ++ b) with b. by rewrite app_nil_r_s.
  - rewrite app_cons_s, !srev_cons, IH, app_assoc_s. reflexivity.
Qed.

Lemma srev_involutive (s : string) : srev (srev s) = s.
Proof.
  induction s as [| a s IH]; [reflexivity |].
  rewrite srev_cons, srev_app, IH. reflexivity.
Qed.

Lemma srev_eq_nil (s : string) : srev s = "" -> s = "".
Proof. intros H. rewrite <- (srev_involutive s), H. reflexivity. Qed.

(** Cutting a prefix that has no separator off a text that ends in a
    separator leaves a text that ends in that separator. *)
Lemma cut_prefix_keeps_last (r x rest : string) :
  no_slash r -> cut_prefix r (x ++ "/") = Some rest -> exists y, rest = y ++ "/".
Proof.
  revert x. induction r as [| a r IH]; intros x Hr Hcut.
  - injection Hcut as <-. by exists x.
  - destruct Hr as [Ha Hr]. destruct x as [| b x].
    + change ("" ++ "/") with "/" in Hcut. cbn [cut_prefix] in Hcut.
      destruct (Ascii.eqb_spec a "/") as [-> | _]; [| discriminate].
      by destruct Ha.
    + rewrite app_cons_s in Hcut. cbn [cut_prefix] in Hcut.
      destruct (Ascii.eqb a b); [| discriminate]. by apply (IH x).
Qed.

Lemma cut_any_keeps_last (runes : list string) (x rest : string) :
  Forall no_slash runes -> cut_any runes (x ++ "/") = Some rest ->
  exists y, rest = y ++ "/".
Proof.
  intros Hrunes. induction Hrunes as [| r runes Hr _ IH]; cbn [cut_any];
    [discriminate |].
  destruct (cut_prefix r (x ++ "/")) as [rest' |] eqn:Hcut.
  - intros [= <-]. by eapply cut_prefix_keeps_last.
  - exact IH.
Qed.

Lemma trim_left_keeps_last (fuel : nat) (runes : list string) (x : string) :
  Forall no_slash runes -> exists y, trim_left fuel runes (x ++ "/") = y ++ "/".
Proof.
  intros Hrunes. revert x. induction fuel as [| fuel IH]; intros x; cbn [trim_left].
  - by exists x.
  - destruct (cut_any runes (x ++ "/")) as [rest |] eqn:Hcut; [| by exists x].
    destruct (cut_any_keeps_last _ _ _ Hrunes Hcut) as [y ->]. apply IH.
Qed.

Lemma space_runes_no_slash : Forall no_slash (map srev space_runes).
Proof. repeat constructor; intros H; vm_compute in H; discriminate H. Qed.

(** A text that starts with a separator is not blank. *)
Lemma TrimSpace_rooted (s : string) : TrimSpace (String "/" s) <> "".
Proof.
  unfold TrimSpace.
  assert (Hl : trim_left (String.length (String "/" s)) space_runes (String "/" s)
               = String "/" s) by reflexivity.
  rewrite Hl, srev_cons.
  destruct (trim_left_keeps_last (String.length (String "/" s)) _ (srev s)
              space_runes_no_slash) as [y ->].
  intros H. apply srev_eq_nil in H. destruct y; discriminate.
Qed.

End StringFacts.

(** ** [Restore]: the stages after the snapshot *)

Section RestoreRuns.
Import SystemService.
Context {S : Type} (h : handler S).

(** [rollBack] runs [restoreFromBackup] and returns an error, always. *)
Lemma rollBack_runs (snap what : string) (err : error) (s : S) :
  exists v,
    run h (rollBack snap what err) s
    = (Some v, state_of (run h (restoreFromBackup snap) s),
       trace_of (run h (restoreFromBackup snap) s)).
Proof.
  unfold rollBack. rewrite run_bind.
  destruct (run h (restoreFromBackup snap) s) as [[[e |] s1] tr];
    cbn; rewrite app_nil_r; eexists; reflexivity.
Qed.

(** From the extraction on: the first call is the extraction; the run
    returns no error only after a configuration test that passed and a
    start that worked, its last two calls; and a run that returns an
    error ends with the calls of the rollback. *)
Lemma restoreInto_runs (cleanPath snap dir : string) (s : S) :
  let r := run h (restoreInto cleanPath snap dir) s in
  exists extracted rest,
    trace_of r = Event (extract_cmd cleanPath dir) extracted :: rest
    /\ (value_of r = None ->
        extracted = true
        /\ exists pre, rest = (pre ++ [Event test_cmd true; Event start_cmd true])%list)
    /\ (value_of r <> None ->
        exists pre s',
          trace_of r = (pre ++ trace_of (run h (restoreFromBackup snap) s'))%list).
Proof.
  unfold restoreInto, ExecuteSimple, call. cbn [bind run].
  destruct (h (Exec "tar" ["-xzf"; cleanPath; "-C"; dir]) s) as [[o1 e1] s1].
  destruct e1 as [e1 |]; cbn [snd succeeded is_nil].
  { destruct (rollBack_runs snap "解压备份失败" e1 s1) as [v ->].
    unfold trace_of, value_of, state_of. cbn [fst snd].
    eexists _, _. split; [reflexivity |]. split; [discriminate |].
    intros _. exists [Event (extract_cmd cleanPath dir) false], s1. reflexivity. }
  rewrite run_bind.
  destruct (run h (applyExtractedArchive dir) s1) as [[[e2 |] s2] tr2].
  { destruct (rollBack_runs snap "恢复失败" e2 s2) as [v ->].
    unfold trace_of, value_of, state_of. cbn [fst snd].
    eexists _, _. split; [reflexivity |]. split; [discriminate |].
    intros _. exists (Event (extract_cmd cleanPath dir) true :: tr2), s2. reflexivity. }
  cbn [bind run].
  destruct (h (Exec model.NginxSbinPath ["-t"]) s2) as [[o3 e3] s3].
  destruct e3 as [e3 |]; cbn [snd succeeded is_nil].
  { destruct (rollBack_runs snap "配置验证失败" e3 s3) as [v ->].
    unfold trace_of, value_of, state_of. cbn [fst snd].
    eexists _, _. split; [reflexivity |]. split; [discriminate |].
    intros _.
    exists (Event (extract_cmd cleanPath dir) true :: tr2 ++ [Event test_cmd false])%list, s3.
    cbn [app]. by rewrite <- app_assoc. }
  cbn [bind run].
  destruct (h (Exec "systemctl" ["start"; "nginx"]) s3) as [[o4 e4] s4].
  destruct e4 as [e4 |]; cbn [snd succeeded is_nil].
  { destruct (rollBack_runs snap "启动 Nginx 失败" e4 s4) as [v ->].
    unfold trace_of, value_of, state_of. cbn [fst snd].
    eexists _, _. split; [reflexivity |]. split; [discriminate |].
    intros _.
    exists (Event (extract_cmd cleanPath dir) true
              :: tr2 ++ [Event test_cmd true; Event start_cmd false])%list, s4.
    cbn [app]. rewrite <- app_assoc. reflexivity. }
  cbn [run]. unfold trace_of, value_of. cbn [fst snd].
  eexists _, _. split; [reflexivity |]. split; [| intros H; contradiction].
  intros _. split; [reflexivity |]. exists tr2. reflexivity.
Qed.

(** From the stop of the service on. *)
Lemma restoreWithSnapshot_runs (cleanPath snap : string) (s : S) :
  let r := run h (restoreWithSnapshot cleanPath snap) s in
  exists head,
    Forall (fun e => ev_op e = stop_cmd \/ ev_op e = kill_cmd) head
    /\ ((exists s',
           trace_of r = (head ++ Event (MkdirTemp "" "nginx_restore") false
                           :: trace_of (run h (restoreFromBackup snap) s'))%list
           /\ value_of r <> None)
        \/ (exists dir extracted rest removed,
              trace_of r = (head ++ Event (MkdirTemp "" "nginx_restore") true
                              :: Event (extract_cmd cleanPath dir) extracted
                              :: rest ++ [Event (RemoveAll dir) removed])%list
              /\ fst (h (MkdirTemp "" "nginx_restore") (state_after h s head)) = Ok dir
              /\ (value_of r = None ->
                  extracted = true
                  /\ exists pre,
                       rest = (pre ++ [Event test_cmd true; Event start_cmd true])%list)
              /\ (value_of r <> None ->
                  exists pre s',
                    Event (extract_cmd cleanPath dir) extracted :: rest
                    = (pre ++ trace_of (run h (restoreFromBackup snap) s'))%list))).
Proof.
  unfold restoreWithSnapshot, ExecuteSimple, os_MkdirTemp, os_RemoveAll, call.
  cbn [bind run].
  destruct (h (Exec "systemctl" ["stop"; "nginx"]) s) as [[o1 e1] s1] eqn:H1.
  cbn [snd succeeded].
  destruct e1 as [e1 |]; cbn [is_nil bind run].
  - destruct (h (Exec "pkill" ["-9"; "nginx"]) s1) as [[o2 e2] s2] eqn:H2.
    cbn [bind run].
    destruct (h (MkdirTemp "" "nginx_restore") s2) as [[dir | err] s3] eqn:H3;
      cbn [succeeded is_Ok].
    + rewrite run_bind.
      pose proof (restoreInto_runs cleanPath snap dir s3) as Hinto.
      destruct (run h (restoreInto cleanPath snap dir) s3) as [[v s4] tr].
      cbn [bind run]. destruct (h (RemoveAll dir) s4) as [x s5].
      unfold trace_of, value_of in *. cbn [fst snd] in *.
      destruct Hinto as (extracted & rest & -> & Hok & Hfail).
      exists [Event stop_cmd false; Event kill_cmd (is_nil e2)].
      split; [repeat (constructor; [cbn; auto |]); constructor |]. right.
      exists dir, extracted, rest, (is_nil x). cbn [app]. split; [reflexivity |].
      split; [| split; assumption].
      unfold state_after, stop_cmd, kill_cmd. cbn [fold_left ev_op].
      rewrite H1. cbn [snd]. rewrite H2. cbn [snd]. by rewrite H3.
    + rewrite run_bind.
      destruct (run h (restoreFromBackup snap) s3) as [[v s4] tr] eqn:Hrun.
      cbn [run]. unfold trace_of, value_of. cbn [fst snd].
      exists [Event stop_cmd false; Event kill_cmd (is_nil e2)].
      split; [repeat (constructor; [cbn; auto |]); constructor |]. left.
      exists s3. rewrite Hrun. cbn [snd app]. rewrite app_nil_r.
      split; [reflexivity | discriminate].
  - destruct (h (MkdirTemp "" "nginx_restore") s1) as [[dir | err] s3] eqn:H3;
      cbn [succeeded is_Ok].
    + rewrite run_bind.
      pose proof (restoreInto_runs cleanPath snap dir s3) as Hinto.
      destruct (run h (restoreInto cleanPath snap dir) s3) as [[v s4] tr].
      cbn [bind run]. destruct (h (RemoveAll dir) s4) as [x s5].
      unfold trace_of, value_of in *. cbn [fst snd] in *.
      destruct Hinto as (extracted & rest & -> & Hok & Hfail).
      exists [Event stop_cmd true].
      split; [repeat (constructor; [cbn; auto |]); constructor |]. right.
      exists dir, extracted, rest, (is_nil x). cbn [app]. split; [reflexivity |].
      split; [| split; assumption].
      unfold state_after, stop_cmd. cbn [fold_left ev_op].
      rewrite H1. cbn [snd]. by rewrite H3.
    + rewrite run_bind.
      destruct (run h (restoreFromBackup snap) s3) as [[v s4] tr] eqn:Hrun.
      cbn [run]. unfold trace_of, value_of. cbn [fst snd].
      exists [Event stop_cmd true].
      split; [repeat (constructor; [cbn; auto |]); constructor |]. left.
      exists s3. rewrite Hrun. cbn [snd app]. rewrite app_nil_r.
      split; [reflexivity | discriminate].
Qed.

End RestoreRuns.

Section RestoreOutcomes.
Import SystemService.
Context {S : Type} (h : handler S).

(** The four ways [Restore] can go: it stops while it looks for the
    archive; the check of the archive fails; the snapshot fails; or the
    snapshot is made, the stages from the stop of the service on run, and
    the snapshot is removed. *)
Lemma Restore_runs (backupPath : string) (s : S) :
  let r := run h (Restore backupPath) s in
  exists reads,
    Forall (fun e => read_only (ev_op e)) reads
    /\ ((trace_of r = reads /\ value_of r <> None)
        \/ (exists cleanPath,
              trace_of r = (reads ++ [Event (Exec "tar" (verifyArgs cleanPath)) false])%list
              /\ value_of r <> None)
        \/ (exists cleanPath snap,
              trace_of r = (reads ++ [Event (Exec "tar" (verifyArgs cleanPath)) true;
                                      Event Now true;
                                      Event (Exec "tar" (snapshotArgs snap)) false])%list
              /\ value_of r <> None)
        \/ (exists cleanPath (now : Z) s3 removed,
              let snap := "/tmp/nginx_pre_restore_" ++ pretty now ++ ".tar.gz" in
              let body := run h (restoreWithSnapshot cleanPath snap) s3 in
              trace_of r = (reads ++ Event (Exec "tar" (verifyArgs cleanPath)) true
                              :: Event Now true
                              :: Event (Exec "tar" (snapshotArgs snap)) true
                              :: trace_of body ++ [Event (Remove snap) removed])%list
              /\ value_of r = value_of body
              /\ s3 = state_after h s
                        (reads ++ [Event (Exec "tar" (verifyArgs cleanPath)) true;
                                   Event Now true;
                                   Event (Exec "tar" (snapshotArgs snap)) true]))).
Proof.
  unfold Restore. rewrite run_bind.
  pose proof (every_trace h read_only _ s (resolveArchive_reads backupPath)) as Hreads.
  pose proof (run_state_after h (resolveArchive backupPath) s) as Hs1.
  destruct (run h (resolveArchive backupPath) s) as [[res s1] reads].
  unfold trace_of, state_of in Hreads, Hs1. cbn [fst snd] in Hreads, Hs1.
  exists reads. split; [exact Hreads |].
  destruct res as [cleanPath | err0].
  2:{ left. cbn. rewrite app_nil_r. split; [reflexivity | discriminate]. }
  right.
  unfold restoreArchive, ExecuteSimple, time_Now_Unix, os_Remove, call.
  cbn [bind run].
  destruct (h (Exec "tar" (verifyArgs cleanPath)) s1) as [[out err] s2] eqn:H2.
  destruct err as [e |]; cbn [snd succeeded is_nil bind run].
  { left. exists cleanPath. unfold trace_of, value_of. cbn [fst snd].
    split; [reflexivity | discriminate]. }
  right.
  destruct (h Now s2) as [now s3] eqn:H3. cbn [bind run].
  match goal with |- context [snapshotArgs ?x] => set (snap := x) end.
  destruct (h (Exec "tar" (snapshotArgs snap)) s3) as [[out2 err2] s4] eqn:H4.
  destruct err2 as [e |]; cbn [snd succeeded is_nil bind run].
  { left. exists cleanPath, snap. unfold trace_of, value_of. cbn [fst snd].
    split; [reflexivity | discriminate]. }
  right. rewrite run_bind.
  exists cleanPath, now, s4. cbv zeta. fold snap.
  destruct (run h (restoreWithSnapshot cleanPath snap) s4) as [[v s5] body].
  cbn [bind run].
  destruct (h (Remove snap) s5) as [x1 s6].
  exists (is_nil x1). unfold trace_of, value_of. cbn [fst snd].
  split; [reflexivity |]. split; [reflexivity |].
  rewrite state_after_app, <- Hs1. unfold state_after. cbn [fold_left ev_op].
  rewrite H2. cbn [snd]. rewrite H3. cbn [snd]. by rewrite H4.
Qed.

(** X5.  [Restore] returns no error only at the end of a run whose last four
    calls are: the configuration test, which passed; the start of the
    service, which worked; the removal of the temporary directory; the
    removal of the snapshot. *)
Theorem Restore_succeeds_only_after_test_and_start (backupPath : string) (s : S) :
  let r := run h (Restore backupPath) s in
  value_of r = None ->
  exists before cleanPath dir snap removed1 removed2,
    trace_of r = (before ++ [Event test_cmd true; Event start_cmd true;
                             Event (RemoveAll dir) removed1;
                             Event (Remove snap) removed2])%list
    /\ Event (Exec "tar" (snapshotArgs snap)) true ∈ before
    /\ Event (extract_cmd cleanPath dir) true ∈ before.
Proof.
  intros r Hnone. subst r.
  destruct (Restore_runs backupPath s) as (reads & _ & Hruns).
  destruct Hruns as [[_ Hv] | [(c & _ & Hv) | [(c & sn & _ & Hv) | Hruns]]];
    try contradiction.
  destruct Hruns as (cleanPath & now & s3 & removed & Htr & Hval & _).
  cbv zeta in Htr, Hval.
  set (snap := "/tmp/nginx_pre_restore_" ++ pretty now ++ ".tar.gz") in *.
  rewrite Hnone in Hval. symmetry in Hval.
  destruct (restoreWithSnapshot_runs h cleanPath snap s3) as (head & _ & Hbody).
  destruct Hbody
    as [(s' & _ & Hv) | (dir & extracted & rest & removed1 & Hb & _ & Hok & _)];
    [contradiction |].
  destruct (Hok Hval) as [-> [pre ->]].
  rewrite Htr, Hb.
  exists (reads ++ Event (Exec "tar" (verifyArgs cleanPath)) true :: Event Now true
            :: Event (Exec "tar" (snapshotArgs snap)) true
            :: head ++ Event (MkdirTemp "" "nginx_restore") true
            :: Event (extract_cmd cleanPath dir) true :: pre)%list,
    cleanPath, dir, snap, removed1, removed.
  split; [repeat (rewrite <- ?app_assoc; cbn [app]); reflexivity |].
  split; apply elem_of_app; right; do 2 apply list_elem_of_further.
  - apply list_elem_of_here.
  - apply list_elem_of_further, elem_of_app. right.
    apply list_elem_of_further, list_elem_of_here.
Qed.

Lemma restoreFromBackup_no_mkdirtemp backupFile :
  every not_mkdirtemp (restoreFromBackup backupFile).
Proof. unfold restoreFromBackup. repeat every_step. Qed.

Lemma read_only_no_mkdirtemp (o : op) : read_only o -> not_mkdirtemp o.
Proof. destruct o; simpl; intros H; first [exact I | destruct H]. Qed.

(** X6.  Once the temporary directory has been made, the archive is extracted
    into it right away, and the last two calls of the run are the removal
    of that directory and the removal of the snapshot: the deferred
    clean-up runs on every return path.  The directory is the one that
    [os.MkdirTemp] answered with, in the state the environment was in
    after the calls before it. *)
Theorem temporary_directory_removed_on_every_return (backupPath : string) (s : S) :
  let r := run h (Restore backupPath) s in
  Event (MkdirTemp "" "nginx_restore") true ∈ trace_of r ->
  exists before cleanPath dir extracted rest snap removed1 removed2,
    trace_of r = (before ++ Event (MkdirTemp "" "nginx_restore") true
                    :: Event (extract_cmd cleanPath dir) extracted
                    :: rest ++ [Event (RemoveAll dir) removed1;
                                Event (Remove snap) removed2])%list
    /\ fst (h (MkdirTemp "" "nginx_restore") (state_after h s before)) = Ok dir
    /\ Event (Exec "tar" (snapshotArgs snap)) true ∈ before.
Proof.
  intros r Hin. subst r.
  destruct (Restore_runs backupPath s) as (reads & Hreads & Hruns).
  assert (Hquiet : Event (MkdirTemp "" "nginx_restore") true ∉ reads).
  { intros Hr. rewrite Forall_forall in Hreads. apply (Hreads _ Hr). }
  destruct Hruns as [[Htr _] | [(c & Htr & _) | [(c & sn & Htr & _) | Hruns]]].
  - rewrite Htr in Hin. contradiction.
  - rewrite Htr in Hin. apply elem_of_app in Hin as [Hin | Hin]; [contradiction |].
    apply list_elem_of_singleton in Hin. discriminate.
  - rewrite Htr in Hin. apply elem_of_app in Hin as [Hin | Hin]; [contradiction |].
    repeat (apply elem_of_cons in Hin as [Hin | Hin]; [discriminate |]).
    by apply elem_of_nil in Hin.
  - destruct Hruns as (cleanPath & now & s3 & removed & Htr & _ & Hs3).
    cbv zeta in Htr, Hs3.
    set (snap := "/tmp/nginx_pre_restore_" ++ pretty now ++ ".tar.gz") in *.
    destruct (restoreWithSnapshot_runs h cleanPath snap s3) as (head & Hhead & Hbody).
    destruct Hbody
      as [(s' & Hb & _) | (dir & extracted & rest & removed1 & Hb & Hdir & _)].
    + exfalso. rewrite Htr, Hb in Hin.
      apply elem_of_app in Hin as [Hin | Hin]; [contradiction |].
      do 3 (apply elem_of_cons in Hin as [Hin | Hin]; [discriminate |]).
      apply elem_of_app in Hin as [Hin | Hin].
      * apply elem_of_app in Hin as [Hin | Hin].
        -- rewrite Forall_forall in Hhead. destruct (Hhead _ Hin); discriminate.
        -- apply elem_of_cons in Hin as [Hin | Hin]; [discriminate |].
           pose proof (every_trace h not_mkdirtemp _ s'
                         (restoreFromBackup_no_mkdirtemp snap)) as Hno.
           rewrite Forall_forall in Hno. apply (Hno _ Hin).
      * apply list_elem_of_singleton in Hin. discriminate.
    + rewrite Htr, Hb.
      exists (reads ++ Event (Exec "tar" (verifyArgs cleanPath)) true :: Event Now true
                :: Event (Exec "tar" (snapshotArgs snap)) true :: head)%list,
        cleanPath, dir, extracted, rest, snap, removed1, removed.
      split; [repeat (rewrite <- ?app_assoc; cbn [app]); reflexivity |].
      split.
      * change (reads ++ Event (Exec "tar" (verifyArgs cleanPath)) true :: Event Now true
                  :: Event (Exec "tar" (snapshotArgs snap)) true :: head)%list
          with (reads ++ [Event (Exec "tar" (verifyArgs cleanPath)) true; Event Now true;
                          Event (Exec "tar" (snapshotArgs snap)) true] ++ head)%list.
        rewrite app_assoc, state_after_app, <- Hs3. exact Hdir.
      * apply elem_of_app. right. do 2 apply list_elem_of_further.
        apply list_elem_of_here.
Qed.

(** X7.  When [Restore] returns an error after the snapshot was made, it has
    run the rollback from that snapshot, whose name is not blank: the
    calls of [restoreFromBackup] on the snapshot are the last ones before
    the deferred clean-up. *)
Theorem Restore_failure_after_snapshot_rolls_back (backupPath : string) (s : S) :
  let r := run h (Restore backupPath) s in
  Exists (fun e => is_snapshot (ev_op e) = true /\ ev_ok e = true) (trace_of r) ->
  value_of r <> None ->
  exists snap before s' cleanup,
    trace_of r = (before ++ trace_of (run h (restoreFromBackup snap) s') ++ cleanup)%list
    /\ Event (Exec "tar" (snapshotArgs snap)) true ∈ before
    /\ GoStrings.TrimSpace snap <> ""
    /\ Forall (fun e => is_cleanup (ev_op e)) cleanup.
Proof.
  intros r Hex Hfail. subst r.
  destruct (Restore_runs backupPath s) as (reads & Hreads & Hruns).
  assert (Hquiet : ~ Exists (fun e => is_snapshot (ev_op e) = true /\ ev_ok e = true) reads).
  { intros Hr. apply Exists_exists in Hr as (e & Hin & Hs & _).
    rewrite Forall_forall in Hreads. unfold is_snapshot in Hs.
    rewrite (read_only_not_tar _ _ (Hreads e Hin)) in Hs. discriminate. }
  destruct Hruns as [[Htr _] | [(c & Htr & _) | [(c & sn & Htr & _) | Hruns]]].
  - rewrite Htr in Hex. contradiction.
  - exfalso. rewrite Htr in Hex. apply Exists_app in Hex as [Hex | Hex]; [contradiction |].
    apply Exists_cons in Hex as [[Hs _] | Hex]; [discriminate |].
    by apply Exists_nil in Hex.
  - exfalso. rewrite Htr in Hex. apply Exists_app in Hex as [Hex | Hex]; [contradiction |].
    repeat (apply Exists_cons in Hex as [[Hs Hok] | Hex]; [discriminate |]).
    by apply Exists_nil in Hex.
  - destruct Hruns as (cleanPath & now & s3 & removed & Htr & Hval & _).
    cbv zeta in Htr, Hval.
    assert (Hname : GoStrings.TrimSpace ("/tmp/nginx_pre_restore_" ++ pretty now ++ ".tar.gz")
                    <> "") by apply TrimSpace_rooted.
    set (snap := "/tmp/nginx_pre_restore_" ++ pretty now ++ ".tar.gz") in *.
    rewrite Hval in Hfail.
    destruct (restoreWithSnapshot_runs h cleanPath snap s3) as (head & _ & Hbody).
    destruct Hbody
      as [(s' & Hb & _) | (dir & extracted & rest & removed1 & Hb & _ & _ & Hrb)].
    + exists snap,
        (reads ++ Event (Exec "tar" (verifyArgs cleanPath)) true :: Event Now true
           :: Event (Exec "tar" (snapshotArgs snap)) true
           :: head ++ [Event (MkdirTemp "" "nginx_restore") false])%list,
        s', [Event (Remove snap) removed].
      split; [| split; [| split]].
      * rewrite Htr, Hb. repeat (rewrite <- ?app_assoc; cbn [app]). reflexivity.
      * apply elem_of_app. right. do 2 apply list_elem_of_further. apply list_elem_of_here.
      * exact Hname.
      * repeat constructor.
    + destruct (Hrb Hfail) as (pre & s' & Hpre).
      exists snap,
        (reads ++ Event (Exec "tar" (verifyArgs cleanPath)) true :: Event Now true
           :: Event (Exec "tar" (snapshotArgs snap)) true
           :: head ++ Event (MkdirTemp "" "nginx_restore") true :: pre)%list,
        s', [Event (RemoveAll dir) removed1; Event (Remove snap) removed].
      split; [| split; [| split]].
      * rewrite Htr, Hb.
        change (Event (MkdirTemp "" "nginx_restore") true
                  :: Event (extract_cmd cleanPath dir) extracted
                  :: rest ++ [Event (RemoveAll dir) removed1])%list
          with (Event (MkdirTemp "" "nginx_restore") true
                  :: (Event (extract_cmd cleanPath dir) extracted :: rest)
                  ++ [Event (RemoveAll dir) removed1])%list.
        rewrite Hpre. repeat (rewrite <- ?app_assoc; cbn [app]). reflexivity.
      * apply elem_of_app. right. do 2 apply list_elem_of_further. apply list_elem_of_here.
      * exact Hname.
      * repeat constructor.
Qed.

End RestoreOutcomes.

(** ** What the status of a response tells about the run *)

Section Responses.
Variable T : Templates.

Lemma ReadSiteRaw_reads domain : every is_read (SiteService.ReadSiteRaw domain).
Proof. unfold SiteService.ReadSiteRaw. repeat every_step. Qed.

Lemma ReadStreamRaw_reads name : every is_read (StreamService.ReadStreamRaw name).
Proof. unfold StreamService.ReadStreamRaw. repeat every_step. Qed.

Lemma GetStream_reads name : every is_read (StreamService.GetStream name).
Proof. unfold StreamService.GetStream. repeat every_step. Qed.

End Responses.

Ltac status_of H :=
  cbv [main.failure main.rolledBack main.message main.c_JSON Status main.StatusOK
       main.StatusCreated main.StatusBadRequest main.StatusNotFound
       main.StatusInternalServerError] in H.

Create HintDb reads.
#[export] Hint Resolve ReadSiteRaw_reads ReadStreamRaw_reads GetStream_reads : reads.

(** One step of a run, keeping what is known of the calls of a service
    that only reads. *)
Ltac read_step :=
  match goal with
  | |- context [run ?h (bind ?p ?f) ?s] =>
      rewrite (run_bind h p f s);
      try (let Hr := fresh "Hr" in
           assert (Hr : Forall (fun e => is_read (ev_op e)) (trace_of (run h p s)))
             by (apply every_trace; solve [auto with reads]);
           revert Hr);
      let a := fresh "a" in
      destruct (run h p s) as [[a ?] ?]; try destruct a
  | |- context [run ?h (if ?b then _ else _) ?s] => destruct b
  | |- context [run ?h (match ?b with _ => _ end) ?s] => destruct b
  end.

(** X8.  A request that is answered with a status from 400 to 499 (a body
    that does not bind, a name that does not match the path, a unit that
    cannot be read) has made no call but reads of the unit: nothing was
    written, removed or linked, and no command was run. *)
Theorem refused_request_only_reads
  (T : Templates) {S : Type} (h : handler S) (s : S) (req : main.request) :
  let r := run h (main.serve T req) s in
  400 <= Status (value_of r) < 500 ->
  Forall (fun e => is_read (ev_op e)) (trace_of r).
Proof.
  destruct req;
    cbv beta iota zeta delta
      [main.serve main.POST_sites main.PUT_sites_domain main.PUT_sites_domain_raw
       main.DELETE_sites_domain main.POST_streams main.PUT_streams_name
       main.DELETE_streams_name main.PUT_streams_name_raw];
    repeat read_step;
    cbn [run]; unfold value_of, trace_of; cbn [fst snd];
    intros;
    try (exfalso; match goal with H : _ <= Status _ < _ |- _ => status_of H; lia end);
    rewrite ?app_nil_r; first [assumption | constructor].
Qed.

(** X9.  A request that is answered with a status below 400 has ended with a
    configuration test that passed and a reload that worked: these are the
    last two calls of the run. *)
Theorem success_response_follows_reload
  (T : Templates) {S : Type} (h : handler S) (s : S) (req : main.request) :
  let r := run h (main.serve T req) s in
  Status (value_of r) < 400 ->
  exists before, trace_of r = (before ++ [Event test_cmd true; Event reload_cmd true])%list.
Proof.
  destruct req;
    cbv beta iota zeta delta
      [main.serve main.POST_sites main.PUT_sites_domain main.PUT_sites_domain_raw
       main.DELETE_sites_domain main.POST_streams main.PUT_streams_name
       main.DELETE_streams_name main.PUT_streams_name_raw];
    repeat run_step;
    cbn [run]; unfold value_of, trace_of; cbn [fst snd];
    intros Hst; try (exfalso; status_of Hst; lia);
    rewrite ?app_nil_r; repeat rewrite app_assoc;
    first [by exists [] | eexists; reflexivity].
Qed.

(** ** [selectLatestBackup]: when it fails, and what it returns *)

Section LatestMore.
Import GoStrings SystemService.
Variable dir : string.

Lemma recognized_or_not (e : DirEntry) :
  (exists t, recognized e t) \/ (forall t, ~ recognized e t).
Proof.
  unfold recognized.
  destruct (EntryIsDir e); [right; intros t (H & _); discriminate |].
  destruct (HasSuffix (Name e) ".tar.gz"); [| right; intros t (_ & H & _); discriminate].
  destruct (Info e) as [t | err]; [left; by exists t |].
  right. intros t (_ & _ & H). discriminate.
Qed.

Lemma considerEntry_skips (st : string * Z) (e : DirEntry) :
  (forall t, ~ recognized e t) -> considerEntry dir st e = st.
Proof.
  intros Hnot. destruct st as [sel latest]. unfold considerEntry.
  destruct (EntryIsDir e) eqn:Hd; [reflexivity |].
  destruct (HasSuffix (Name e) ".tar.gz") eqn:Hs; [| reflexivity]. cbn [negb].
  destruct (Info e) as [t |] eqn:Hi; [| reflexivity].
  exfalso. apply (Hnot t). repeat split; assumption.
Qed.

Lemma recognized_time (e : DirEntry) (t t' : Z) :
  recognized e t -> recognized e t' -> t = t'.
Proof. intros (_ & _ & H) (_ & _ & H'). congruence. Qed.

(** What the scan holds after the entries: nothing when none was
    recognized, and else the path and the time of a recognized entry that
    no recognized entry is newer than. *)
Lemma scan_result (entries : list DirEntry) :
  let st := fold_left (considerEntry dir) entries ("", zeroTime) in
  (st = ("", zeroTime) /\ forall e t, e ∈ entries -> ~ recognized e t)
  \/ (exists e t,
        e ∈ entries /\ recognized e t /\ st = (Filepath.Join [dir; Name e], t)
        /\ forall e' t', e' ∈ entries -> recognized e' t' -> t' <= t).
Proof.
  induction entries as [| x entries IH] using rev_ind; cbv zeta.
  { left. split; [reflexivity |]. intros e t Hin. by apply elem_of_nil in Hin. }
  rewrite fold_left_app. cbn [fold_left]. cbv zeta in IH.
  destruct IH as [[-> Hnone] | (e & t & Hin & He & -> & Hmax)].
  - destruct (recognized_or_not x) as [[t Hx] | Hx].
    + right. exists x, t. split; [apply elem_of_app; right; apply list_elem_of_here |].
      split; [exact Hx |]. split; [apply considerEntry_takes; [exact Hx | by left] |].
      intros e' t' Hin' He'. apply elem_of_app in Hin' as [Hin' | Hin'].
      * exfalso. by apply (Hnone e' t').
      * apply list_elem_of_singleton in Hin' as ->.
        rewrite (recognized_time _ _ _ He' Hx). lia.
    + left. split; [by apply considerEntry_skips |].
      intros e' t' Hin' He'. apply elem_of_app in Hin' as [Hin' | Hin'].
      * by apply (Hnone e' t').
      * apply list_elem_of_singleton in Hin' as ->. by apply (Hx t').
  - assert (Hne : Filepath.Join [dir; Name e] <> "").
    { apply Join_nonempty. by eapply recognized_name. }
    right. destruct (recognized_or_not x) as [[t2 Hx] | Hx].
    + destruct (Z.lt_ge_cases t t2) as [Hlt | Hge].
      * exists x, t2. split; [apply elem_of_app; right; apply list_elem_of_here |].
        split; [exact Hx |]. split; [apply considerEntry_takes; [exact Hx | by right] |].
        intros e' t' Hin' He'. apply elem_of_app in Hin' as [Hin' | Hin'].
        -- specialize (Hmax e' t' Hin' He'). lia.
        -- apply list_elem_of_singleton in Hin' as ->.
           rewrite (recognized_time _ _ _ He' Hx). lia.
      * exists e, t. split; [apply elem_of_app; by left |]. split; [exact He |].
        split.
        -- apply considerEntry_keeps; [exact Hne |].
           intros t3 Hx3. rewrite (recognized_time _ _ _ Hx3 Hx). lia.
        -- intros e' t' Hin' He'. apply elem_of_app in Hin' as [Hin' | Hin'].
           ++ by apply (Hmax e' t').
           ++ apply list_elem_of_singleton in Hin' as ->.
              rewrite (recognized_time _ _ _ He' Hx). lia.
    + exists e, t. split; [apply elem_of_app; by left |]. split; [exact He |].
      split; [by apply considerEntry_skips |].
      intros e' t' Hin' He'. apply elem_of_app in Hin' as [Hin' | Hin'].
      * by apply (Hmax e' t').
      * apply list_elem_of_singleton in Hin' as ->. exfalso. by apply (Hx t').
Qed.

Context {S : Type} (h : handler S).

(** X10.  [selectLatestBackup] makes one call, the listing of the directory,
    and fails in two cases only: the listing fails, or no entry of it is
    recognized (not a directory, a name ending in [.tar.gz], readable
    file information). *)
Theorem selectLatestBackup_fails_iff (s : S) :
  let r := run h (selectLatestBackup dir) s in
  map ev_op (trace_of r) = [ReadDir dir]
  /\ (is_Ok (value_of r) = false <->
      match fst (h (ReadDir dir) s) with
      | Err _ => True
      | Ok entries => forall e t, e ∈ entries -> ~ recognized e t
      end).
Proof.
  unfold selectLatestBackup, os_ReadDir, call. cbn [bind run].
  destruct (h (ReadDir dir) s) as [[entries | err] s1]; cbn [fst].
  2:{ cbn. split; [reflexivity |]. split; auto. }
  cbn [run]. unfold trace_of, value_of. cbn [fst snd map ev_op].
  split; [reflexivity |]. unfold latestOf.
  pose proof (scan_result entries) as Hscan. cbv zeta in Hscan.
  destruct Hscan as [[-> Hnone] | (e & t & Hin & He & -> & Hmax)].
  - cbn. split; [intros _; exact Hnone | reflexivity].
  - assert (Hne : Filepath.Join [dir; Name e] <> "").
    { apply Join_nonempty. by eapply recognized_name. }
    destruct (String.eqb_spec (Filepath.Join [dir; Name e]) "") as [Heq | _];
      [contradiction |].
    cbn [is_Ok]. split; [discriminate |].
    intros Hnone. exfalso. by apply (Hnone e t).
Qed.

(** X11.  The path that [selectLatestBackup] returns is that of a recognized
    entry of the listing, in the directory, and no recognized entry of
    the listing is newer. *)
Theorem selectLatestBackup_returns_a_newest (s : S) (path : string) :
  value_of (run h (selectLatestBackup dir) s) = Ok path ->
  exists entries e t,
    fst (h (ReadDir dir) s) = Ok entries
    /\ e ∈ entries /\ recognized e t
    /\ path = Filepath.Join [dir; Name e]
    /\ forall e' t', e' ∈ entries -> recognized e' t' -> t' <= t.
Proof.
  unfold selectLatestBackup, os_ReadDir, call. cbn [bind run].
  destruct (h (ReadDir dir) s) as [[entries | err] s1]; cbn [fst];
    [| cbn; discriminate].
  cbn [run]. unfold value_of. cbn [fst]. unfold latestOf.
  pose proof (scan_result entries) as Hscan. cbv zeta in Hscan.
  destruct Hscan as [[-> Hnone] | (e & t & Hin & He & -> & Hmax)];
    [cbn; discriminate |].
  destruct (String.eqb (Filepath.Join [dir; Name e]) ""); [discriminate |].
  intros [= <-]. exists entries, e, t. auto.
Qed.

End LatestMore.

(** ** [Backup] *)

Section BackupRuns.
Import GoStrings SystemService.
Context {S : Type} (h : handler S).
Variable stamp : Z -> string.

Lemma cut_prefix_app (p rest : string) : cut_prefix p (p ++ rest) = Some rest.
Proof.
  induction p as [| a p IH]; [reflexivity |].
  rewrite app_cons_s. cbn [cut_prefix]. by rewrite Ascii.eqb_refl.
Qed.

Lemma HasSuffix_app (a suffix : string) : HasSuffix (a ++ suffix) suffix = true.
Proof. unfold HasSuffix, HasPrefix. by rewrite srev_app, cut_prefix_app. Qed.

(** X12.  [Backup] makes the directory of the archives, whatever comes of
    that, reads the clock and runs [tar -czf] with the arguments of the
    snapshot that [Restore] takes; it returns the path of the archive
    exactly when the command worked.  The name of the archive ends in
    [.tar.gz]: on whatever listing of the directory that shows the
    archive as a file whose information can be read, the scan of
    [selectLatestBackup] finds an archive, and it finds the path that
    [Backup] returned when every other recognized entry of the listing
    is older. *)
Theorem Backup_writes_an_archive_that_is_recognized (s : S) :
  let r := run h (Backup stamp) s in
  exists made now worked,
    let name := "nginx_conf_" ++ stamp now ++ ".tar.gz" in
    let path := Filepath.Join ["/root/nginx_backups"; name] in
    trace_of r = [Event (MkdirAll "/root/nginx_backups") made; Event Now true;
                  Event (Exec "tar" (snapshotArgs path)) worked]
    /\ (worked = true -> value_of r = Ok path)
    /\ (worked = false -> is_Ok (value_of r) = false)
    /\ forall entries e t,
         e ∈ entries -> Name e = name -> EntryIsDir e = false -> Info e = Ok t ->
         is_Ok (latestOf "/root/nginx_backups" entries) = true
         /\ ((forall e' t', e' ∈ entries -> recognized e' t' -> Name e' = name \/ t' < t) ->
             latestOf "/root/nginx_backups" entries = Ok path).
Proof.
  unfold Backup, os_MkdirAll, time_Now_Unix, ExecuteSimple, call. cbn [bind run].
  destruct (h (MkdirAll "/root/nginx_backups") s) as [made s1]. cbn [bind run].
  destruct (h Now s1) as [now s2]. cbn [bind run].
  set (name := "nginx_conf_" ++ stamp now ++ ".tar.gz").
  set (path := Filepath.Join ["/root/nginx_backups"; name]).
  change ["-czf"; path; "-C"; "/"; "etc/nginx"; "var/www/html"] with (snapshotArgs path).
  destruct (h (Exec "tar" (snapshotArgs path)) s2) as [[out err] s3].
  exists (is_nil made), now, (is_nil err). cbv zeta. fold name path.
  assert (Hsuffix : HasSuffix name ".tar.gz" = true).
  { unfold name. rewrite <- app_assoc_s. apply HasSuffix_app. }
  split; [| split; [| split]].
  - destruct err; reflexivity.
  - destruct err; [discriminate | reflexivity].
  - destruct err; [reflexivity | discriminate].
  - intros entries e t Hin Hname Hfile Hinfo.
    assert (He : recognized e t) by (repeat split; [assumption | by rewrite Hname | assumption]).
    unfold latestOf.
    pose proof (scan_result "/root/nginx_backups" entries) as Hscan. cbv zeta in Hscan.
    destruct Hscan as [[_ Hnone] | (e0 & t0 & Hin0 & He0 & -> & Hmax)];
      [exfalso; by apply (Hnone e t) |].
    assert (Hne : Filepath.Join ["/root/nginx_backups"; Name e0] <> "").
    { apply Join_nonempty. by eapply recognized_name. }
    destruct (String.eqb_spec (Filepath.Join ["/root/nginx_backups"; Name e0]) "")
      as [Heq | _]; [contradiction |].
    split; [reflexivity |]. intros Holder.
    destruct (Holder e0 t0 Hin0 He0) as [-> | Hlt]; [reflexivity |].
    specialize (Hmax e t Hin He). lia.
Qed.

End BackupRuns.

(** ** Reading a site back *)

Section GetSiteRuns.
Import model SiteService.

Lemma parseLoadBalancers_keeps content config :
  Domain (parseLoadBalancers content config) = Domain config
  /\ Type_ (parseLoadBalancers content config) = Type_ config.
Proof. split; reflexivity. Qed.

Lemma parseProxyBackend_keeps content config :
  Domain (parseProxyBackend content config) = Domain config
  /\ Type_ (parseProxyBackend content config) = Type_ config.
Proof. unfold parseProxyBackend. repeat case_match; split; reflexivity. Qed.

Lemma parseRedirectTarget_keeps content config :
  Domain (parseRedirectTarget content config) = Domain config
  /\ Type_ (parseRedirectTarget content config) = Type_ config.
Proof. unfold parseRedirectTarget. repeat case_match; split; reflexivity. Qed.

(** Whatever the text, the configuration read from it has the domain
    asked for and a type among proxy, static, lb and redirect. *)
Lemma siteFrom_supported (domain content : string) :
  Domain (siteFrom domain content) = domain
  /\ Type_ (siteFrom domain content) ∈ supported_types.
Proof.
  unfold siteFrom.
  destruct (String.eqb_spec (extractSiteType content) "") as [Ht | Ht]; cbn [negb].
  - destruct (GoStrings.Contains content "proxy_pass").
    + destruct (GoStrings.Contains content "upstream").
      * rewrite (proj1 (parseLoadBalancers_keeps _ _)), (proj2 (parseLoadBalancers_keeps _ _)).
        split; [reflexivity | set_solver].
      * rewrite (proj1 (parseProxyBackend_keeps _ _)), (proj2 (parseProxyBackend_keeps _ _)).
        split; [reflexivity | set_solver].
    + destruct (GoStrings.Contains content "return 301").
      * rewrite (proj1 (parseRedirectTarget_keeps _ _)), (proj2 (parseRedirectTarget_keeps _ _)).
        split; [reflexivity | set_solver].
      * split; [reflexivity | set_solver].
  - destruct (String.eqb_spec (extractSiteType content) "lb") as [Hlb | _].
    { rewrite (proj1 (parseLoadBalancers_keeps _ _)), (proj2 (parseLoadBalancers_keeps _ _)).
      cbn [Domain Type_ withType]. rewrite Hlb. split; [reflexivity | set_solver]. }
    destruct (String.eqb_spec (extractSiteType content) "proxy") as [Hp | _].
    { rewrite (proj1 (parseProxyBackend_keeps _ _)), (proj2 (parseProxyBackend_keeps _ _)).
      cbn [Domain Type_ withType]. rewrite Hp. split; [reflexivity | set_solver]. }
    destruct (String.eqb_spec (extractSiteType content) "redirect") as [Hr | _].
    { rewrite (proj1 (parseRedirectTarget_keeps _ _)), (proj2 (parseRedirectTarget_keeps _ _)).
      cbn [Domain Type_ withType]. rewrite Hr. split; [reflexivity | set_solver]. }
    split; [reflexivity | set_solver].
Qed.

Context {S : Type} (h : handler S).

Lemma run_GetSite (domain : string) (s : S) :
  run h (GetSite domain) s
  = (match fst (h (ReadFile (availablePath domain)) s) with
     | Ok content => Ok (siteFrom domain content)
     | Err err => Err err
     end,
     snd (h (ReadFile (availablePath domain)) s),
     [Event (ReadFile (availablePath domain))
        (is_Ok (fst (h (ReadFile (availablePath domain)) s)))]).
Proof.
  unfold GetSite, ReadSiteRaw, os_ReadFile, call. cbn [bind run].
  destruct (h (ReadFile (availablePath domain)) s) as [[content | err] s1]; reflexivity.
Qed.

(** X13.  [GetSite] makes one call, the read of the available copy, and
    returns the error of that read when it fails.  Otherwise it returns
    a configuration, whatever the text: its domain is the one asked for
    and its type is one of proxy, static, lb and redirect, also when a
    [site_type:] marker names another type. *)
Theorem GetSite_returns_a_supported_type (domain : string) (s : S) :
  let r := run h (GetSite domain) s in
  map ev_op (trace_of r) = [ReadFile (availablePath domain)]
  /\ match fst (h (ReadFile (availablePath domain)) s) with
     | Err err => value_of r = Err err
     | Ok _ =>
         exists config,
           value_of r = Ok config /\ Domain config = domain
           /\ Type_ config ∈ supported_types
     end.
Proof.
  cbv zeta. rewrite run_GetSite. unfold trace_of, value_of. cbn [fst snd map ev_op].
  split; [reflexivity |].
  destruct (fst (h (ReadFile (availablePath domain)) s)) as [content | err];
    [| reflexivity].
  exists (siteFrom domain content). split; [reflexivity |]. apply siteFrom_supported.
Qed.

End GetSiteRuns.

Section ListSites.
Import model SiteService.
Context {S : Type} (h : handler S).

(** The loop of [ListSiteConfigs], when it returns a list: the list it
    started from, then one configuration for each domain, in order; each
    file was read once, in that order. *)
Lemma getSites_runs (domains : list string) (configs : list SiteConfig) (s : S)
    (all : list SiteConfig) :
  value_of (run h (getSites domains configs) s) = Ok all ->
  exists more,
    all = (configs ++ more)%list
    /\ map Domain more = domains
    /\ Forall (fun c => Type_ c ∈ supported_types) more
    /\ map ev_op (trace_of (run h (getSites domains configs) s))
       = map (fun d => ReadFile (availablePath d)) domains.
Proof.
  revert configs s. induction domains as [| d domains IH]; intros configs s; cbn [getSites].
  - cbn. intros [= <-]. exists []. rewrite app_nil_r. repeat split; constructor.
  - rewrite run_bind.
    rewrite run_GetSite.
    destruct (h (ReadFile (availablePath d)) s) as [[content | err] s1]; cbn [fst snd];
      [| cbn; discriminate].
    destruct (siteFrom_supported d content) as [Hd Ht].
    specialize (IH (configs ++ [siteFrom d content])%list s1).
    destruct (run h (getSites domains (configs ++ [siteFrom d content])) s1)
      as [[v s2] tr2].
    unfold trace_of, value_of in *. cbn [fst snd] in *.
    intros Hall. destruct (IH Hall) as (more & -> & Hdom & Htypes & Htr2).
    exists (siteFrom d content :: more). rewrite <- app_assoc. cbn [app map ev_op].
    split; [reflexivity |]. split; [by rewrite Hd, Hdom |].
    split; [by constructor |]. by rewrite Htr2.
Qed.

(** X14.  When [ListSiteConfigs] returns a list, it holds one configuration for
    each entry of the listing of [sites-available], in the order of the
    listing, with the name of the entry as its domain and a supported
    type; the calls were the listing and then one read for each entry. *)
Theorem ListSiteConfigs_follows_the_listing (s : S) (configs : list SiteConfig) :
  let dir := Filepath.Join [ConfDir; "sites-available"] in
  let r := run h ListSiteConfigs s in
  value_of r = Ok configs ->
  exists entries,
    fst (h (ReadDir dir) s) = Ok entries
    /\ map Domain configs = map Name entries
    /\ Forall (fun c => Type_ c ∈ supported_types) configs
    /\ map ev_op (trace_of r)
       = ReadDir dir :: map (fun e => ReadFile (availablePath (Name e))) entries.
Proof.
  intros dir. unfold ListSiteConfigs, ListSites, os_ReadDir, call. fold dir.
  cbn [bind run].
  destruct (h (ReadDir dir) s) as [[entries | err] s1]; cbn [fst];
    [| cbn; discriminate].
  cbn [bind run].
  pose proof (getSites_runs (map Name entries) [] s1 configs) as Hloop.
  destruct (run h (getSites (map Name entries) []) s1) as [[v s2] tr].
  unfold trace_of, value_of in *. cbn [fst snd] in *.
  intros Hv. destruct (Hloop Hv) as (more & -> & Hdom & Htypes & Htr).
  exists entries. cbn [app map ev_op]. rewrite Htr, map_map.
  split; [reflexivity |]. split; [exact Hdom |]. split; [exact Htypes | reflexivity].
Qed.

End ListSites.

(** ** Reading a stream back *)

Section GetStreamRuns.
Import model GoStrings StreamService.

(** The scan of the lines fails exactly when one of them is a [listen]
    line whose port is not a number. *)
Lemma scanLines_fails_iff (lines : list string) (cfg : StreamConfig) :
  is_Ok (scanLines lines cfg) = false <-> Exists bad_listen lines.
Proof.
  revert cfg. induction lines as [| line rest IH]; intros cfg; cbn [scanLines].
  - cbn. split; [discriminate | intros H; by apply Exists_nil in H].
  - rewrite Exists_cons. unfold bad_listen at 1. cbv zeta.
    destruct (HasPrefix (TrimSpace line) "listen ") eqn:Hl.
    + destruct (Atoi _) as [e | port] eqn:Hatoi.
      * cbn. split; [intros _; left; eauto | reflexivity].
      * rewrite IH. split; [by right |].
        intros [(_ & e & He) | Hrest]; [discriminate | exact Hrest].
    + assert (Hskip : forall r : result StreamConfig,
                (is_Ok r = false <-> Exists bad_listen rest) ->
                is_Ok r = false
                <-> (false = true /\ (exists e, Atoi (TrimSuffix (TrimPrefix (TrimSpace line) "listen ") ";") = inl e))
                    \/ Exists bad_listen rest).
      { intros r Hr. rewrite Hr. split; [by right |].
        intros [(H & _) | H]; [discriminate | exact H]. }
      destruct (HasPrefix (TrimSpace line) "server " && HasSuffix (TrimSpace line) ";");
        apply Hskip, IH.
Qed.

Context {S : Type} (h : handler S).

Lemma run_GetStream (name : string) (s : S) :
  run h (GetStream name) s
  = (match fst (h (ReadFile (availablePath name)) s) with
     | Ok content =>
         scanLines (Split content "010"%char)
           {| StreamName := name; ListenPort := 0; Target := "" |}
     | Err err => Err err
     end,
     snd (h (ReadFile (availablePath name)) s),
     [Event (ReadFile (availablePath name))
        (is_Ok (fst (h (ReadFile (availablePath name)) s)))]).
Proof.
  unfold GetStream, os_ReadFile, call. cbn [bind run].
  destruct (h (ReadFile (availablePath name)) s) as [[content | err] s1]; reflexivity.
Qed.

(** X15.  [GetStream] makes one call, the read of the available copy.  It
    fails when that read fails, with its error, and when a line of the
    text, once trimmed, starts with [listen ] and what follows, without a
    final semicolon, is not a number ([listen 53 udp;] is such a line);
    in no other case.  The configuration it returns has the name asked
    for. *)
Theorem GetStream_fails_on_a_listen_line_only (name : string) (s : S) :
  let r := run h (GetStream name) s in
  map ev_op (trace_of r) = [ReadFile (availablePath name)]
  /\ match fst (h (ReadFile (availablePath name)) s) with
     | Err err => value_of r = Err err
     | Ok content =>
         (is_Ok (value_of r) = false
          <-> Exists bad_listen (Split content "010"%char))
         /\ forall cfg, value_of r = Ok cfg -> StreamName cfg = name
     end.
Proof.
  cbv zeta. rewrite run_GetStream. unfold trace_of, value_of. cbn [fst snd map ev_op].
  split; [reflexivity |].
  destruct (fst (h (ReadFile (availablePath name)) s)) as [content | err];
    [| reflexivity].
  split; [apply scanLines_fails_iff |].
  intros cfg Hcfg. by apply scanLines_name in Hcfg.
Qed.

(** [WriteStreamRaw] starts with [os.MkdirAll] on the directory of the
    available copy. *)
Lemma WriteStreamRaw_starts (name content : string) (s : S) :
  exists made rest,
    trace_of (run h (WriteStreamRaw name content) s)
    = Event (MkdirAll (Filepath.Dir (availablePath name))) made :: rest.
Proof.
  unfold WriteStreamRaw, os_MkdirAll, call. cbn [bind run].
  destruct (h (MkdirAll _) s) as [made s1].
  match goal with |- context [run h ?p s1] => destruct (run h p s1) as [[v s2] tr] end.
  unfold trace_of. cbn [snd]. eexists _, _. reflexivity.
Qed.

(** X16.  A stream whose text has a [listen] line with a port that is not a
    number is turned down by the two routes that read it back through
    [GetStream] first: [PUT /streams/:name] and [DELETE /streams/:name]
    are both answered with status 404 after the one read, and nothing
    else is called.  The raw route does not read it back that way:
    [PUT /streams/:name/raw] goes on to [WriteStreamRaw] after the read
    and is not answered with 404, so the text of such a stream can still
    be replaced through it. *)
Theorem stream_with_unreadable_port_is_refused
  (T : Templates) (name content : string) (bound : result StreamConfig) (s : S) :
  fst (h (ReadFile (availablePath name)) s) = Ok content ->
  Exists bad_listen (Split content "010"%char) ->
  let r1 := run h (main.PUT_streams_name T name bound) s in
  let r2 := run h (main.DELETE_streams_name T name) s in
  Status (value_of r1) = 404 /\ map ev_op (trace_of r1) = [ReadFile (availablePath name)]
  /\ Status (value_of r2) = 404 /\ map ev_op (trace_of r2) = [ReadFile (availablePath name)]
  /\ forall text : string,
       let r3 := run h (main.PUT_streams_name_raw name (Ok text)) s in
       Status (value_of r3) <> 404
       /\ exists rest,
            map ev_op (trace_of r3)
            = ReadFile (availablePath name)
                :: MkdirAll (Filepath.Dir (availablePath name)) :: rest.
Proof.
  intros Hread Hbad. cbv zeta.
  split; [| split; [| split; [| split]]];
    try (unfold main.PUT_streams_name, main.DELETE_streams_name;
         rewrite !run_bind, run_GetStream, Hread;
         apply (scanLines_fails_iff _ {| StreamName := name; ListenPort := 0; Target := "" |})
           in Hbad;
         destruct (scanLines _ _) as [cfg | err]; [discriminate |];
         reflexivity).
  intros text. unfold main.PUT_streams_name_raw, ReadStreamRaw, os_ReadFile, call.
  cbn [bind run].
  destruct (h (ReadFile (availablePath name)) s) as [x s1]. cbn [fst] in Hread. subst x.
  rewrite run_bind.
  destruct (WriteStreamRaw_starts name text s1) as (made & rest & Htr).
  destruct (run h (WriteStreamRaw name text) s1) as [[[e |] s2] tr];
    unfold trace_of in Htr; cbn [snd] in Htr; subst tr.
  { cbn [run]. unfold value_of, trace_of. cbn [fst snd].
    split; [intros Hst; status_of Hst; discriminate Hst |].
    eexists. reflexivity. }
  rewrite run_bind.
  destruct (run h SystemService.Reload s2) as [[[e |] s3] tr2].
  - rewrite run_bind. destruct (run h (WriteStreamRaw name content) s3) as [[v4 s4] tr4].
    rewrite run_bind. destruct (run h SystemService.Reload s4) as [[v5 s5] tr5].
    cbn [run]. unfold value_of, trace_of. cbn [fst snd].
    split; [intros Hst; status_of Hst; discriminate Hst |].
    eexists. reflexivity.
  - cbn [run]. unfold value_of, trace_of. cbn [fst snd].
    split; [intros Hst; status_of Hst; discriminate Hst |].
    eexists. reflexivity.
Qed.

End GetStreamRuns.

Section ListStreams.
Import model StreamService.
Context {S : Type} (h : handler S).

Lemma getStreams_runs (names : list string) (configs : list StreamConfig) (s : S)
    (all : list StreamConfig) :
  value_of (run h (getStreams names configs) s) = Ok all ->
  exists more,
    all = (configs ++ more)%list
    /\ map StreamName more = names
    /\ map ev_op (trace_of (run h (getStreams names configs) s))
       = map (fun n => ReadFile (availablePath n)) names.
Proof.
  revert configs s. induction names as [| n names IH]; intros configs s; cbn [getStreams].
  - cbn. intros [= <-]. exists []. rewrite app_nil_r. repeat split; constructor.
  - rewrite run_bind.
    rewrite run_GetStream.
    destruct (h (ReadFile (availablePath n)) s) as [[content | err] s1]; cbn [fst snd];
      [| cbn; discriminate].
    destruct (scanLines _ _) as [c | err] eqn:Hscan; [| cbn; discriminate].
    apply scanLines_name in Hscan. cbn [StreamName] in Hscan.
    specialize (IH (configs ++ [c])%list s1).
    destruct (run h (getStreams names (configs ++ [c])) s1) as [[v s2] tr2].
    unfold trace_of, value_of in *. cbn [fst snd] in *.
    intros Hall. destruct (IH Hall) as (more & -> & Hnames & Htr2).
    exists (c :: more). rewrite <- app_assoc. cbn [app map ev_op].
    split; [reflexivity |]. split; [by rewrite Hscan, Hnames |].
    by rewrite Htr2.
Qed.

(** X17.  When [ListStreamConfigs] returns a list, it holds one configuration
    for each entry of the listing of [streams-available], in the order of
    the listing, with the name of the entry as its name; the calls were
    the listing and then one read for each entry.  So one entry that
    [GetStream] cannot read makes the whole request fail. *)
Theorem ListStreamConfigs_follows_the_listing (s : S) (configs : list StreamConfig) :
  let dir := Filepath.Join [ConfDir; "streams-available"] in
  let r := run h ListStreamConfigs s in
  value_of r = Ok configs ->
  exists entries,
    fst (h (ReadDir dir) s) = Ok entries
    /\ map StreamName configs = map Name entries
    /\ map ev_op (trace_of r)
       = ReadDir dir :: map (fun e => ReadFile (availablePath (Name e))) entries.
Proof.
  intros dir. unfold ListStreamConfigs, ListStreams, os_ReadDir, call. fold dir.
  cbn [bind run].
  destruct (h (ReadDir dir) s) as [[entries | err] s1]; cbn [fst];
    [| cbn; discriminate].
  cbn [bind run].
  pose proof (getStreams_runs (map Name entries) [] s1 configs) as Hloop.
  destruct (run h (getStreams (map Name entries) []) s1) as [[v s2] tr].
  unfold trace_of, value_of in *. cbn [fst snd] in *.
  intros Hv. destruct (Hloop Hv) as (more & -> & Hnames & Htr).
  exists entries. cbn [app map ev_op]. rewrite Htr, map_map.
  split; [reflexivity |]. split; [exact Hnames | reflexivity].
Qed.

End ListStreams.

(** ** Raw writes, restores and deletes in the environment with a file tree *)

Section FSMore.
Import FS FSCases FSFacts.
Variable ext : outside.

(** X18.  A raw write that works is read back as written, and changes one
    regular file of the tree and nothing else; the activation link is
    not looked at. *)
Theorem WriteSiteRaw_then_ReadSiteRaw (domain content : string) (w w1 : world) :
  after ext (SiteService.WriteSiteRaw domain content) w = (None, w1) ->
  after ext (SiteService.ReadSiteRaw domain) w1 = (Ok content, w1)
  /\ exists q, files w1 = <[q := File content]> (files w).
Proof.
  rewrite after_WriteSiteRaw. unfold write_file.
  pose proof (open_trunc_cases (files w) (key (SiteService.availablePath domain)) content)
    as Hcases.
  destruct (open_trunc _ _ content) as [[q | e] t1] eqn:Hopen;
    cbn [on_files fst snd]; [| discriminate].
  intros [= <-]. rewrite after_ReadSiteRaw. cbn [files].
  rewrite (read_after_open _ _ _ _ _ Hopen). split; [reflexivity |].
  inversion Hcases; subst. by eexists.
Qed.

(** After [os.MkdirAll], whatever it returned, a path that held no link
    holds no link. *)
Lemma mkdir_all_no_link (t t' : tree) (rk k : list string) (e : option error) :
  mkdir_all t rk = (e, t') ->
  (forall target, node_at t k <> Some (Link target)) ->
  forall target, node_at t' k <> Some (Link target).
Proof.
  intros Hmk Hno target. destruct (mkdir_all_grown _ _ _ _ Hmk k) as [-> | [_ ->]];
    [apply Hno | discriminate].
Qed.

(** Writing a file at a path that holds no link: when it works, the
    path holds the text. *)
Lemma write_file_at (t t' : tree) (k : list string) (data : string) :
  (forall target, node_at t k <> Some (Link target)) ->
  write_file t k data = (None, t') ->
  k <> [] /\ t' = <[k := File data]> t.
Proof.
  intros Hno. unfold write_file.
  pose proof (open_trunc_cases t k data) as Hcases.
  destruct (open_trunc t k data) as [[q | e] t1]; [| discriminate].
  intros [= <-]. inversion Hcases as [q' Hres Hq Hnode |]; subst.
  rewrite resolve_not_link in Hres by exact Hno. injection Hres as <-. by split.
Qed.

(** Removing what is at a path, whatever comes of it, then making a link
    there: when the link is made, the path holds it and the other paths
    are as before, but for what is gone with the removal at the path
    itself. *)
Lemma relink_at (t : tree) (oldname : string) (k q : list string) (t' : tree) :
  symlink (snd (remove t k)) oldname k = (None, t') ->
  node_at t' k = Some (Link oldname) /\ (q <> k -> node_at t' q = node_at t q).
Proof.
  pose proof (remove_cases t k) as Hrm.
  destruct (remove t k) as [e1 t1]. cbn [snd].
  pose proof (symlink_cases t1 oldname k) as Hln.
  destruct (symlink t1 oldname k) as [[e2 |] t2]; [discriminate |].
  intros [= <-]. inversion Hln as [Hk Hfree Hdir |]; subst.
  split; [rewrite node_at_insert by exact Hk; by rewrite decide_True |].
  intros Hq. rewrite node_at_insert by exact Hk. rewrite decide_False by exact Hq.
  inversion Hrm as [n Hk' Hn | e' _ _]; subst; [| reflexivity].
  rewrite node_at_delete by exact Hk. by rewrite decide_False.
Qed.

(** X19.  [RestoreSiteRaw], where the available path holds no link and
    differs from the activation path, and the directory of the copies
    and the directory of the links are directories of the tree reached
    through directories, with no link and no file on the way: when it
    returns no error, the available copy holds the text and the
    activation path holds a link to the available copy, whatever was
    there before. *)
Theorem RestoreSiteRaw_writes_and_enables (domain content : string) (w w1 : world) :
  let pa := SiteService.availablePath domain in
  let pe := SiteService.enabledPath domain in
  (forall target, node_at (files w) (key pa) <> Some (Link target)) ->
  key pa <> key pe ->
  real_dir (files w) (parent (key pa)) = true ->
  real_dir (files w) (parent (key pe)) = true ->
  after ext (SiteService.RestoreSiteRaw domain content) w = (None, w1) ->
  node_at (files w1) (key pa) = Some (File content)
  /\ node_at (files w1) (key pe) = Some (Link pa).
Proof.
  intros pa pe Hno Hne _ _. unfold SiteService.RestoreSiteRaw. fold pa pe.
  rewrite after_bind, after_os_MkdirAll.
  destruct (mkdir_all (files w) _) as [[e0 |] t0] eqn:Hmk; cbn [on_files fst snd];
    [rewrite after_ret; discriminate |].
  pose proof (mkdir_all_no_link _ _ _ (key pa) _ Hmk Hno) as Hno0.
  rewrite after_bind, after_os_WriteFile. cbn [files].
  destruct (write_file t0 (key pa) content) as [[e1 |] t1] eqn:Hwr;
    cbn [on_files fst snd]; [rewrite after_ret; discriminate |].
  destruct (write_file_at _ _ _ _ Hno0 Hwr) as [Hka ->].
  rewrite after_bind, after_os_Remove. cbn [files clock].
  rewrite (surjective_pairing (remove _ (key pe))). cbn [on_files fst snd].
  rewrite after_os_Symlink. cbn [files clock].
  destruct (symlink _ pa (key pe)) as [[e3 |] t3] eqn:Hln; cbn [on_files fst snd];
    [discriminate |].
  intros [= <-]. cbn [files].
  destruct (relink_at _ _ _ (key pa) _ Hln) as [Hlink Hother].
  split; [| exact Hlink].
  rewrite Hother by exact Hne. rewrite node_at_insert by exact Hka.
  by rewrite decide_True.
Qed.

Lemma WriteStreamRaw_steps (name content : string) :
  StreamService.WriteStreamRaw name content
  = (made ← os_MkdirAll (Filepath.Dir (StreamService.availablePath name));
     match made with
     | Some e => Ret (Some e)
     | None =>
         written ← os_WriteFile (StreamService.availablePath name) content;
         match written with
         | Some e => Ret (Some e)
         | None =>
             info ← os_Lstat (StreamService.enabledPath name);
             match info with
             | Ok info =>
                 if negb (IsSymlink info) then
                   _ ← os_Remove (StreamService.enabledPath name);
                   os_Symlink (StreamService.availablePath name)
                     (StreamService.enabledPath name)
                 else Ret None
             | Err e =>
                 if os_IsNotExist e
                 then os_Symlink (StreamService.availablePath name)
                        (StreamService.enabledPath name)
                 else Ret (Some e)
             end
         end
     end).
Proof. reflexivity. Qed.

(** X20.  [WriteStreamRaw], where the available path holds no link and
    differs from the activation path, and the directory of the copies
    and the directory of the links are directories of the tree reached
    through directories, with no link and no file on the way: when it
    returns no error, the available copy holds the text; an activation
    link that was there is kept as it was, wherever it points, and
    otherwise the activation path now holds a link to the available
    copy. *)
Theorem WriteStreamRaw_keeps_a_link_that_is_there (name content : string) (w w1 : world) :
  let pa := StreamService.availablePath name in
  let pe := StreamService.enabledPath name in
  (forall target, node_at (files w) (key pa) <> Some (Link target)) ->
  key pa <> key pe ->
  real_dir (files w) (parent (key pa)) = true ->
  real_dir (files w) (parent (key pe)) = true ->
  after ext (StreamService.WriteStreamRaw name content) w = (None, w1) ->
  node_at (files w1) (key pa) = Some (File content)
  /\ node_at (files w1) (key pe)
     = match node_at (files w) (key pe) with
       | Some (Link target) => Some (Link target)
       | _ => Some (Link pa)
       end.
Proof.
  intros pa pe Hno Hne _ _. rewrite WriteStreamRaw_steps. fold pa pe.
  rewrite after_bind, after_os_MkdirAll.
  destruct (mkdir_all (files w) _) as [[e0 |] t0] eqn:Hmk; cbn [on_files fst snd];
    [rewrite after_ret; discriminate |].
  pose proof (mkdir_all_no_link _ _ _ (key pa) _ Hmk Hno) as Hno0.
  pose proof (mkdir_all_grown _ _ _ _ Hmk (key pe)) as Hpe0.
  rewrite after_bind, after_os_WriteFile. cbn [files].
  destruct (write_file t0 (key pa) content) as [[e1 |] t1] eqn:Hwr;
    cbn [on_files fst snd]; [rewrite after_ret; discriminate |].
  destruct (write_file_at _ _ _ _ Hno0 Hwr) as [Hka ->].
  assert (Hpa1 : node_at (<[key pa := File content]> t0) (key pa) = Some (File content)).
  { rewrite node_at_insert by exact Hka. by rewrite decide_True. }
  assert (Hpe1 : node_at (<[key pa := File content]> t0) (key pe) = node_at t0 (key pe)).
  { rewrite node_at_insert by exact Hka. rewrite decide_False by congruence. reflexivity. }
  rewrite after_bind, after_os_Lstat. cbn [files]. unfold lstat. rewrite Hpe1.
  destruct (node_at t0 (key pe)) as [[body | target |] |] eqn:Hn0; cbn [IsSymlink negb].
  - (* a regular file at the activation path *)
    rewrite after_bind, after_os_Remove. cbn [files clock].
    rewrite (surjective_pairing (remove _ (key pe))). cbn [on_files fst snd].
    rewrite after_os_Symlink. cbn [files clock].
    destruct (symlink _ pa (key pe)) as [[e3 |] t3] eqn:Hln; cbn [on_files fst snd];
      [discriminate |].
    intros [= <-]. cbn [files].
    destruct (relink_at _ _ _ (key pa) _ Hln) as [Hlink Hother].
    rewrite Hother by exact Hne. split; [exact Hpa1 |].
    destruct Hpe0 as [<- | [-> _]]; exact Hlink.
  - (* a link: kept *)
    rewrite after_ret. intros [= <-]. cbn [files]. split; [exact Hpa1 |].
    rewrite Hpe1. destruct Hpe0 as [<- | [_ Hd]]; [reflexivity | discriminate].
  - (* a directory *)
    rewrite after_bind, after_os_Remove. cbn [files clock].
    rewrite (surjective_pairing (remove _ (key pe))). cbn [on_files fst snd].
    rewrite after_os_Symlink. cbn [files clock].
    destruct (symlink _ pa (key pe)) as [[e3 |] t3] eqn:Hln; cbn [on_files fst snd];
      [discriminate |].
    intros [= <-]. cbn [files].
    destruct (relink_at _ _ _ (key pa) _ Hln) as [Hlink Hother].
    rewrite Hother by exact Hne. split; [exact Hpa1 |].
    destruct Hpe0 as [<- | [-> _]]; exact Hlink.
  - (* nothing *)
    destruct (os_IsNotExist _); [| rewrite after_ret; discriminate].
    rewrite after_os_Symlink. cbn [files clock].
    pose proof (symlink_cases (<[key pa := File content]> t0) pa (key pe)) as Hcases.
    destruct (symlink _ pa (key pe)) as [[e3 |] t3] eqn:Hln; cbn [on_files fst snd];
      [discriminate |].
    intros [= <-]. cbn [files].
    inversion Hcases as [Hk Hfree Hdir |]; subst.
    rewrite !node_at_insert by assumption.
    rewrite decide_False by exact Hne. rewrite decide_True by reflexivity.
    rewrite decide_True by reflexivity. split; [reflexivity |].
    destruct Hpe0 as [<- | [-> _]]; reflexivity.
Qed.

Lemma remove_missing (t : tree) (k : list string) :
  node_at t k = None -> real_dir t (parent k) = true ->
  remove t k = (Some (PathError ENOENT), t).
Proof.
  intros Hn Hdir. unfold remove. rewrite (missing_in_real_dir _ _ Hdir).
  destruct k as [| c k']; [discriminate |].
  cbn [node_at] in Hn. by rewrite Hn.
Qed.


(** X22.  [DeleteSite] removes the activation link first and does not look
    at what comes of it: where the available copy is missing from its
    directory and the link is there (both directories being directories
    of the tree reached through directories), it returns the error
    of the second removal, "no such file", and the link is gone all the
    same. *)
Theorem DeleteSite_without_copy_removes_the_link
  (domain target : string) (w : world) :
  let pa := SiteService.availablePath domain in
  let pe := SiteService.enabledPath domain in
  node_at (files w) (key pa) = None ->
  node_at (files w) (key pe) = Some (Link target) ->
  real_dir (files w) (parent (key pa)) = true ->
  real_dir (files w) (parent (key pe)) = true ->
  after ext (SiteService.DeleteSite domain) w
  = (Some (PathError ENOENT), World (delete (key pe) (files w)) (clock w)).
Proof.
  intros pa pe Hpa Hpe Hda _. rewrite after_DeleteSite. fold pa pe. cbv zeta.
  assert (Hke : key pe <> []) by (intros Heq; rewrite Heq in Hpe; discriminate).
  rewrite (remove_leaf _ _ _ Hpe) by (discriminate || exact Hke). cbn [snd].
  rewrite remove_missing; [reflexivity | |].
  - rewrite node_at_delete by exact Hke. by destruct (decide (key pa = key pe)).
  - apply dirs_from_delete; [rewrite Hpe; discriminate | exact Hda].
Qed.

End FSMore.

(** ** Creations that fail before the commit attempt; raw edits of a stream *)

Section FSCreate.
Import FS FSCases FSFacts.
Variable ext : outside.
Variable T : Templates.

(** Removing what is at a path and then making a link there, whatever
    comes of either, leaves the other paths as they were. *)
Lemma relink_frame (t : tree) (oldname : string) (k q : list string) :
  q <> k -> node_at (snd (symlink (snd (remove t k)) oldname k)) q = node_at t q.
Proof.
  intros Hq. pose proof (remove_cases t k) as Hrm.
  destruct (remove t k) as [e1 t1]. cbn [snd].
  pose proof (symlink_cases t1 oldname k) as Hln.
  destruct (symlink t1 oldname k) as [e2 t2]. cbn [snd].
  assert (H1 : node_at t1 q = node_at t q).
  { inversion Hrm as [n Hk Hn | e' _ _]; subst; [| reflexivity].
    rewrite node_at_delete by exact Hk. by rewrite decide_False. }
  inversion Hln as [Hk Hfree Hdir |]; subst; [| exact H1].
  rewrite node_at_insert by exact Hk. by rewrite decide_False.
Qed.

Lemma symlink_frame (t : tree) (oldname : string) (k q : list string) :
  q <> k -> node_at (snd (symlink t oldname k)) q = node_at t q.
Proof.
  intros Hq. pose proof (symlink_cases t oldname k) as Hln.
  destruct (symlink t oldname k) as [e2 t2]. cbn [snd].
  inversion Hln as [Hk Hfree Hdir |]; subst; [| reflexivity].
  rewrite node_at_insert by exact Hk. by rewrite decide_False.
Qed.

(** Whatever [publish] returns, where the available path leads to
    nothing, its directory is there and the two paths differ: the
    available copy holds the text. *)
Lemma publish_fresh pa pe text failed (w : world) :
  node_at (files w) (key pa) = None ->
  is_dir (files w) (parent (key pa)) = true ->
  key pa <> key pe ->
  node_at (files (snd (after ext (publish pa pe text failed) w))) (key pa)
  = Some (File text).
Proof.
  intros Hnone Hdir Hne. unfold publish.
  assert (Hq : key pa <> []) by (by eapply node_at_None_ne).
  rewrite after_bind, after_os_Create. unfold create, open_trunc.
  rewrite resolve_not_link by (intros target; congruence).
  rewrite Hnone, Hdir. cbn [on_files fst snd].
  rewrite after_bind, after_file_Write. cbn [files]. unfold fwrite.
  rewrite node_at_insert by exact Hq. rewrite decide_True by reflexivity.
  cbn [on_files fst snd clock].
  change ("" ++ text) with text. rewrite insert_insert_eq.
  assert (Ht2 : node_at (<[key pa := File text]> (files w)) (key pa) = Some (File text)).
  { rewrite node_at_insert by exact Hq. by rewrite decide_True. }
  destruct failed as [e |]; [rewrite after_ret; exact Ht2 |].
  rewrite after_bind, after_os_Remove. cbn [files clock].
  rewrite (surjective_pairing (remove _ (key pe))). cbn [on_files fst snd].
  rewrite after_os_Symlink. cbn [on_files files clock snd].
  rewrite relink_frame by exact Hne. exact Ht2.
Qed.

(** X23.  A creation of a stream that fails after the available copy was
    created (the template stops with an error, or the link cannot be made)
    is answered with status 500 and no [rolled_back] field, and nothing
    is undone: where the available path led to nothing and its directory
    was there, the available copy is left behind, holding what the
    template had printed. *)
Theorem failed_CreateStream_leaves_the_copy (config : model.StreamConfig) (w : world) :
  let pa := StreamService.availablePath (model.StreamName config) in
  let pe := StreamService.enabledPath (model.StreamName config) in
  let r := after ext (main.POST_streams T (Ok config)) w in
  node_at (files w) (key pa) = None ->
  is_dir (files w) (parent (key pa)) = true ->
  key pa <> key pe ->
  ParseFS T "templates/stream.tmpl" = None ->
  Status (fst r) = 500 ->
  main.rolled_back (fst r) = None ->
  node_at (files (snd r)) (key pa) = Some (File (fst (ExecuteStream T config))).
Proof.
  intros pa pe r Hnone Hdir Hne Hparse. subst r. unfold main.POST_streams.
  rewrite after_bind.
  pose proof (publish_fresh pa pe (fst (ExecuteStream T config))
                (snd (ExecuteStream T config)) w Hnone Hdir Hne) as Hcopy.
  rewrite after_CreateStream, Hparse. fold pa pe.
  destruct (after ext (publish pa pe _ _) w) as [[e1 |] w1].
  - rewrite after_ret. intros _ _. exact Hcopy.
  - rewrite after_bind.
    destruct (after ext SystemService.Reload w1) as [[err |] w2].
    + rewrite after_bind.
      destruct (after ext (StreamService.DeleteStream _) w2) as [e3 w3].
      rewrite after_bind.
      destruct (after ext SystemService.Reload w3) as [e4 w4].
      rewrite after_ret. intros _ Hrb. discriminate Hrb.
    + rewrite after_ret. intros Hst. discriminate Hst.
Qed.

Lemma after_ReadStreamRaw name (w : world) :
  after ext (StreamService.ReadStreamRaw name) w
  = (read_file (files w) (key (StreamService.availablePath name)), w).
Proof. exact (after_call ext (ReadFile _) w). Qed.

(** What [WriteStreamRaw] leaves, whatever it returns, where the
    available copy is a regular file in a directory that is there: the
    available copy holds the text, and its directory is still there. *)
Lemma WriteStreamRaw_regular (name content body : string) (w : world) :
  let pa := StreamService.availablePath name in
  let pe := StreamService.enabledPath name in
  let w' := snd (after ext (StreamService.WriteStreamRaw name content) w) in
  node_at (files w) (key pa) = Some (File body) ->
  is_dir (files w) (parent (key pa)) = true ->
  key pa <> key pe ->
  parent (key pa) <> key pe ->
  node_at (files w') (key pa) = Some (File content)
  /\ is_dir (files w') (parent (key pa)) = true.
Proof.
  intros pa pe w' Hfile Hdir Hne Hpar. subst w'.
  assert (Hka : key pa <> []) by (intros Heq; rewrite Heq in Hfile; discriminate).
  assert (Hpp : parent (key pa) <> key pa).
  { intros Heq. unfold is_dir in Hdir. rewrite Heq, Hfile in Hdir. discriminate. }
  rewrite WriteStreamRaw_steps. fold pa pe.
  rewrite after_bind, after_os_MkdirAll.
  assert (Hkd : key (Filepath.Dir pa) = parent (key pa))
    by (apply key_Dir_Clean; reflexivity).
  rewrite mkdir_all_dir by (rewrite rev_involutive, Hkd; exact Hdir).
  cbn [on_files fst snd].
  rewrite after_bind, after_os_WriteFile. cbn [files].
  rewrite (write_file_regular _ _ _ content Hfile). cbn [on_files fst snd].
  set (t1 := <[key pa := File content]> (files w)).
  assert (Hpa1 : node_at t1 (key pa) = Some (File content)).
  { unfold t1. rewrite node_at_insert by exact Hka. by rewrite decide_True. }
  assert (Hdir1 : node_at t1 (parent (key pa)) = node_at (files w) (parent (key pa))).
  { unfold t1. rewrite node_at_insert by exact Hka. by rewrite decide_False. }
  assert (Hgoal : forall t, node_at t (key pa) = node_at t1 (key pa) ->
            node_at t (parent (key pa)) = node_at t1 (parent (key pa)) ->
            node_at t (key pa) = Some (File content) /\ is_dir t (parent (key pa)) = true).
  { intros t H1 H2. split; [by rewrite H1 |].
    unfold is_dir in *. by rewrite H2, Hdir1. }
  rewrite after_bind, after_os_Lstat. cbn [files].
  destruct (lstat t1 (key pe)) as [info | e].
  - destruct (negb (IsSymlink info)).
    + rewrite after_bind, after_os_Remove. cbn [files clock].
      rewrite (surjective_pairing (remove _ (key pe))). cbn [on_files fst snd].
      rewrite after_os_Symlink. cbn [on_files files clock snd].
      apply Hgoal; apply relink_frame; assumption.
    + rewrite after_ret. cbn [snd files]. by apply Hgoal.
  - destruct (os_IsNotExist e).
    + rewrite after_os_Symlink. cbn [on_files files clock snd].
      apply Hgoal; apply symlink_frame; assumption.
    + rewrite after_ret. cbn [snd files]. by apply Hgoal.
Qed.


End FSCreate.

(** ** What a creation never removes; what a copy needs *)

Section Removals.
Variable T : Templates.

Lemma POST_sites_removes (config : model.SiteConfig) :
  every (removes_only [SiteService.enabledPath (model.Domain config);
                       SiteService.availablePath (model.Domain config)])
    (main.POST_sites T (Ok config)).
Proof.
  unfold main.POST_sites, SiteService.CreateSite, SiteService.pickTemplate,
    SiteService.DeleteSite, SystemService.Reload.
  repeat every_step; set_solver.
Qed.

Context {S : Type} (h : handler S).

(** X25.  The creation of a static site starts with [os.MkdirAll] on the
    content directory of the domain, and no call of the request, the
    undoing of a failed commit included, removes a directory tree or
    anything but the activation link and the available copy: the content
    directory outlives the rollback. *)
Theorem static_content_directory_is_never_removed (config : model.SiteConfig) (s : S) :
  model.Type_ config = "static" ->
  let r := run h (main.POST_sites T (Ok config)) s in
  (exists made rest,
     trace_of r
     = Event (MkdirAll (Filepath.Join ["/var/www/html"; model.Domain config])) made :: rest)
  /\ Forall (fun e => removes_only [SiteService.enabledPath (model.Domain config);
                                    SiteService.availablePath (model.Domain config)]
                        (ev_op e)) (trace_of r).
Proof.
  intros Htype r. split; [| apply every_trace, POST_sites_removes].
  subst r. unfold main.POST_sites, SiteService.CreateSite, SiteService.pickTemplate.
  rewrite Htype. cbn [String.eqb Ascii.eqb Bool.eqb].
  unfold os_MkdirAll, call. cbn [bind run].
  destruct (h (MkdirAll _) s) as [made s1].
  match goal with |- context [run h ?p s1] => destruct (run h p s1) as [[v s2] tr] end.
  unfold trace_of. cbn [snd]. eexists _, _. reflexivity.
Qed.

End Removals.

Section Prepared.
Import SystemService.
Context {S : Type} (h : handler S).

Lemma prepares_weaken {R} (made : option string) (p : prog R) :
  prepares None p -> prepares made p.
Proof.
  destruct p as [r | o k]; cbn; [trivial |]. intros [Ho Hk]. split; [| exact Hk].
  intros Hcp. destruct (Ho Hcp) as (d & Hd & _). discriminate.
Qed.

Lemma prepares_bind {A B} (made : option string) (p : prog A) (f : A -> prog B) :
  prepares made p -> (forall a, prepares None (f a)) -> prepares made (bind p f).
Proof.
  revert made. induction p as [a | o k IH]; intros made Hp Hf; cbn in *.
  - apply prepares_weaken, Hf.
  - destruct Hp as [Ho Hk]. split; [exact Ho |]. intros x. apply IH; [apply Hk | exact Hf].
Qed.

Lemma prepares_trace {R} (made : option string) (p : prog R) (s : S) :
  prepares made p -> prepared made (trace_of (run h p s)).
Proof.
  revert made s. induction p as [a | o k IH]; intros made s Hp; cbn; [exact I |].
  destruct Hp as [Ho Hk]. destruct (h o s) as [x s1].
  specialize (IH x (made_by o (succeeded o x)) s1 (Hk x)).
  destruct (run h (k x) s1) as [[r s2] tr]. unfold trace_of in *. cbn in *.
  split; assumption.
Qed.

Lemma dirExists_prepares path : prepares None (dirExists path).
Proof.
  unfold dirExists. destruct (String.eqb path ""); [exact I |].
  unfold os_Stat, call. cbn. split; [discriminate |].
  intros [info | e]; exact I.
Qed.

Lemma copyAll_prepares tasks : prepares None (copyAll tasks).
Proof.
  induction tasks as [| task rest IH]; cbn [copyAll]; [exact I |].
  unfold os_MkdirAll, ExecuteSimple, call. cbn [bind prepares].
  split; [discriminate |]. intros [e |]; cbn [prepares made_by succeeded is_nil bind];
    [exact I |].
  split.
  - intros _. exists (dest task). split; [reflexivity |]. eexists. reflexivity.
  - intros [out [e |]]; cbn [snd]; [exact I |]. apply prepares_weaken, IH.
Qed.

(** X26.  The Applying stage never copies into a destination that it could
    not make: in whatever environment, each [cp -a] of
    [applyExtractedArchive] comes right after a call of [os.MkdirAll] on
    its destination that returned no error. *)
Theorem copy_follows_a_directory_that_was_made (root : string) (s : S) :
  prepared None (trace_of (run h (applyExtractedArchive root) s)).
Proof.
  apply prepares_trace. unfold applyExtractedArchive.
  apply prepares_bind; [apply dirExists_prepares | intros hasEtc].
  apply prepares_bind; [apply dirExists_prepares | intros hasVar].
  apply prepares_bind; [apply dirExists_prepares | intros hasAlt].
  apply prepares_bind; [| intros useAlt; apply copyAll_prepares].
  destruct hasAlt; [| exact I].
  apply prepares_bind; [apply dirExists_prepares | intros; exact I].
Qed.

End Prepared.

(** ** The backends that [parseLoadBalancers] reads *)

Section Backends.
Import model GoStrings SiteService.

Lemma cut_prefix_inv (p s r : string) : cut_prefix p s = Some r -> s = p ++ r.
Proof.
  revert s. induction p as [| a p IH]; intros s; cbn [cut_prefix].
  - by intros [= ->].
  - destruct s as [| b s]; [discriminate |].
    destruct (Ascii.eqb_spec a b) as [-> | _]; [| discriminate].
    intros H. rewrite app_cons_s. f_equal. by apply IH.
Qed.

Lemma HasPrefix_inv (s p : string) : HasPrefix s p = true -> s = p ++ TrimPrefix s p.
Proof.
  unfold HasPrefix, TrimPrefix. destruct (cut_prefix p s) as [r |] eqn:Hcut;
    [| discriminate].
  intros _. by apply cut_prefix_inv.
Qed.

Lemma HasSuffix_inv (s p : string) : HasSuffix s p = true -> s = TrimSuffix s p ++ p.
Proof.
  unfold HasSuffix, HasPrefix, TrimSuffix.
  destruct (cut_prefix (srev p) (srev s)) as [r |] eqn:Hcut; [| discriminate].
  intros _. apply cut_prefix_inv in Hcut.
  rewrite <- (srev_involutive s), Hcut, srev_app, srev_involutive. reflexivity.
Qed.

Lemma TrimPrefix_app (p r : string) : TrimPrefix (p ++ r) p = r.
Proof. unfold TrimPrefix. by rewrite cut_prefix_app. Qed.

Lemma TrimSuffix_app (r p : string) : TrimSuffix (r ++ p) p = r.
Proof.
  unfold TrimSuffix. rewrite srev_app, cut_prefix_app. apply srev_involutive.
Qed.

Lemma HasPrefix_app (p r : string) : HasPrefix (p ++ r) p = true.
Proof. unfold HasPrefix. by rewrite cut_prefix_app. Qed.

(** A text that ends in a byte ends in it whatever is put before it. *)
Lemma HasSuffix_tail (a r : string) (c : ascii) :
  r <> "" -> HasSuffix (a ++ r) (String c "") = HasSuffix r (String c "").
Proof.
  intros Hr. unfold HasSuffix, HasPrefix. rewrite srev_app.
  destruct (srev r) as [| x y] eqn:Hrev; [by apply srev_eq_nil in Hrev |].
  rewrite app_cons_s. change (srev (String c "")) with (String c "").
  cbn [cut_prefix]. by destruct (Ascii.eqb c x).
Qed.

(** The lines that the loop takes are the server lines with an address. *)
Lemma taken_line (line : string) :
  let trim := TrimSpace line in
  let addr := TrimSuffix (TrimPrefix trim "server ") ";" in
  HasPrefix trim "server " && HasSuffix trim ";" = true -> addr <> "" ->
  server_line line addr.
Proof.
  intros trim addr Hboth Haddr. apply andb_prop in Hboth as [Hp Hs].
  unfold server_line. fold trim.
  pose proof (HasPrefix_inv _ _ Hp) as Htrim.
  set (rest := TrimPrefix trim "server ") in *.
  assert (Hrest : rest <> "").
  { intros Heq. apply Haddr. unfold addr. fold rest. by rewrite Heq. }
  rewrite Htrim in Hs. rewrite HasSuffix_tail in Hs by exact Hrest.
  rewrite Htrim. f_equal. by apply HasSuffix_inv.
Qed.

Lemma server_line_taken (line addr : string) :
  server_line line addr ->
  HasPrefix (TrimSpace line) "server " && HasSuffix (TrimSpace line) ";" = true
  /\ TrimSuffix (TrimPrefix (TrimSpace line) "server ") ";" = addr.
Proof.
  unfold server_line. intros ->. rewrite HasPrefix_app, TrimPrefix_app.
  rewrite TrimSuffix_app. split; [| reflexivity].
  rewrite <- app_assoc_s. by rewrite HasSuffix_app.
Qed.

Lemma serverLines_keeps (lines backends : list string) (b : string) :
  b ∈ backends -> b ∈ serverLines lines backends.
Proof.
  revert backends. induction lines as [| line rest IH]; intros backends Hb;
    cbn [serverLines]; [exact Hb |].
  repeat case_match; apply IH; try exact Hb. apply elem_of_app. by left.
Qed.

Lemma serverLines_sound (lines backends : list string) (b : string) :
  b ∈ serverLines lines backends ->
  b ∈ backends \/ (b <> "" /\ exists line, line ∈ lines /\ server_line line b).
Proof.
  revert backends. induction lines as [| line rest IH]; intros backends;
    cbn [serverLines]; [by left |].
  assert (Hrest : forall acc,
            b ∈ serverLines rest acc -> (b ∈ acc -> b ∈ backends) ->
            b ∈ backends \/ (b <> "" /\ exists l, l ∈ line :: rest /\ server_line l b)).
  { intros acc Hin Hacc. destruct (IH acc Hin) as [H | (Hb & l & Hl & Hsl)]; [by left; auto |].
    right. split; [exact Hb |]. exists l. split; [by apply list_elem_of_further | exact Hsl]. }
  destruct (HasPrefix (TrimSpace line) "server " && HasSuffix (TrimSpace line) ";") eqn:Hboth;
    [| intros Hin; by apply (Hrest backends)].
  destruct (String.eqb_spec (TrimSuffix (TrimPrefix (TrimSpace line) "server ") ";") "")
    as [Heq | Hne]; cbn [negb]; [intros Hin; by apply (Hrest backends) |].
  intros Hin. destruct (IH _ Hin) as [H | (Hb & l & Hl & Hsl)].
  - apply elem_of_app in H as [H | H]; [by left |].
    apply list_elem_of_singleton in H as ->. right. split; [exact Hne |].
    exists line. split; [apply list_elem_of_here | by apply taken_line].
  - right. split; [exact Hb |]. exists l. split; [by apply list_elem_of_further | exact Hsl].
Qed.

Lemma serverLines_complete (lines backends : list string) (line b : string) :
  line ∈ lines -> server_line line b -> b <> "" -> b ∈ serverLines lines backends.
Proof.
  intros Hin Hsl Hb. revert backends.
  induction lines as [| l rest IH]; intros backends; [by apply elem_of_nil in Hin |].
  apply elem_of_cons in Hin as [<- | Hin]; cbn [serverLines].
  - destruct (server_line_taken _ _ Hsl) as [-> ->].
    destruct (String.eqb_spec b "") as [Heq | _]; [contradiction |]. cbn [negb].
    apply serverLines_keeps, elem_of_app. right. apply list_elem_of_here.
  - repeat case_match; by apply IH.
Qed.

(** X27.  The backends that [parseLoadBalancers] stores are the addresses,
    not empty, of the lines of the text that read [server ADDRESS;] once
    trimmed: each such address is stored, and nothing else is.  What the
    configuration held as backends before is dropped. *)
Theorem parseLoadBalancers_reads_the_server_lines
  (content : string) (config : SiteConfig) (b : string) :
  b ∈ Backends (parseLoadBalancers content config)
  <-> b <> "" /\ exists line, line ∈ Split content line_feed /\ server_line line b.
Proof.
  unfold parseLoadBalancers. cbn [Backends withBackends]. split.
  - intros Hin. destruct (serverLines_sound _ _ _ Hin) as [H | H]; [| exact H].
    by apply elem_of_nil in H.
  - intros (Hb & line & Hin & Hsl). by eapply serverLines_complete.
Qed.

End Backends.

(** ** The properties on examples *)

Section OnMoreScenarios.
Import FS Scenario Cases.

Lemma Restore_stops_at_unusable_path_witness :
  let r := run (always refuse) (SystemService.Restore " /root/missing.tar.gz ") 0%nat in
  trace_of r = [Event (Stat "/root/missing.tar.gz") false] /\ value_of r <> None.
Proof.
  apply (Restore_stops_at_unusable_path (always refuse) " /root/missing.tar.gz " 0%nat).
  right. vm_compute. reflexivity.
Defined.

Lemma restoreFromBackup_needs_the_snapshot_witness :
  let f := "/tmp/nginx_pre_restore_1761850000.tar.gz" in
  let r := run (always accept) (SystemService.restoreFromBackup f) 0%nat in
  (is_Ok (fst (always accept (Stat f) 0%nat)) = false ->
   trace_of r = [Event (Stat f) false] /\ value_of r <> None)
  /\ (value_of r = None <->
      exists stopped killed,
        trace_of r = [Event (Stat f) true; Event stop_cmd stopped; Event kill_cmd killed;
                      Event (extract_cmd f "/") true; Event start_cmd true]).
Proof.
  apply (restoreFromBackup_needs_the_snapshot (always accept)
           "/tmp/nginx_pre_restore_1761850000.tar.gz" 0%nat).
  vm_compute. intros H. discriminate H.
Defined.

Lemma Restore_succeeds_witness :
  let r := run (always accept)
             (SystemService.Restore "/root/nginx_backups/nightly.tar.gz") 0%nat in
  exists before cleanPath dir snap removed1 removed2,
    trace_of r = (before ++ [Event test_cmd true; Event start_cmd true;
                             Event (RemoveAll dir) removed1;
                             Event (Remove snap) removed2])%list
    /\ Event (Exec "tar" (SystemService.snapshotArgs snap)) true ∈ before
    /\ Event (extract_cmd cleanPath dir) true ∈ before.
Proof.
  apply (Restore_succeeds_only_after_test_and_start (always accept)
           "/root/nginx_backups/nightly.tar.gz" 0%nat).
  vm_compute. reflexivity.
Defined.

Lemma temporary_directory_removed_witness :
  let r := run (always unstartable)
             (SystemService.Restore "/root/nginx_backups/nightly.tar.gz") 0%nat in
  exists before cleanPath dir extracted rest snap removed1 removed2,
    trace_of r = (before ++ Event (MkdirTemp "" "nginx_restore") true
                    :: Event (extract_cmd cleanPath dir) extracted
                    :: rest ++ [Event (RemoveAll dir) removed1;
                                Event (Remove snap) removed2])%list
    /\ fst (always unstartable (MkdirTemp "" "nginx_restore")
              (state_after (always unstartable) 0%nat before)) = Ok dir
    /\ Event (Exec "tar" (SystemService.snapshotArgs snap)) true ∈ before.
Proof.
  apply (temporary_directory_removed_on_every_return (always unstartable)
           "/root/nginx_backups/nightly.tar.gz" 0%nat).
  vm_compute. repeat first [apply list_elem_of_here | apply list_elem_of_further].
Defined.

Lemma Restore_failure_rolls_back_witness :
  let r := run (always unstartable)
             (SystemService.Restore "/root/nginx_backups/nightly.tar.gz") 0%nat in
  exists snap before s' cleanup,
    trace_of r
    = (before ++ trace_of (run (always unstartable) (SystemService.restoreFromBackup snap) s')
         ++ cleanup)%list
    /\ Event (Exec "tar" (SystemService.snapshotArgs snap)) true ∈ before
    /\ GoStrings.TrimSpace snap <> ""
    /\ Forall (fun e => is_cleanup (ev_op e)) cleanup.
Proof.
  apply (Restore_failure_after_snapshot_rolls_back (always unstartable)
           "/root/nginx_backups/nightly.tar.gz" 0%nat).
  - vm_compute.
    repeat first [ apply Exists_cons_hd; split; reflexivity | apply Exists_cons_tl ].
  - vm_compute. intros H. discriminate H.
Defined.

Lemma refused_request_witness :
  let r := run (always refuse)
             (main.serve templates (main.PutSiteRaw "a.example.com" (Ok "server {}"))) 0%nat in
  Forall (fun e => is_read (ev_op e)) (trace_of r).
Proof.
  apply (refused_request_only_reads templates (always refuse) 0%nat
           (main.PutSiteRaw "a.example.com" (Ok "server {}"))).
  vm_compute. split; [intros H; discriminate H | reflexivity].
Defined.

Lemma success_response_witness :
  let r := run (always accept) (main.serve templates (main.PostSites (Ok new_site))) 0%nat in
  exists before, trace_of r = (before ++ [Event test_cmd true; Event reload_cmd true])%list.
Proof.
  apply (success_response_follows_reload templates (always accept) 0%nat
           (main.PostSites (Ok new_site))).
  vm_compute. reflexivity.
Defined.

Lemma selectLatestBackup_witness :
  exists entries e t,
    fst (always with_archives (ReadDir backups_dir) 0%nat) = Ok entries
    /\ e ∈ entries /\ recognized e t
    /\ "/root/nginx_backups/nginx_conf_c.tar.gz" = Filepath.Join [backups_dir; Name e]
    /\ forall e' t', e' ∈ entries -> recognized e' t' -> t' <= t.
Proof.
  apply (selectLatestBackup_returns_a_newest backups_dir (always with_archives) 0%nat
           "/root/nginx_backups/nginx_conf_c.tar.gz").
  vm_compute. reflexivity.
Defined.

Lemma Backup_witness :
  let name := "nginx_conf_20261030_120000.tar.gz" in
  SystemService.latestOf "/root/nginx_backups"
    [archive "nginx_conf_20250101_000000.tar.gz" 100; archive name 300;
     archive "notes.txt" 950]
  = Ok (Filepath.Join ["/root/nginx_backups"; name]).
Proof.
  destruct (Backup_writes_an_archive_that_is_recognized (always accept)
              (fun _ => "20261030_120000") 0%nat)
    as (made & now & worked & _ & _ & _ & Hlist).
  apply (proj2 (Hlist [archive "nginx_conf_20250101_000000.tar.gz" 100;
                       archive "nginx_conf_20261030_120000.tar.gz" 300;
                       archive "notes.txt" 950]
                  (archive "nginx_conf_20261030_120000.tar.gz" 300) 300
                  ltac:(apply list_elem_of_further, list_elem_of_here)
                  eq_refl eq_refl eq_refl)).
  intros e' t' Hin (Hd & Hs & Hi).
  repeat (apply elem_of_cons in Hin as [-> | Hin]);
    try (by apply elem_of_nil in Hin);
    vm_compute in Hd, Hs, Hi; try discriminate.
  - injection Hi as <-. right. reflexivity.
  - left. reflexivity.
Defined.

Lemma ListSiteConfigs_witness :
  let dir := Filepath.Join [SiteService.ConfDir; "sites-available"] in
  let r := run (always with_sites) SiteService.ListSiteConfigs 0%nat in
  exists entries,
    fst (always with_sites (ReadDir dir) 0%nat) = Ok entries
    /\ map model.Domain
         [ {| model.Domain := "a.example.com"; model.Type_ := "lb"; model.BackendIP := "";
              model.BackendPort := 0;
              model.Backends := ["10.0.0.5:8080"; "10.0.0.6:8080"];
              model.TargetURL := "" |};
           {| model.Domain := "b.example.com"; model.Type_ := "lb"; model.BackendIP := "";
              model.BackendPort := 0;
              model.Backends := ["10.0.0.5:8080"; "10.0.0.6:8080"];
              model.TargetURL := "" |} ]
       = map Name entries
    /\ Forall (fun c => model.Type_ c ∈ supported_types)
         [ {| model.Domain := "a.example.com"; model.Type_ := "lb"; model.BackendIP := "";
              model.BackendPort := 0;
              model.Backends := ["10.0.0.5:8080"; "10.0.0.6:8080"];
              model.TargetURL := "" |};
           {| model.Domain := "b.example.com"; model.Type_ := "lb"; model.BackendIP := "";
              model.BackendPort := 0;
              model.Backends := ["10.0.0.5:8080"; "10.0.0.6:8080"];
              model.TargetURL := "" |} ]
    /\ map ev_op (trace_of r)
       = ReadDir dir
           :: map (fun e => ReadFile (SiteService.availablePath (Name e))) entries.
Proof.
  apply (ListSiteConfigs_follows_the_listing (always with_sites) 0%nat).
  vm_compute. reflexivity.
Defined.

Lemma stream_with_unreadable_port_witness :
  let r1 := run (always with_udp_stream)
              (main.PUT_streams_name templates "dns" (Ok relay_update)) 0%nat in
  let r2 := run (always with_udp_stream) (main.DELETE_streams_name templates "dns") 0%nat in
  Status (value_of r1) = 404
  /\ map ev_op (trace_of r1) = [ReadFile (StreamService.availablePath "dns")]
  /\ Status (value_of r2) = 404
  /\ map ev_op (trace_of r2) = [ReadFile (StreamService.availablePath "dns")]
  /\ forall text : string,
       let r3 := run (always with_udp_stream)
                   (main.PUT_streams_name_raw "dns" (Ok text)) 0%nat in
       Status (value_of r3) <> 404
       /\ exists rest,
            map ev_op (trace_of r3)
            = ReadFile (StreamService.availablePath "dns")
                :: MkdirAll (Filepath.Dir (StreamService.availablePath "dns")) :: rest.
Proof.
  apply (stream_with_unreadable_port_is_refused (always with_udp_stream) templates "dns"
           udp_body (Ok relay_update) 0%nat).
  - reflexivity.
  - cbv -[bad_listen]. do 4 apply Exists_cons_tl. apply Exists_cons_hd.
    split; [vm_compute; reflexivity |]. eexists. vm_compute. reflexivity.
Defined.

Lemma WriteSiteRaw_then_ReadSiteRaw_witness :
  let w1 := snd (after failing (SiteService.WriteSiteRaw "a.example.com" "server {}")
                   (World enabled_store 0)) in
  after failing (SiteService.ReadSiteRaw "a.example.com") w1 = (Ok "server {}", w1)
  /\ exists q, files w1 = <[q := File "server {}"]> enabled_store.
Proof.
  apply (WriteSiteRaw_then_ReadSiteRaw failing "a.example.com" "server {}"
           (World enabled_store 0)).
  vm_compute. reflexivity.
Defined.

Lemma RestoreSiteRaw_witness :
  let pa := SiteService.availablePath "a.example.com" in
  let pe := SiteService.enabledPath "a.example.com" in
  let w1 := snd (after failing (SiteService.RestoreSiteRaw "a.example.com" site_body)
                   (World disabled_store 0)) in
  node_at (files w1) (key pa) = Some (File site_body)
  /\ node_at (files w1) (key pe) = Some (Link pa).
Proof.
  apply (RestoreSiteRaw_writes_and_enables failing "a.example.com" site_body
           (World disabled_store 0)).
  - intros target. vm_compute. intros H. discriminate H.
  - vm_compute. intros H. discriminate H.
  - vm_compute. reflexivity.
  - vm_compute. reflexivity.
  - vm_compute. reflexivity.
Defined.

Lemma WriteStreamRaw_witness :
  let pa := StreamService.availablePath "relay" in
  let pe := StreamService.enabledPath "relay" in
  let w1 := snd (after failing (StreamService.WriteStreamRaw "relay" relay_body_2)
                   (World relinked_store 0)) in
  node_at (files w1) (key pa) = Some (File relay_body_2)
  /\ node_at (files w1) (key pe) = Some (Link "/srv/streams/relay").
Proof.
  apply (WriteStreamRaw_keeps_a_link_that_is_there failing "relay" relay_body_2
           (World relinked_store 0)).
  - intros target. vm_compute. intros H. discriminate H.
  - vm_compute. intros H. discriminate H.
  - vm_compute. reflexivity.
  - vm_compute. reflexivity.
  - vm_compute. reflexivity.
Defined.


Lemma DeleteSite_without_copy_witness :
  after failing (SiteService.DeleteSite "a.example.com") (World dangling_store 0)
  = (Some (PathError ENOENT),
     World (delete (key (SiteService.enabledPath "a.example.com")) dangling_store) 0).
Proof.
  apply (DeleteSite_without_copy_removes_the_link failing "a.example.com"
           "/etc/nginx/sites-available/a.example.com" (World dangling_store 0));
    vm_compute; reflexivity.
Defined.



Lemma failed_CreateStream_witness :
  let pa := StreamService.availablePath "relay" in
  let r := after passing (main.POST_streams broken_templates (Ok relay_update))
             (World empty_store 0) in
  node_at (files (snd r)) (key pa)
  = Some (File (fst (ExecuteStream broken_templates relay_update))).
Proof.
  apply (failed_CreateStream_leaves_the_copy passing broken_templates relay_update
           (World empty_store 0)).
  - vm_compute. reflexivity.
  - vm_compute. reflexivity.
  - vm_compute. intros H. discriminate H.
  - reflexivity.
  - vm_compute. reflexivity.
  - vm_compute. reflexivity.
Defined.


Lemma static_content_directory_witness :
  let r := run (handle_op failing) (main.POST_sites templates (Ok new_site))
             (World enabled_store 0) in
  (exists made rest,
     trace_of r
     = Event (MkdirAll (Filepath.Join ["/var/www/html"; model.Domain new_site])) made :: rest)
  /\ Forall (fun e => removes_only [SiteService.enabledPath (model.Domain new_site);
                                    SiteService.availablePath (model.Domain new_site)]
                        (ev_op e)) (trace_of r).
Proof.
  apply (static_content_directory_is_never_removed templates (handle_op failing) new_site
           (World enabled_store 0)).
  reflexivity.
Defined.

Lemma ListStreamConfigs_witness :
  let dir := Filepath.Join [StreamService.ConfDir; "streams-available"] in
  let r := run (always with_streams) StreamService.ListStreamConfigs 0%nat in
  exists entries,
    fst (always with_streams (ReadDir dir) 0%nat) = Ok entries
    /\ map model.StreamName
         [ {| model.StreamName := "relay"; model.ListenPort := 5353;
              model.Target := "10.0.0.5:53" |} ]
       = map Name entries
    /\ map ev_op (trace_of r)
       = ReadDir dir
           :: map (fun e => ReadFile (StreamService.availablePath (Name e))) entries.
Proof.
  apply (ListStreamConfigs_follows_the_listing (always with_streams) 0%nat).
  vm_compute. reflexivity.
Defined.

End OnMoreScenarios.
